(** * FixIT backend: presence registry, helper ranking and issue lifecycle

    A shallow embedding of the coordination core of the FixIT backend
    ([models/User.js], [models/Issue.js], the issue controller and the
    socket service) together with the properties of its specification,
    followed by the user controller, the availability update and the two
    authentication gates with further properties of the code.

    Conventions of the embedding.
    - JavaScript numbers are exact rationals ([Q]); the places where the
      code can produce [NaN] (the division [0 / 0], and the product with a
      function or an object read from a table) are kept explicit in [jsnum].
    - Strings are Rocq strings; [toLowerCase] folds the ASCII letters.
    - Object literals used as tables are read through their own keys and
      then through the properties of [Object.prototype].
    - Mongo collections and the service's [Map]s are [gmap]s keyed by the
      string form of the identifier. *)

From Stdlib Require Import ZArith QArith Qminmax Qround Lqa Lia List String Ascii Sorted.
From stdpp Require Import base option list gmap strings pretty.

Local Open Scope string_scope.

(** ** JavaScript primitives used by the sources *)

Module JS.

(** [Number] results: a rational, or [NaN]. *)
Inductive jsnum : Type :=
| Num (q : Q)
| NaN.

(** Equality of numbers up to the value of the fraction. *)
Definition jsnum_eq (a b : jsnum) : Prop :=
  match a, b with
  | Num x, Num y => (x == y)%Q
  | _, _ => False
  end.

Definition jsnum_le (a b : jsnum) : Prop :=
  match a, b with
  | Num x, Num y => (x <= y)%Q
  | _, _ => False
  end.

(** The same outcome of two calls that may throw: both throw, or both give
    [NaN], or both give the same number; and the order of two outcomes of
    the same kind. *)
Definition result_eq (a b : option jsnum) : Prop :=
  match a, b with
  | None, None => True
  | Some NaN, Some NaN => True
  | Some (Num x), Some (Num y) => (x == y)%Q
  | _, _ => False
  end.

Definition result_le (a b : option jsnum) : Prop :=
  match a, b with
  | None, None => True
  | Some NaN, Some NaN => True
  | Some (Num x), Some (Num y) => (x <= y)%Q
  | _, _ => False
  end.

Definition Math_min (a b : Q) : Q := if Qle_bool a b then a else b.
Definition Math_max (a b : Q) : Q := if Qle_bool a b then b else a.

(** [String.prototype.toLowerCase] on ASCII text. *)
Definition lower_ascii (c : ascii) : ascii :=
  let n := nat_of_ascii c in
  if (65 <=? n)%nat && (n <=? 90)%nat then ascii_of_nat (n + 32) else c.

Fixpoint toLowerCase (s : string) : string :=
  match s with
  | EmptyString => EmptyString
  | String c r => String (lower_ascii c) (toLowerCase r)
  end.

(** [String.prototype.trim] on ASCII text: the white space and the line
    terminators below U+0080 are TAB, LF, VT, FF, CR and the blank. *)
Definition is_space (c : ascii) : bool :=
  let n := nat_of_ascii c in
  ((9 <=? n) && (n <=? 13) || (n =? 32))%nat.

Fixpoint trimStart (s : string) : string :=
  match s with
  | EmptyString => EmptyString
  | String c r => if is_space c then trimStart r else s
  end.

Fixpoint trimEnd (s : string) : string :=
  match s with
  | EmptyString => EmptyString
  | String c r =>
      match trimEnd r with
      | EmptyString => if is_space c then EmptyString else String c EmptyString
      | r' => String c r'
      end
  end.

Definition trim (s : string) : string := trimEnd (trimStart s).

(** [String.prototype.includes]: [sub] occurs in [s]. *)
Fixpoint str_includes (s sub : string) : bool :=
  if String.prefix sub s then true
  else match s with
       | EmptyString => false
       | String _ r => str_includes r sub
       end.

(** [Array.prototype.includes] on strings. *)
Definition arr_includes (l : list string) (x : string) : bool :=
  existsb (String.eqb x) l.

(** Own-property lookup in an object literal. *)
Fixpoint prop {A} (o : list (string * A)) (k : string) : option A :=
  match o with
  | [] => None
  | (k', v) :: r => if String.eqb k k' then Some v else prop r k
  end.

(** What an object literal inherits from [Object.prototype]: functions,
    each with its [length], and the accessor [__proto__], which gives the
    prototype object itself. *)
Inductive inherited : Type :=
| Function (length : nat)
| Prototype.

Definition Object_prototype : list (string * inherited) :=
  [ ("constructor", Function 1);
    ("__defineGetter__", Function 2);
    ("__defineSetter__", Function 2);
    ("hasOwnProperty", Function 1);
    ("__lookupGetter__", Function 1);
    ("__lookupSetter__", Function 1);
    ("isPrototypeOf", Function 1);
    ("propertyIsEnumerable", Function 1);
    ("toString", Function 0);
    ("valueOf", Function 0);
    ("__proto__", Prototype);
    ("toLocaleString", Function 0) ].

(** The property read [o[k]] on an object literal: an own property, else
    an inherited one, else [undefined]. *)
Inductive property (A : Type) : Type :=
| Own (v : A)
| Inherited (v : inherited)
| Undefined.
Arguments Own {A} v.
Arguments Inherited {A} v.
Arguments Undefined {A}.

Definition read {A} (o : list (string * A)) (k : string) : property A :=
  match prop o k with
  | Some v => Own v
  | None =>
      match prop Object_prototype k with
      | Some i => Inherited i
      | None => Undefined
      end
  end.

(** [k] names a property of [Object.prototype]. *)
Definition inherits (k : string) : Prop := is_Some (prop Object_prototype k).

End JS.

(** ** [models/User.js] *)

Module User.
Import JS.
Local Open Scope Q_scope.

Record Skill : Type := mkSkill {
  name : string;
  level : string;
  verified : bool
}.

Record Rating : Type := mkRating {
  average : Q;
  count : Q
}.

Record Contributions : Type := mkContributions {
  issuesResolved : Q;
  issuesPosted : Q;
  totalTimeHelped : Q;
  points : Q
}.

(** A user document. [lastActive] is the millisecond timestamp that
    [Date.prototype.getTime] returns. *)
Record t : Type := mkUser {
  _id : string;
  employeeId : string;
  firstName : string;
  lastName : string;
  department : option string;
  skills : list Skill;
  rating : Rating;
  contributions : Contributions;
  availability : string;
  lastActive : Z;
  isActive : bool
}.

Definition getFullName (this : t) : string :=
  (firstName this ++ " " ++ lastName this)%string.

(** The table [categoryToDepartments] of [calculateHelperScore]. *)
Definition categoryToDepartments : list (string * list string) :=
  [ ("hardware", ["it"; "infrastructure"; "helpdesk"; "support"]);
    ("software", ["it"; "engineering"; "development"; "helpdesk"]);
    ("network", ["it"; "network"; "infrastructure"; "security"]);
    ("printer", ["it"; "helpdesk"; "support"]);
    ("email", ["it"; "helpdesk"; "support"]);
    ("access", ["it"; "security"; "helpdesk"]);
    ("other", []) ].

(** The table [priorityMultiplierMap]. *)
Definition priorityMultiplierMap : list (string * Q) :=
  [ ("urgent", 12 # 10); ("high", 11 # 10); ("medium", 1); ("low", 95 # 100) ].

Definition userSkillNames (this : t) : list string :=
  map (fun skill => toLowerCase (name skill)) (skills this).

Definition matchingSkills (this : t) (requiredSkills : list string) : list string :=
  List.filter (fun skill => arr_includes (userSkillNames this) (toLowerCase skill))
              requiredSkills.

(** [matchingSkills.length / requiredSkills.length]. Over an empty list of
    required skills the filter is empty too and the quotient is [0 / 0]. *)
Definition skillScore (this : t) (requiredSkills : list string) : jsnum :=
  match requiredSkills with
  | [] => NaN
  | _ :: _ =>
      Num (inject_Z (Z.of_nat (length (matchingSkills this requiredSkills)))
           / inject_Z (Z.of_nat (length requiredSkills)))
  end.

Definition pointsScore (this : t) : Q :=
  Math_min (points (contributions this) / 100) 1.

Definition resolvedScore (this : t) : Q :=
  Math_min (issuesResolved (contributions this) / 10) 1.

Definition ratingScore (this : t) : Q := average (rating this) / 5.

Definition historyScore (this : t) : Q :=
  pointsScore this * (4 # 10) + resolvedScore this * (3 # 10) + ratingScore this * (3 # 10).

(** [now] is the value of [Date.now()] at the call. *)
Definition daysSinceLastActive (now : Z) (this : t) : Q :=
  inject_Z (now - lastActive this) / inject_Z (1000 * 60 * 60 * 24).

Definition recencyScore (now : Z) (this : t) : Q :=
  Math_max 0 (1 - daysSinceLastActive now this / 30).

Definition availabilityScore (this : t) : Q :=
  if String.eqb (availability this) "available" then 1
  else if String.eqb (availability this) "busy" then 1 # 2
  else 0.

Definition engagementScore (now : Z) (this : t) : Q :=
  (recencyScore now this + availabilityScore this) / 2.

Definition dept (this : t) : string :=
  toLowerCase (match department this with Some d => d | None => "" end).

(** [categoryToDepartments[category] || []]: a list of the table, the
    empty list for a name that is no property, or an inherited function or
    object, which is truthy. *)
Definition domainList (category : string) : property (list string) :=
  match read categoryToDepartments category with
  | Undefined => Own []
  | p => p
  end.

(** [domainList.length === 0 ? 0.2 : (domainList.some(...) ? 1 : 0)]. A
    function has a [length] but no method [some], and the prototype object
    has neither: where [some] is called on them the method throws a
    [TypeError], which is [None]. *)
Definition domainScore (this : t) (category : string) : option Q :=
  match domainList category with
  | Own [] => Some (2 # 10)
  | Own l => Some (if existsb (fun d => str_includes (dept this) d) l then 1 else 0)
  | Inherited (Function O) => Some (2 # 10)
  | Inherited _ => None
  | Undefined => Some (2 # 10)
  end.

Definition skillWeight : Q := 35 # 100.
Definition historyWeight : Q := 30 # 100.
Definition domainWeight : Q := 20 # 100.
Definition engagementWeight : Q := 15 # 100.

(** [priorityMultiplierMap[priority] || 1.0] as the product reads it: an
    inherited function or object is truthy and converts to [NaN]. *)
Definition priorityMultiplier (priority : string) : jsnum :=
  match read priorityMultiplierMap priority with
  | Own m => Num (if Qeq_bool m 0 then 1 else m)
  | Inherited _ => NaN
  | Undefined => Num 1
  end.

(** [calculateHelperScore(requiredSkills, category, priority)] with all
    three arguments supplied; [None] is the [TypeError] of the domain
    score. A [NaN] skill score makes the sum, and a [NaN] skill score or
    multiplier the product, [NaN]. *)
Definition calculateHelperScore (now : Z) (this : t)
    (requiredSkills : list string) (category priority : string) : option jsnum :=
  match domainScore this category with
  | None => None
  | Some domain =>
      Some (match skillScore this requiredSkills, priorityMultiplier priority with
            | Num skill, Num multiplier =>
                let baseScore :=
                  skill * skillWeight
                  + historyScore this * historyWeight
                  + domain * domainWeight
                  + engagementScore now this * engagementWeight in
                Num (baseScore * multiplier)
            | _, _ => NaN
            end)
  end.

(** The call [calculateHelperScore(requiredSkills)]: the omitted
    parameters take their defaults. *)
Definition calculateHelperScore1 (now : Z) (this : t)
    (requiredSkills : list string) : option jsnum :=
  calculateHelperScore now this requiredSkills "other" "medium".

End User.

(** ** [models/Issue.js] *)

Module Issue.
Import JS.

(** The values of the schema's [status] enum, in lifecycle order. *)
Inductive Status : Type := open | assigned | in_progress | resolved | closed.

Definition Status_eqb (a b : Status) : bool :=
  match a, b with
  | open, open | assigned, assigned | in_progress, in_progress
  | resolved, resolved | closed, closed => true
  | _, _ => false
  end.

Record Resolution : Type := mkResolution {
  solution : option string;
  resolvedBy : option string;
  resolvedAt : option Z;
  timeSpent : Q
}.

(** An issue document; its [_id] is the key under which the collection
    holds it. *)
Record t : Type := mkIssue {
  category : string;
  priority : string;
  status : Status;
  postedBy : string;
  assignedTo : option string;
  requiredSkills : list string;
  resolution : Resolution;
  upvotes : list string;
  downvotes : list string
}.

Definition set_status (s : Status) (this : t) : t :=
  mkIssue (category this) (priority this) s (postedBy this)
          (assignedTo this) (requiredSkills this) (resolution this)
          (upvotes this) (downvotes this).

Definition set_assignedTo (a : option string) (this : t) : t :=
  mkIssue (category this) (priority this) (status this) (postedBy this)
          a (requiredSkills this) (resolution this)
          (upvotes this) (downvotes this).

Definition set_resolution (r : Resolution) (this : t) : t :=
  mkIssue (category this) (priority this) (status this) (postedBy this)
          (assignedTo this) (requiredSkills this) r
          (upvotes this) (downvotes this).

Definition set_upvotes (l : list string) (this : t) : t :=
  mkIssue (category this) (priority this) (status this) (postedBy this)
          (assignedTo this) (requiredSkills this) (resolution this)
          l (downvotes this).

Definition set_downvotes (l : list string) (this : t) : t :=
  mkIssue (category this) (priority this) (status this) (postedBy this)
          (assignedTo this) (requiredSkills this) (resolution this)
          (upvotes this) l.

Definition set_classification (c p : string) (this : t) : t :=
  mkIssue c p (status this) (postedBy this)
          (assignedTo this) (requiredSkills this) (resolution this)
          (upvotes this) (downvotes this).

(** The virtual [voteCount]. *)
Definition voteCount (this : t) : Z :=
  Z.of_nat (length (upvotes this)) - Z.of_nat (length (downvotes this)).

Definition canVote (this : t) (userId : string) : bool :=
  negb (arr_includes (upvotes this) userId) && negb (arr_includes (downvotes this) userId).

(** The mutating methods return the updated document next to their
    result. *)
Definition addUpvote (this : t) (userId : string) : t * bool :=
  if canVote this userId
  then (set_upvotes (upvotes this ++ [userId]) this, true)
  else (this, false).

Definition addDownvote (this : t) (userId : string) : t * bool :=
  if canVote this userId
  then (set_downvotes (downvotes this ++ [userId]) this, true)
  else (this, false).

(** [resolve(resolvedBy, solution, timeSpent)]; [now] stands for
    [new Date()] and an absent or zero [timeSpent] is stored as [0]. The
    schema trims [resolution.solution] when it is set. *)
Definition resolve (now : Z) (this : t) (by_ : string) (sol : string)
    (spent : option Q) : t :=
  let this1 := set_status resolved this in
  set_resolution
    {| solution := Some (JS.trim sol);
       resolvedBy := Some by_;
       resolvedAt := Some now;
       timeSpent := match spent with Some q => q | None => 0%Q end |}
    this1.

End Issue.

(** ** The issue controller *)

Module IssueController.
Import JS.

(** The two collections. Issues are looked up by identifier only; users
    are also enumerated by [User.find], so their natural order is kept. *)
Record DB : Type := mkDB {
  issues : gmap string Issue.t;
  users : list User.t
}.

Definition Issue_findById (db : DB) (id : string) : option Issue.t :=
  issues db !! id.

Definition User_findById (db : DB) (id : string) : option User.t :=
  List.find (fun u => String.eqb (User._id u) id) (users db).

(** [issue.save()] of the document loaded under [id]: the stored document
    is replaced. *)
Definition Issue_save (db : DB) (id : string) (issue : Issue.t) : DB :=
  mkDB (<[id := issue]> (issues db)) (users db).

Definition User_save (db : DB) (user : User.t) : DB :=
  mkDB (issues db)
       (map (fun u => if String.eqb (User._id u) (User._id user) then user else u)
            (users db)).

(** What a handler wrapped in [asyncHandler] does with the request:
    [res.json(data)], [res.status(code).json(message)], or an exception
    that is handed to the error middleware. *)
Inductive response (A : Type) : Type :=
| Success (data : A)
| Fail (code : nat) (message : string)
| Thrown.
Arguments Success {A} data.
Arguments Fail {A} code message.
Arguments Thrown {A}.

(** *** [getHelperSuggestions] *)

Definition Scored : Type := (User.t * jsnum)%type.
Definition helperScore (h : Scored) : jsnum := snd h.

Definition jsnum_sub (a b : jsnum) : jsnum :=
  match a, b with
  | Num x, Num y => Num (x - y)
  | _, _ => NaN
  end.

(** The comparator [(a, b) => b.helperScore - a.helperScore]. *)
Definition compareFn (a b : Scored) : jsnum :=
  jsnum_sub (helperScore b) (helperScore a).

Definition positive (n : jsnum) : bool :=
  match n with
  | Num q => negb (Qle_bool q 0)
  | NaN => false
  end.

(** [Array.prototype.sort] is stable: an element moves behind a later one
    only when the comparator is positive. *)
Fixpoint sort_insert {A} (cmp : A -> A -> jsnum) (x : A) (l : list A) : list A :=
  match l with
  | [] => [x]
  | y :: r => if positive (cmp x y) then y :: sort_insert cmp x r else x :: l
  end.

Definition Array_sort {A} (cmp : A -> A -> jsnum) (l : list A) : list A :=
  foldr (sort_insert cmp) [] l.

Section WithRegExp.

(** [new RegExp(pattern, 'i')]: [None] when the pattern is rejected with
    a [SyntaxError], otherwise the test of the compiled expression. *)
Variable RegExp_i : string -> option (string -> bool).

(** The filter
    [{ isActive: true, 'skills.name': { $in: regexes } }]. *)
Definition matches_query (regexes : list (string -> bool)) (u : User.t) : bool :=
  User.isActive u
  && existsb (fun sk => existsb (fun re => re (User.name sk)) regexes) (User.skills u).

Definition potentialHelpers (regexes : list (string -> bool)) (db : DB)
    : list User.t :=
  List.filter (matches_query regexes) (users db).

(** [clock i] is the value of [Date.now()] during the [i]-th call of the
    scoring method; an exception of one call ends the [map]. *)
Definition helpersWithScores (clock : nat -> Z) (requiredSkills : list string)
    (helpers : list User.t) : option (list Scored) :=
  mapM id
    (imap (fun i helper =>
             match User.calculateHelperScore1 (clock i) helper requiredSkills with
             | Some helperScore => Some (helper, helperScore)
             | None => None
             end)
          helpers).

Definition getHelperSuggestions (clock : nat -> Z) (db : DB) (id : string)
    : response (list Scored) :=
  match Issue_findById db id with
  | None => Fail 404 "Issue not found"
  | Some issue =>
      match mapM RegExp_i (Issue.requiredSkills issue) with
      | None => Thrown
      | Some regexes =>
          match helpersWithScores clock (Issue.requiredSkills issue)
                                  (potentialHelpers regexes db) with
          | None => Thrown
          | Some scored =>
              let sorted := Array_sort compareFn scored in
              let topHelpers := take 10 sorted in
              Success topHelpers
          end
      end
  end.

End WithRegExp.

(** *** [assignIssue]; [assignedTo] is the body field, [me] is
    [req.user._id]. *)
Definition assignIssue (db : DB) (id : string) (me : string)
    (assignedTo : option string) : DB * response Issue.t :=
  match assignedTo with
  | None => (db, Fail 400 "Helper ID is required")
  | Some helperId =>
      if String.eqb helperId "" then (db, Fail 400 "Helper ID is required") else
      match Issue_findById db id with
      | None => (db, Fail 404 "Issue not found")
      | Some issue =>
          if negb (String.eqb (Issue.postedBy issue) me)
          then (db, Fail 403 "Not authorized to assign this issue")
          else
            match User_findById db helperId with
            | None => (db, Fail 404 "Helper not found")
            | Some _ =>
                let issue1 := Issue.set_assignedTo (Some helperId) issue in
                let issue2 := Issue.set_status Issue.assigned issue1 in
                (Issue_save db id issue2, Success issue2)
            end
      end
  end.

Definition add_resolved (spent : Q) (u : User.t) : User.t :=
  let c := User.contributions u in
  User.mkUser (User._id u) (User.employeeId u) (User.firstName u) (User.lastName u)
    (User.department u) (User.skills u) (User.rating u)
    (User.mkContributions (User.issuesResolved c + 1) (User.issuesPosted c)
                          (User.totalTimeHelped c + spent) (User.points c))
    (User.availability u) (User.lastActive u) (User.isActive u).

(** *** [resolveIssue] *)
Definition resolveIssue (now : Z) (db : DB) (id : string) (me : string)
    (solution : option string) (timeSpent : option Q) : DB * response Issue.t :=
  match solution with
  | None => (db, Fail 400 "Solution is required")
  | Some sol =>
      if String.eqb sol "" then (db, Fail 400 "Solution is required") else
      match Issue_findById db id with
      | None => (db, Fail 404 "Issue not found")
      | Some issue =>
          match Issue.assignedTo issue with
          | None => (db, Thrown)
          | Some a =>
              if negb (String.eqb a me)
              then (db, Fail 403 "Not authorized to resolve this issue")
              else
                let issue1 := Issue.resolve now issue me sol timeSpent in
                let db1 := Issue_save db id issue1 in
                match User_findById db1 me with
                | None => (db1, Thrown)
                | Some helper =>
                    let spent := match timeSpent with Some q => q | None => 0%Q end in
                    (User_save db1 (add_resolved spent helper), Success issue1)
                end
          end
      end
  end.

(** *** [voteIssue]; the data of a successful answer are
    [voteCount], [upvotes.length] and [downvotes.length]. *)
Definition voteIssue (db : DB) (id : string) (me : string) (voteType : string)
    : DB * response (Z * nat * nat) :=
  if negb (arr_includes ["upvote"; "downvote"] voteType)
  then (db, Fail 400 "Invalid vote type")
  else
    match Issue_findById db id with
    | None => (db, Fail 404 "Issue not found")
    | Some issue =>
        let '(issue1, success) :=
          if String.eqb voteType "upvote"
          then Issue.addUpvote issue me
          else Issue.addDownvote issue me in
        if negb success
        then (db, Fail 400 "You have already voted on this issue")
        else (Issue_save db id issue1,
              Success (Issue.voteCount issue1,
                       length (Issue.upvotes issue1),
                       length (Issue.downvotes issue1)))
    end.

End IssueController.

(** ** Event payloads *)

Module Payload.
Import JS.

(** The JavaScript values a client can put in an event payload; an event
    sent without argument gives the handler [undefined]. Numbers are the
    integers below 10^21 in absolute value, whose string form is the decimal
    one; objects are plain objects, whose properties hold such values again.
    Arrays and binary attachments are not among the payloads considered. *)
#[local] Unset Elimination Schemes.
Inductive value : Type :=
| VUndefined
| VNull
| VBool (b : bool)
| VNum (n : Z)
| VStr (s : string)
| VObj (fields : list (string * value)).
#[local] Set Elimination Schemes.

(** The conversion a template literal applies to a hole. A plain object
    converts through the [toString] that it inherits, unless it has an own
    property of that name: in a payload such a property is no function, the
    [valueOf] that is tried next gives no primitive either, and the
    conversion throws a [TypeError], which is [None]. *)
Definition toString (v : value) : option string :=
  match v with
  | VUndefined => Some "undefined"
  | VNull => Some "null"
  | VBool true => Some "true"
  | VBool false => Some "false"
  | VNum n => Some (pretty n)
  | VStr s => Some s
  | VObj fields =>
      match prop fields "toString" with
      | Some _ => None
      | None => Some "[object Object]"
      end
  end.

(** [Boolean(v)], also the test of [if (v)] and of [v || w]. *)
Definition truthy (v : value) : bool :=
  match v with
  | VUndefined | VNull => false
  | VBool b => b
  | VNum n => negb (n =? 0)%Z
  | VStr s => negb (String.eqb s "")
  | VObj _ => true
  end.

(** [v || null] *)
Definition or_null (v : value) : value := if truthy v then v else VNull.

(** The property read [data.key] behind a destructuring pattern, for the
    keys that the handlers name: a primitive has none of them. *)
Definition get (data : value) (key : string) : value :=
  match data with
  | VObj fields => match prop fields key with Some v => v | None => VUndefined end
  | _ => VUndefined
  end.

(** [const { ... } = data] throws a [TypeError] exactly when [data] is
    [undefined] or [null]. *)
Definition destructurable (data : value) : bool :=
  match data with
  | VUndefined | VNull => false
  | _ => true
  end.

Fixpoint chars_from (i : nat) (s : string) : list (string * value) :=
  match s with
  | EmptyString => []
  | String c r => (pretty i, VStr (String c EmptyString)) :: chars_from (S i) r
  end.

(** The own enumerable properties copied by [{ ...v }]. *)
Definition spread (v : value) : list (string * value) :=
  match v with
  | VObj fields => fields
  | VStr s => chars_from 0 s
  | _ => []
  end.

(** Writing a property of an object literal after a spread: an existing
    key keeps its place. *)
Fixpoint set_prop (fields : list (string * value)) (k : string) (v : value)
    : list (string * value) :=
  match fields with
  | [] => [(k, v)]
  | (k', v') :: r =>
      if String.eqb k k' then (k, v) :: r else (k', v') :: set_prop r k v
  end.

End Payload.

(** ** The socket service *)

Module SocketService.
Import JS Payload.

(** An authenticated socket: its own [id] and the [userId] and [user]
    that the middleware attached. *)
Record Socket : Type := mkSocket {
  id : string;
  userId : string;
  user : User.t
}.

(** *** Presence: [connectedUsers] and [userSockets] *)

Record Registry : Type := mkRegistry {
  connectedUsers : gmap string Socket;
  userSockets : gmap string string
}.

Definition empty : Registry := mkRegistry ∅ ∅.

(** The registry part of the [connection] callback. *)
Definition connection (r : Registry) (socket : Socket) : Registry :=
  mkRegistry (<[userId socket := socket]> (connectedUsers r))
             (<[id socket := userId socket]> (userSockets r)).

(** The rooms that the [connection] callback joins. *)
Definition joined_rooms (socket : Socket) : list string :=
  ("user:" ++ userId socket)
  :: match User.department (user socket) with
     | Some d => if String.eqb d "" then [] else ["department:" ++ d]
     | None => []
     end.

Definition handleDisconnect (r : Registry) (socket : Socket) : Registry :=
  mkRegistry (delete (userId socket) (connectedUsers r))
             (delete (id socket) (userSockets r)).

Definition isUserOnline (r : Registry) (uid : string) : bool :=
  bool_decide (is_Some (connectedUsers r !! uid)).

Definition getConnectedUsers (r : Registry) : list string :=
  (map_to_list (connectedUsers r)).*1.

(** The socket that [notifyUser] picks for [uid]. *)
Definition lookup_socket (r : Registry) (uid : string) : option Socket :=
  connectedUsers r !! uid.

(** *** Outbound events *)

Inductive target : Type :=
| Room (topic : string)                        (* [this.io.to(topic)] *)
| RoomExcept (topic : string) (sender : string) (* [socket.to(topic)] *)
| Self (socketId : string).                    (* [socket.emit] *)

Record emission : Type := mkEmission {
  to : target;
  event : string;
  body : list (string * value);
  timestamp : option Z
}.

Definition actor (socket : Socket) : value :=
  VObj [ ("id", VStr (userId socket));
         ("name", VStr (User.getFullName (user socket)));
         ("employeeId", VStr (User.employeeId (user socket))) ].

Definition department_room (socket : Socket) : string :=
  "department:" ++ match User.department (user socket) with
                   | Some d => d
                   | None => "undefined"
                   end.

(** [`user:${v}`] *)
Definition user_room (v : value) : option string :=
  match toString v with
  | Some s => Some ("user:" ++ s)
  | None => None
  end.

(** The request that an accepted [help:respond] hands to the detached
    asynchronous block. *)
Record accept_request : Type := mkAccept {
  responder : string;
  toUserId : value;
  issueId : value
}.

(** What a handler does with one event: it throws, at its destructuring
    pattern or at the template literal that names its room, or it emits and
    possibly detaches the assignment block. *)
Inductive result : Type :=
| Throws
| Done (out : list emission) (detached : option accept_request).

Definition on (data : value) (out : list emission) (detached : option accept_request)
    : result :=
  if destructurable data then Done out detached else Throws.

(** A handler that builds the name of its room from the payload: the
    template literal is evaluated before anything is emitted, and its
    [TypeError] ends the handler. *)
Definition on_room (data : value) (room : option string)
    (emit : string -> list emission * option accept_request) : result :=
  if destructurable data then
    match room with
    | Some topic => let '(out, detached) := emit topic in Done out detached
    | None => Throws
    end
  else Throws.

(** [clock i] is the value of the [i]-th [new Date()] of the handler. *)
Section Handlers.
Variable clock : nat -> Z.
Variable socket : Socket.
Variable data : value.

Definition handleIssueUpdate : result :=
  on data
    [ mkEmission (RoomExcept (department_room socket) (id socket)) "issue:updated"
        [ ("issueId", get data "issueId");
          ("updates", get data "updates");
          ("updatedBy", actor socket) ]
        (Some (clock 0%nat)) ] None.

Definition handleNewComment : result :=
  on_room data
    (match toString (get data "issueId") with
     | Some s => Some ("issue:" ++ s)
     | None => None
     end)
    (fun topic =>
       ([ mkEmission (Room topic) "comment:added"
            [ ("issueId", get data "issueId");
              ("comment",
               VObj (set_prop (spread (get data "comment")) "user" (actor socket))) ]
            (Some (clock 0%nat)) ], None)).

Definition handleIssueAssignment : result :=
  on_room data (user_room (get data "assignedTo"))
    (fun topic =>
       ([ mkEmission (Room topic) "issue:assigned"
            [ ("issueId", get data "issueId");
              ("assignedBy", actor socket) ]
            (Some (clock 0%nat)) ], None)).

Definition handleIssueResolution : result :=
  on data
    [ mkEmission (RoomExcept (department_room socket) (id socket)) "issue:resolved"
        [ ("issueId", get data "issueId");
          ("resolution", get data "resolution");
          ("resolvedBy", actor socket) ]
        (Some (clock 0%nat)) ] None.

Definition handleAvailabilityUpdate : result :=
  on data
    [ mkEmission (RoomExcept (department_room socket) (id socket)) "availability:changed"
        [ ("userId", VStr (userId socket));
          ("availability", get data "availability");
          ("user", actor socket) ]
        (Some (clock 0%nat)) ] None.

Definition handlePrivateMessage : result :=
  on_room data (user_room (get data "recipientId"))
    (fun topic =>
       ([ mkEmission (Room topic) "message:received"
            [ ("sender", actor socket);
              ("message", get data "message");
              ("issueId", get data "issueId") ]
            (Some (clock 0%nat));
          mkEmission (Self (id socket)) "message:sent"
            [ ("recipientId", get data "recipientId");
              ("message", get data "message");
              ("issueId", get data "issueId") ]
            (Some (clock 1%nat)) ], None)).

Definition handleHelpAsk : result :=
  on_room data (user_room (get data "recipientId"))
    (fun topic =>
       ([ mkEmission (Room topic) "help:request"
            [ ("from", actor socket);
              ("issueId", get data "issueId");
              ("note", or_null (get data "note")) ]
            (Some (clock 0%nat));
          mkEmission (Self (id socket)) "help:asked"
            [ ("recipientId", get data "recipientId");
              ("issueId", get data "issueId") ]
            (Some (clock 1%nat)) ], None)).

(** The synchronous part of [handleHelpRespond]; the detached block is
    [Handshake.task_step] below. *)
Definition handleHelpRespond : result :=
  on_room data (user_room (get data "toUserId"))
    (fun topic =>
       ([ mkEmission (Room topic) "help:response"
            [ ("from", actor socket);
              ("issueId", get data "issueId");
              ("accepted", VBool (truthy (get data "accepted")));
              ("note", or_null (get data "note")) ]
            (Some (clock 0%nat));
          mkEmission (Self (id socket)) "help:responded"
            [ ("toUserId", get data "toUserId");
              ("issueId", get data "issueId");
              ("accepted", VBool (truthy (get data "accepted"))) ]
            (Some (clock 1%nat)) ],
        if truthy (get data "accepted")
        then Some (mkAccept (userId socket) (get data "toUserId") (get data "issueId"))
        else None)).

Definition handleTypingStart : result :=
  on_room data (user_room (get data "recipientId"))
    (fun topic =>
       ([ mkEmission (Room topic) "typing:started"
            [ ("userId", VStr (userId socket));
              ("name", VStr (User.getFullName (user socket))) ]
            None ], None)).

Definition handleTypingStop : result :=
  on_room data (user_room (get data "recipientId"))
    (fun topic =>
       ([ mkEmission (Room topic) "typing:stopped"
            [ ("userId", VStr (userId socket)) ]
            None ], None)).

End Handlers.

(** The inbound events that carry a payload, as [setupEventHandlers]
    registers them. *)
Inductive inbound : Type :=
| issue_update | comment_add | issue_assign | issue_resolve
| availability_update | message_send | help_ask | help_respond
| typing_start | typing_stop.

Definition catalogue : list inbound :=
  [ issue_update; comment_add; issue_assign; issue_resolve; availability_update;
    message_send; help_ask; help_respond; typing_start; typing_stop ].

Definition dispatch (clock : nat -> Z) (ev : inbound) (socket : Socket) (data : value)
    : result :=
  match ev with
  | issue_update => handleIssueUpdate clock socket data
  | comment_add => handleNewComment clock socket data
  | issue_assign => handleIssueAssignment clock socket data
  | issue_resolve => handleIssueResolution clock socket data
  | availability_update => handleAvailabilityUpdate clock socket data
  | message_send => handlePrivateMessage clock socket data
  | help_ask => handleHelpAsk clock socket data
  | help_respond => handleHelpRespond clock socket data
  | typing_start => handleTypingStart socket data
  | typing_stop => handleTypingStop socket data
  end.

(** The key whose value a handler puts into the name of its room. *)
Definition room_key (ev : inbound) : option string :=
  match ev with
  | issue_update | issue_resolve | availability_update => None
  | comment_add => Some "issueId"
  | issue_assign => Some "assignedTo"
  | message_send | help_ask | typing_start | typing_stop => Some "recipientId"
  | help_respond => Some "toUserId"
  end.

(** The keys that each handler reads from its payload. *)
Definition payload_keys (ev : inbound) : list string :=
  match ev with
  | issue_update => ["issueId"; "updates"]
  | comment_add => ["issueId"; "comment"]
  | issue_assign => ["issueId"; "assignedTo"]
  | issue_resolve => ["issueId"; "resolution"]
  | availability_update => ["availability"]
  | message_send => ["recipientId"; "message"; "issueId"]
  | help_ask => ["recipientId"; "issueId"; "note"]
  | help_respond => ["toUserId"; "issueId"; "accepted"; "note"]
  | typing_start | typing_stop => ["recipientId"]
  end.

End SocketService.

(** ** The detached assignment block of [handleHelpRespond] *)

Module Handshake.
Import JS Payload SocketService IssueController.

(** The block suspends at its two [await]s, so it runs in three pieces:
    the read of [Issue.findById], the checks with the write of
    [issue.save()], and the two notifications. A loaded document carries
    its identifier. *)
Inductive task : Type :=
| Pending
| Loaded (doc : option (string * Issue.t))
| Saved
| Finished (assigned : bool).

(** [save()] sends the paths whose value was changed since the document
    was loaded; it is rejected when the document is gone. *)
Definition save_changes (loaded edited stored : Issue.t) : Issue.t :=
  let s1 :=
    if bool_decide (Issue.assignedTo edited = Issue.assignedTo loaded) then stored
    else Issue.set_assignedTo (Issue.assignedTo edited) stored in
  if Issue.Status_eqb (Issue.status edited) (Issue.status loaded) then s1
  else Issue.set_status (Issue.status edited) s1.

Definition Issue_save_changes (db : DB) (key : string) (loaded edited : Issue.t)
    : option DB :=
  match issues db !! key with
  | Some stored => Some (Issue_save db key (save_changes loaded edited stored))
  | None => None
  end.

(** [toUserId.toString()] throws on [undefined] and [null], and on an
    object whose own [toString] is no function. *)
Definition method_toString (v : value) : option string :=
  match v with
  | VUndefined | VNull => None
  | _ => toString v
  end.

Definition resolved_or_closed (s : Issue.Status) : bool :=
  match s with
  | Issue.resolved | Issue.closed => true
  | _ => false
  end.

(** The guards between the two [await]s: [Some] of the edited document
    when the assignment goes ahead. *)
Definition checked (req : accept_request) (issue : Issue.t) : option Issue.t :=
  match method_toString (toUserId req) with
  | None => None
  | Some owner =>
      if negb (String.eqb (Issue.postedBy issue) owner) then None
      else if resolved_or_closed (Issue.status issue) then None
      else Some (Issue.set_status Issue.assigned
                   (Issue.set_assignedTo (Some (responder req)) issue))
  end.

(** The two notifications after the save. The room of the second is
    named with a template literal; an exception there is caught by the
    block and leaves the first notification sent. *)
Definition assigned_notifications (now1 now2 : Z) (req : accept_request)
    : list emission :=
  mkEmission (Room ("user:" ++ responder req)) "issue:assigned"
    [ ("issueId", issueId req);
      ("assignedBy", VObj [("id", toUserId req)]) ]
    (Some now1)
  :: match user_room (toUserId req) with
     | Some topic =>
         [ mkEmission (Room topic) "issue:assigned"
             [ ("issueId", issueId req);
               ("assignedBy", VObj [("id", toUserId req)]) ]
             (Some now2) ]
     | None => []
     end.

Section Block.

(** [Issue.findById(v)] for a payload value [v] that is no string.
    Mongoose casts such a value to an identifier or reads it as a query;
    what it finds is left open: [find_other db v] is the identifier of the
    document that the call gives, if it gives one. *)
Variable find_other : DB -> value -> option string.

(** [Issue.findById(issueId)] on a payload value: a string names the
    document stored under it. When no document is found, or the value is
    rejected, the block ends without effect, through [if (!issue) return]
    or through its [catch]. *)
Definition findById_value (db : DB) (v : value) : option (string * Issue.t) :=
  let key :=
    match v with
    | VStr key => Some key
    | _ => find_other db v
    end in
  match key with
  | Some k =>
      match Issue_findById db k with
      | Some issue => Some (k, issue)
      | None => None
      end
  | None => None
  end.

(** One piece of the block, run against the current collection. *)
Definition task_step (now : Z) (req : accept_request) (t : task) (db : DB)
    : DB * task * list emission :=
  match t with
  | Pending => (db, Loaded (findById_value db (issueId req)), [])
  | Loaded None => (db, Finished false, [])
  | Loaded (Some (key, issue)) =>
      match checked req issue with
      | None => (db, Finished false, [])
      | Some edited =>
          match Issue_save_changes db key issue edited with
          | Some db1 => (db1, Saved, [])
          | None => (db, Finished false, [])
          end
      end
  | Saved => (db, Finished true, assigned_notifications now now req)
  | Finished b => (db, Finished b, [])
  end.

(** The block run without interruption. *)
Definition accept (now : Z) (req : accept_request) (db : DB)
    : DB * bool * list emission :=
  let '(db1, t1, _) := task_step now req Pending db in
  let '(db2, t2, _) := task_step now req t1 db1 in
  let '(db3, t3, out) := task_step now req t2 db2 in
  (db3, match t3 with Finished b => b | _ => false end, out).

End Block.

(** Several blocks in flight over one collection. *)
Record system : Type := mkSystem {
  store : DB;
  tasks : list (accept_request * task);
  log : list emission
}.

Definition start (db : DB) (reqs : list accept_request) : system :=
  mkSystem db (map (fun r => (r, Pending)) reqs) [].

Section Scheduler.

Variable find_other : DB -> value -> option string.

(** The scheduler resumes block [i]. *)
Definition step (now : Z) (s : system) (i : nat) : system :=
  match tasks s !! i with
  | None => s
  | Some (req, t) =>
      let '(db1, t1, out) := task_step find_other now req t (store s) in
      mkSystem db1 (<[i := (req, t1)]> (tasks s)) (log s ++ out)
  end.

Definition run (now : Z) (schedule : list nat) (s : system) : system :=
  foldl (step now) s schedule.

End Scheduler.

Definition outcome (s : system) (i : nat) : option task :=
  snd <$> tasks s !! i.

(** A stand-in for the sample data, whose identifiers are all strings: no
    other value finds a document. *)
Definition strings_only (db : DB) (v : value) : option string := None.

End Handshake.

(** ** The write requests of the claims on the issue collection *)

Module Server.
Import IssueController.

Inductive request : Type :=
| Vote (id me voteType : string)
| Assign (id me : string) (assignedTo : option string)
| Resolve (now : Z) (id me : string) (solution : option string) (timeSpent : option Q)
| Accept (now : Z) (req : SocketService.accept_request).

Section WithLookup.

Variable find_other : DB -> Payload.value -> option string.

(** The collections after the request has been handled. *)
Definition handle (db : DB) (r : request) : DB :=
  match r with
  | Vote id me voteType => fst (voteIssue db id me voteType)
  | Assign id me assignedTo => fst (assignIssue db id me assignedTo)
  | Resolve now id me solution timeSpent =>
      fst (resolveIssue now db id me solution timeSpent)
  | Accept now req => fst (fst (Handshake.accept find_other now req db))
  end.

Definition handle_all (db : DB) (rs : list request) : DB := foldl handle db rs.

End WithLookup.

End Server.

(** ** The ranking rules in the words of the specification *)

Module Spec.
Import JS.
Local Open Scope Q_scope.

(** A required skill matches when some skill of the candidate has the
    same name up to letter case. *)
Definition skill_matches (u : User.t) (required : string) : Prop :=
  Exists (fun sk => toLowerCase (User.name sk) = toLowerCase required) (User.skills u).

#[global] Instance skill_matches_dec u required : Decision (skill_matches u required).
Proof. unfold skill_matches. apply _. Defined.

Definition matched_count (u : User.t) (requiredSkills : list string) : nat :=
  length (filter (skill_matches u) requiredSkills).

Definition ratio (m n : nat) : Q := inject_Z (Z.of_nat m) / inject_Z (Z.of_nat n).

(** history = 0.4·min(points/100, 1) + 0.3·min(issuesResolved/10, 1)
    + 0.3·(ratingAverage/5) *)
Definition history (u : User.t) : Q :=
  (4 # 10) * Qmin (User.points (User.contributions u) / 100) 1
  + (3 # 10) * Qmin (User.issuesResolved (User.contributions u) / 10) 1
  + (3 # 10) * (User.average (User.rating u) / 5).

(** recency = max(0, 1 − daysSinceLastActive/30) *)
Definition recency (now : Z) (u : User.t) : Q :=
  Qmax 0 (1 - (inject_Z (now - User.lastActive u) / inject_Z 86400000) / 30).

(** available → 1, busy → 0.5, unavailable (and anything else) → 0 *)
Inductive availability_value : string -> Q -> Prop :=
| av_available : availability_value "available" 1
| av_busy : availability_value "busy" (1 # 2)
| av_unavailable a : a <> "available" -> a <> "busy" -> availability_value a 0.

(** [sub] occurs in [s]. *)
Definition contains (s sub : string) : Prop :=
  exists pre post : string, s = (pre ++ sub ++ post)%string.

(** [kw] is a department keyword of [category] in the fixed table. *)
Definition keyword_of (category kw : string) : Prop :=
  exists kws, prop User.categoryToDepartments category = Some kws /\ In kw kws.

(** 1 if the department contains a keyword of the category, 0.2 if the
    category maps to no keywords, else 0. The department is read in lower
    case, as the keywords are written. *)
Inductive domain_value (u : User.t) (category : string) : Q -> Prop :=
| dv_relevant kw :
    keyword_of category kw -> contains (User.dept u) kw ->
    domain_value u category 1
| dv_no_keywords :
    (forall kw, ~ keyword_of category kw) ->
    domain_value u category (2 # 10)
| dv_irrelevant kw0 :
    keyword_of category kw0 ->
    (forall kw, keyword_of category kw -> ~ contains (User.dept u) kw) ->
    domain_value u category 0.

(** urgent ×1.2, high ×1.1, medium ×1.0, low ×0.95, unknown ×1.0 *)
Inductive priority_factor : string -> Q -> Prop :=
| pf_urgent : priority_factor "urgent" (12 # 10)
| pf_high : priority_factor "high" (11 # 10)
| pf_medium : priority_factor "medium" 1
| pf_low : priority_factor "low" (95 # 100)
| pf_unknown p :
    ~ In p ["urgent"; "high"; "medium"; "low"] -> priority_factor p 1.

(** (0.35·skill + 0.30·history + 0.20·domain + 0.15·engagement) × factor *)
Definition weighted (skill hist domain engagement factor : Q) : Q :=
  ((35 # 100) * skill + (30 # 100) * hist + (20 # 100) * domain
   + (15 # 100) * engagement) * factor.

(** Descending order of the helper scores. *)
Definition descending (a b : IssueController.Scored) : Prop :=
  jsnum_le (IssueController.helperScore b) (IssueController.helperScore a).

Definition is_number (h : IssueController.Scored) : Prop :=
  exists q, IssueController.helperScore h = Num q.

(** An answer that is not a success: an error status or an exception. *)
Definition signals_error {A} (r : IssueController.response A) : Prop :=
  match r with
  | IssueController.Success _ => False
  | _ => True
  end.

(** Every identity is in at most one of the two vote arrays, and at most
    once. *)
Definition voted_once (issue : Issue.t) : Prop :=
  NoDup (Issue.upvotes issue ++ Issue.downvotes issue).

Definition all_voted_once (db : IssueController.DB) : Prop :=
  forall id issue,
    IssueController.Issue_findById db id = Some issue -> voted_once issue.

Definition has_voted (issue : Issue.t) (userId : string) : Prop :=
  In userId (Issue.upvotes issue) \/ In userId (Issue.downvotes issue).

(** The keys an event cannot do without: those its handler reads, the
    optional [note] apart. *)
Definition required_keys (ev : SocketService.inbound) : list string :=
  List.filter (fun k => negb (String.eqb k "note")) (SocketService.payload_keys ev).

(** A payload is malformed when it is absent or lacks a required key. *)
Definition malformed (ev : SocketService.inbound) (data : Payload.value) : Prop :=
  data = Payload.VUndefined
  \/ exists k, In k (required_keys ev) /\ Payload.get data k = Payload.VUndefined.

(** The event is dropped: nothing is emitted, nothing is started and
    nothing is thrown. *)
Definition dropped (r : SocketService.result) : Prop :=
  r = SocketService.Done [] None.

(** The outbound events of each inbound event. *)
Definition outbound (ev : SocketService.inbound) : list string :=
  match ev with
  | SocketService.issue_update => ["issue:updated"]
  | SocketService.comment_add => ["comment:added"]
  | SocketService.issue_assign => ["issue:assigned"]
  | SocketService.issue_resolve => ["issue:resolved"]
  | SocketService.availability_update => ["availability:changed"]
  | SocketService.message_send => ["message:received"; "message:sent"]
  | SocketService.help_ask => ["help:request"; "help:asked"]
  | SocketService.help_respond => ["help:response"; "help:responded"]
  | SocketService.typing_start => ["typing:started"]
  | SocketService.typing_stop => ["typing:stopped"]
  end.

(** The lifecycle open → assigned → in_progress → resolved → closed. *)
Definition rank (s : Issue.Status) : nat :=
  match s with
  | Issue.open => 0
  | Issue.assigned => 1
  | Issue.in_progress => 2
  | Issue.resolved => 3
  | Issue.closed => 4
  end.

(** A status change that does not go backward. *)
Definition forward (before after : Issue.Status) : Prop :=
  (rank before <= rank after)%nat.

(** The issue is still to be worked on. *)
Definition active (s : Issue.Status) : Prop :=
  s = Issue.open \/ s = Issue.assigned \/ s = Issue.in_progress.

(** Exactly one of two. *)
Definition exactly_one (a b : Prop) : Prop := (a /\ ~ b) \/ (~ a /\ b).

End Spec.

(** ** Two accepted responses to one request *)

Module Race.
Import Payload SocketService IssueController Handshake.

(** The issue [issue0] stored under [key], its owner as the payloads name
    it, and the two responders. *)
Record scenario : Type := mkScenario {
  key : string;
  issue0 : Issue.t;
  owner : value;
  r1 : string;
  r2 : string
}.

Definition requests (c : scenario) : list accept_request :=
  [ mkAccept (r1 c) (owner c) (VStr (key c));
    mkAccept (r2 c) (owner c) (VStr (key c)) ].

Definition is_responder (c : scenario) (r : string) : Prop := r = r1 c \/ r = r2 c.

(** The document carries the assignment to one of the responders. *)
Definition assigned_to_responder (c : scenario) (x : Issue.t) : Prop :=
  Issue.status x = Issue.assigned
  /\ exists r, is_responder c r /\ Issue.assignedTo x = Some r.

(** What a block can have loaded, and what the collection can hold. *)
Definition doc_ok (c : scenario) (d : Issue.t) : Prop :=
  Issue.postedBy d = Issue.postedBy (issue0 c)
  /\ (d = issue0 c \/ assigned_to_responder c d).

Definition req_ok (c : scenario) (req : accept_request) : Prop :=
  is_responder c (responder req)
  /\ toUserId req = owner c
  /\ issueId req = VStr (key c).

Definition task_ok (c : scenario) (now : Z) (stored : Issue.t) (log : list emission)
    (rt : accept_request * task) : Prop :=
  req_ok c (fst rt)
  /\ match snd rt with
     | Pending => True
     | Loaded doc =>
         exists d, doc = Some (key c, d) /\ doc_ok c d
                   /\ (assigned_to_responder c d -> assigned_to_responder c stored)
     | Saved => assigned_to_responder c stored
     | Finished b =>
         b = true /\ assigned_to_responder c stored
         /\ incl (assigned_notifications now now (fst rt)) log
     end.

Definition invariant (c : scenario) (now : Z) (s : system) : Prop :=
  exists stored,
    issues (store s) !! key c = Some stored
    /\ doc_ok c stored
    /\ Forall (task_ok c now stored (log s)) (tasks s).

(** How far a block has come. *)
Definition stage (t : task) : nat :=
  match t with
  | Pending => 0
  | Loaded _ => 1
  | Saved => 2
  | Finished _ => 3
  end.

End Race.

(** ** Sample documents, in the style of [utils/seedData.js] *)

Module Sample.
Local Open Scope Q_scope.

Definition day : Z := 1000 * 60 * 60 * 24.

(** A network engineer of the IT department, last active at time [0]. *)
Definition netta : User.t :=
  User.mkUser "u1" "EMP001" "Netta" "Ray" (Some "IT Support")
    [User.mkSkill "Network" "advanced" true]
    (User.mkRating 4 10)
    (User.mkContributions 5 1 120 40)
    "available" 0 true.

Definition vic : User.t :=
  User.mkUser "u2" "EMP002" "Vic" "Lam" (Some "Finance")
    [User.mkSkill "VPN" "expert" false; User.mkSkill "network" "beginner" false]
    (User.mkRating 5 3)
    (User.mkContributions 20 0 600 250)
    "busy" 0 true.

Definition owner : User.t :=
  User.mkUser "u0" "EMP000" "Olga" "Win" (Some "Sales")
    [] (User.mkRating 0 0) (User.mkContributions 0 1 0 0)
    "available" 0 true.

Definition no_resolution : Issue.Resolution :=
  Issue.mkResolution None None None 0.

(** An issue posted by [owner]. *)
Definition vpn_issue (s : Issue.Status) (helper : option string) : Issue.t :=
  Issue.mkIssue "network" "urgent" s "u0" helper ["network"; "vpn"]
                no_resolution [] [].

Definition db (s : Issue.Status) (helper : option string) : IssueController.DB :=
  IssueController.mkDB {[ "i1" := vpn_issue s helper ]} [owner; netta; vic].

(** A stored issue whose list of required skills is empty. *)
Definition bare_issue : Issue.t :=
  Issue.mkIssue "other" "low" Issue.open "u0" None [] no_resolution [] [].

Definition bare_db : IssueController.DB :=
  IssueController.mkDB {[ "i0" := bare_issue ]} [owner; netta; vic].

Definition plain_char (c : ascii) : bool :=
  let n := nat_of_ascii c in
  ((48 <=? n) && (n <=? 57) || (65 <=? n) && (n <=? 90)
   || (97 <=? n) && (n <=? 122) || (n =? 32))%nat.

(** The regular expressions of the sample data: a pattern of letters,
    digits and blanks has no metacharacter, so with the flag [i] it searches
    the subject for the pattern without regard to letter case. No other
    pattern is used below, and this stand-in compiles none. *)
Definition RegExp_plain (pattern : string) : option (string -> bool) :=
  if forallb plain_char (list_ascii_of_string pattern)
  then Some (fun subject =>
               JS.str_includes (JS.toLowerCase subject) (JS.toLowerCase pattern))
  else None.

(** The issue [i1] after [u1] has upvoted it. *)
Definition voted_db : IssueController.DB :=
  IssueController.mkDB
    {[ "i1" := Issue.set_upvotes ["u1"] (vpn_issue Issue.open None) ]}
    [owner; netta; vic].

(** Two connections of the same user: [s1], then [s2]. *)
Definition first_socket : SocketService.Socket := SocketService.mkSocket "s1" "u1" netta.
Definition second_socket : SocketService.Socket := SocketService.mkSocket "s2" "u1" netta.

(** The owner [u0] asked for help with [i1]; [u1] and [u2] both accept. *)
Definition two_helpers (s : Issue.Status) (helper : option string) : Race.scenario :=
  Race.mkScenario "i1" (vpn_issue s helper) (Payload.VStr "u0") "u1" "u2".

End Sample.

(** ** The public methods of the socket service and connection traces *)

Module Presence.
Import Payload SocketService.

(** [notifyUser(userId, event, data)]: the socket that receives the event,
    with the event and its data, when the user has one. *)
Definition notifyUser (r : Registry) (uid event : string) (data : value)
    : option (string * string * value) :=
  match connectedUsers r !! uid with
  | Some socket => Some (id socket, event, data)
  | None => None
  end.

(** What happens to the registry over time: sockets connect and disconnect. *)
Inductive lifecycle : Type :=
| Connect (socket : Socket)
| Disconnect (socket : Socket).

Definition socket_of (e : lifecycle) : Socket :=
  match e with
  | Connect s | Disconnect s => s
  end.

Definition apply (r : Registry) (e : lifecycle) : Registry :=
  match e with
  | Connect s => connection r s
  | Disconnect s => handleDisconnect r s
  end.

Definition replay (es : list lifecycle) : Registry := foldl apply empty es.

(** Socket ids are unique: two sockets of a trace with the same id are the
    same socket. *)
Definition ids_identify (es : list lifecycle) : Prop :=
  forall e1 e2, In e1 es -> In e2 es ->
    id (socket_of e1) = id (socket_of e2) -> socket_of e1 = socket_of e2.

(** Every user held as connected is held with a socket of its own, and the
    inverse map sends that socket back to the user. *)
Definition forward_consistent (r : Registry) : Prop :=
  forall uid socket,
    connectedUsers r !! uid = Some socket ->
    userId socket = uid /\ userSockets r !! id socket = Some uid.

End Presence.

(** ** The issue controller: update and delete *)

Module IssueCrud.
Import JS IssueController.

(** The fields of the request body that [updateIssue] may copy, as far as
    the issue documents above carry them; [None] is a field the body does
    not have. *)
Record body : Type := mkBody {
  priority : option string;
  requiredSkills : option (list string)
}.

Section WithCast.

(** The cast that the update applies to an element of [requiredSkills]. *)
Variable cast_skill : string -> string.

Definition apply_updates (b : body) (issue : Issue.t) : Issue.t :=
  Issue.mkIssue
    (Issue.category issue)
    (match priority b with Some p => p | None => Issue.priority issue end)
    (Issue.status issue) (Issue.postedBy issue) (Issue.assignedTo issue)
    (match requiredSkills b with
     | Some l => map cast_skill l
     | None => Issue.requiredSkills issue
     end)
    (Issue.resolution issue) (Issue.upvotes issue) (Issue.downvotes issue).

(** [updateIssue]; [me] is [req.user._id]. *)
Definition updateIssue (db : DB) (id me : string) (b : body) : DB * response Issue.t :=
  match Issue_findById db id with
  | None => (db, Fail 404 "Issue not found")
  | Some issue =>
      if negb (String.eqb (Issue.postedBy issue) me)
      then (db, Fail 403 "Not authorized to update this issue")
      else if Issue.Status_eqb (Issue.status issue) Issue.resolved
              || Issue.Status_eqb (Issue.status issue) Issue.closed
      then (db, Fail 400 "Cannot update resolved or closed issues")
      else
        let issue1 := apply_updates b issue in
        (Issue_save db id issue1, Success issue1)
  end.

End WithCast.

Definition Issue_delete (db : DB) (id : string) : DB :=
  mkDB (delete id (issues db)) (users db).

(** [deleteIssue] *)
Definition deleteIssue (db : DB) (id me : string) : DB * response unit :=
  match Issue_findById db id with
  | None => (db, Fail 404 "Issue not found")
  | Some issue =>
      if negb (String.eqb (Issue.postedBy issue) me)
      then (db, Fail 403 "Not authorized to delete this issue")
      else (Issue_delete db id, Success tt)
  end.

End IssueCrud.

(** ** Repeated requests *)

Module Ballot.
Import IssueController.

(** The vote requests [voteTypes] of one user on one issue, in order. *)
Definition votes_by (db : DB) (id me : string) (voteTypes : list string) : DB :=
  foldl (fun db voteType => fst (voteIssue db id me voteType)) db voteTypes.

End Ballot.

(** ** Six kinds of requests that write to the issue collection

    Votes, direct assignments, resolutions, accepted help responses,
    updates and deletions. [createIssue] and [addComment], which write to
    the collection too, are not among them. *)

Module Api.
Import IssueController.

Inductive request : Type :=
| Vote (id me voteType : string)
| Assign (id me : string) (assignedTo : option string)
| Resolve (now : Z) (id me : string) (solution : option string) (timeSpent : option Q)
| Accept (now : Z) (req : SocketService.accept_request)
| Update (id me : string) (b : IssueCrud.body)
| Delete (id me : string).

Section WithCast.

Variable cast_skill : string -> string.
Variable find_other : DB -> Payload.value -> option string.

Definition handle (db : DB) (r : request) : DB :=
  match r with
  | Vote id me voteType => fst (voteIssue db id me voteType)
  | Assign id me assignedTo => fst (assignIssue db id me assignedTo)
  | Resolve now id me solution timeSpent =>
      fst (resolveIssue now db id me solution timeSpent)
  | Accept now req => fst (fst (Handshake.accept find_other now req db))
  | Update id me b => fst (IssueCrud.updateIssue cast_skill db id me b)
  | Delete id me => fst (IssueCrud.deleteIssue db id me)
  end.

Definition handle_all (db : DB) (rs : list request) : DB := foldl handle db rs.

End WithCast.

(** What a later version of an issue keeps of an earlier one: the owner,
    the category and every vote cast. *)
Definition keeps (old new : Issue.t) : Prop :=
  Issue.postedBy new = Issue.postedBy old
  /\ Issue.category new = Issue.category old
  /\ incl (Issue.upvotes old) (Issue.upvotes new)
  /\ incl (Issue.downvotes old) (Issue.downvotes new).

(** One request stores at most one new version of one issue, or removes one
    issue. *)
Definition small_change (db db' : DB) : Prop :=
  issues db' = issues db
  \/ (exists k old new,
        issues db !! k = Some old /\ keeps old new
        /\ issues db' = <[k := new]> (issues db))
  \/ (exists k, issues db' = delete k (issues db)).

End Api.

(** ** The earlier scoring method kept in [models/User.js] *)

Module LegacyUser.
Import JS.
Local Open Scope Q_scope.

(** The skill and engagement parts are computed as in the current method. *)
Definition historyScore (this : User.t) : Q :=
  Math_min (User.issuesResolved (User.contributions this) / 10) 1
  * (User.average (User.rating this) / 5).

Definition skillWeight : Q := 4 # 10.
Definition historyWeight : Q := 3 # 10.
Definition engagementWeight : Q := 3 # 10.

Definition calculateHelperScore (now : Z) (this : User.t)
    (requiredSkills : list string) : jsnum :=
  match User.skillScore this requiredSkills with
  | NaN => NaN
  | Num skill =>
      Num (skill * skillWeight
           + historyScore this * historyWeight
           + User.engagementScore now this * engagementWeight)
  end.

End LegacyUser.

(** ** Further sample data *)

Module Fixtures.
Import Payload.

(** A comment payload whose comment names another author. *)
Definition forged_comment : value :=
  VObj [ ("issueId", VStr "i1");
         ("comment", VObj [ ("text", VStr "restart the router");
                            ("user", VObj [("id", VStr "u0")]) ]) ].

(** [u2] accepts a request for [i1] that names the owner [u0]. *)
Definition unasked_response : value :=
  VObj [ ("toUserId", VStr "u0"); ("issueId", VStr "i1"); ("accepted", VBool true) ].

Definition vic_socket : SocketService.Socket := SocketService.mkSocket "s9" "u2" Sample.vic.

(** An issue that asks for a skill whose name is no regular expression. *)
Definition cpp_issue : Issue.t :=
  Issue.mkIssue "software" "high" Issue.open "u0" None ["network"; "C++"]
                Sample.no_resolution [] [].

Definition cpp_db : IssueController.DB :=
  IssueController.mkDB {[ "i2" := cpp_issue ]} [Sample.owner; Sample.netta; Sample.vic].

End Fixtures.

(** ** The user controller, and the other writers of the user collection *)

Module UserController.
Import JS IssueController.

(** An element of [req.body.skills] with fields of the types that the
    schema asks for; [None] is an omitted [verified]. *)
Record skill_input : Type := mkSkillInput {
  input_name : string;
  input_level : string;
  input_verified : option bool
}.

Definition levels : list string := ["beginner"; "intermediate"; "advanced"; "expert"].

(** [updateSkillsSchema.parse] succeeds. *)
Definition updateSkillsSchema (skills : list skill_input) : bool :=
  forallb (fun s =>
             (2 <=? String.length (input_name s))%nat
             && (String.length (input_name s) <=? 50)%nat
             && arr_includes levels (input_level s))
          skills.

(** The cast of one element to a skill subdocument: the name is trimmed,
    an omitted flag takes its default. *)
Definition cast_skill (s : skill_input) : User.Skill :=
  User.mkSkill (trim (input_name s)) (input_level s)
               (match input_verified s with Some b => b | None => false end).

(** The validation of [save()]: a required name is not empty. *)
Definition skills_valid (skills : list User.Skill) : bool :=
  forallb (fun s => negb (String.eqb (User.name s) "")) skills.

Definition set_skills (skills : list User.Skill) (u : User.t) : User.t :=
  User.mkUser (User._id u) (User.employeeId u) (User.firstName u) (User.lastName u)
    (User.department u) skills (User.rating u) (User.contributions u)
    (User.availability u) (User.lastActive u) (User.isActive u).

(** [updateUserSkills]; [id] is [req.params.id], [me] is [req.user._id]. *)
Definition updateUserSkills (db : DB) (id me : string) (skills : list skill_input)
    : DB * response (list User.Skill) :=
  if negb (updateSkillsSchema skills) then (db, Thrown)
  else
    match User_findById db id with
    | None => (db, Fail 404 "User not found")
    | Some user =>
        if negb (String.eqb (User._id user) me)
        then (db, Fail 403 "Not authorized to update this user's skills")
        else
          let skills1 := map cast_skill skills in
          if negb (skills_valid skills1) then (db, Thrown)
          else (User_save db (set_skills skills1 user), Success skills1)
    end.

(** [user.skills.find(...)] followed by [skill.verified = true]: the found
    subdocument, and the array with it changed in place. *)
Fixpoint verify (skillName : string) (skills : list User.Skill)
    : option (User.Skill * list User.Skill) :=
  match skills with
  | [] => None
  | s :: r =>
      if String.eqb (toLowerCase (User.name s)) (toLowerCase skillName)
      then let s1 := User.mkSkill (User.name s) (User.level s) true in
           Some (s1, s1 :: r)
      else match verify skillName r with
           | Some (s1, r1) => Some (s1, s :: r1)
           | None => None
           end
  end.

(** [verifyUserSkill]; the handler does not read [req.user]. *)
Definition verifyUserSkill (db : DB) (id skillName : string)
    : DB * response User.Skill :=
  match User_findById db id with
  | None => (db, Fail 404 "User not found")
  | Some user =>
      match verify skillName (User.skills user) with
      | None => (db, Fail 404 "Skill not found")
      | Some (skill, skills1) =>
          (User_save db (set_skills skills1 user), Success skill)
      end
  end.

Definition set_activity (availability : string) (lastActive : Z) (u : User.t)
    : User.t :=
  User.mkUser (User._id u) (User.employeeId u) (User.firstName u) (User.lastName u)
    (User.department u) (User.skills u) (User.rating u) (User.contributions u)
    availability lastActive (User.isActive u).

(** [User.findByIdAndUpdate(id, update, { new: true })]: the updated
    document, or [null]. *)
Definition User_findByIdAndUpdate (db : DB) (id : string) (update : User.t -> User.t)
    : DB * option User.t :=
  match User_findById db id with
  | None => (db, None)
  | Some user => (User_save db (update user), Some (update user))
  end.

(** [updateAvailability] of the authentication controller; [availability]
    is the body field as sent, [now] the value of [new Date()]. *)
Definition updateAvailability (now : Z) (db : DB) (me : string)
    (availability : Payload.value) : DB * response (option User.t) :=
  match availability with
  | Payload.VStr a =>
      if negb (arr_includes ["available"; "busy"; "unavailable"] a)
      then (db, Fail 400 "Invalid availability status")
      else
        let '(db1, user) := User_findByIdAndUpdate db me (set_activity a now) in
        (db1, Success user)
  | _ => (db, Fail 400 "Invalid availability status")
  end.

(** [updateUserActivity] of the socket service, called when a socket
    connects and when it disconnects. *)
Definition updateUserActivity (now : Z) (db : DB) (userId : string) : DB :=
  fst (User_findByIdAndUpdate db userId
         (fun u => set_activity (User.availability u) now u)).

End UserController.

(** ** The requests above together with four writers of the user collection

    The skill update, the skill verification, the availability update and
    the activity stamp of a socket that connects or disconnects.
    [register], [login] and [updateProfile], which write to the user
    collection too, are not among them. *)

Module Backend.
Import IssueController.

Inductive request : Type :=
| OnIssues (r : Api.request)
| UpdateSkills (id me : string) (skills : list UserController.skill_input)
| VerifySkill (id skillName : string)
| UpdateAvailability (now : Z) (me : string) (availability : Payload.value)
| SocketConnects (now : Z) (userId : string)
| SocketDisconnects (now : Z) (userId : string).

Section WithCast.

Variable cast_skill : string -> string.
Variable find_other : DB -> Payload.value -> option string.

Definition handle (db : DB) (r : request) : DB :=
  match r with
  | OnIssues r => Api.handle cast_skill find_other db r
  | UpdateSkills id me skills => fst (UserController.updateUserSkills db id me skills)
  | VerifySkill id skillName => fst (UserController.verifyUserSkill db id skillName)
  | UpdateAvailability now me availability =>
      fst (UserController.updateAvailability now db me availability)
  | SocketConnects now userId => UserController.updateUserActivity now db userId
  | SocketDisconnects now userId => UserController.updateUserActivity now db userId
  end.

Definition handle_all (db : DB) (rs : list request) : DB := foldl handle db rs.

End WithCast.

(** What these requests leave alone in a user document. *)
Definition standing (u : User.t)
    : string * string * string * string * option string * User.Rating * Q * Q * bool :=
  (User._id u, User.employeeId u, User.firstName u, User.lastName u,
   User.department u, User.rating u,
   User.points (User.contributions u), User.issuesPosted (User.contributions u),
   User.isActive u).

End Backend.

(** ** Sample requests on the user collection *)

Module UserFixtures.
Import UserController.

(** [u1] sends its skills again, one with blanks around the name and
    marked as verified by the sender. *)
Definition own_skills : list skill_input :=
  [ mkSkillInput " Firewalls " "expert" (Some true);
    mkSkillInput "Network" "advanced" None ].

Definition busy_day : list Backend.request :=
  [ Backend.OnIssues (Api.Resolve 5 "i1" "u1" (Some "replaced the cable") (Some (30 # 1)));
    Backend.UpdateSkills "u1" "u1" own_skills;
    Backend.VerifySkill "u2" "vpn";
    Backend.UpdateAvailability 6 "u1" (Payload.VStr "busy");
    Backend.SocketConnects 7 "u2";
    Backend.SocketDisconnects 8 "u2" ].

End UserFixtures.

(** ** A sample issue that asks for a part of a skill name *)

Module PatternFixtures.

Definition net_issue : Issue.t :=
  Issue.mkIssue "network" "high" Issue.open "u0" None ["net"]
                Sample.no_resolution [] [].

Definition net_db : IssueController.DB :=
  IssueController.mkDB {[ "i3" := net_issue ]} [Sample.owner; Sample.netta].

End PatternFixtures.

(** ** The statistics of a user

    Of the answer of [getUserStats], the [statistics] object is modelled;
    the copies of the profile, of the skills and of the recent issues are
    left out. *)

Module UserStats.
Import JS IssueController.

(** [Math.round]: the nearest integer, a half going up. *)
Definition Math_round (q : Q) : Z := Qfloor (q + (1 # 2)).

(** [Issue.find(filter)] and [Issue.countDocuments(filter)]. *)
Definition Issue_find (db : DB) (filter : Issue.t -> bool) : list Issue.t :=
  List.filter filter (map snd (map_to_list (issues db))).

Definition Issue_countDocuments (db : DB) (filter : Issue.t -> bool) : nat :=
  length (Issue_find db filter).

(** The filters [{ postedBy: userId }], [{ assignedTo: userId }] and
    [{ 'resolution.resolvedBy': userId }]. *)
Definition posted_by (userId : string) (issue : Issue.t) : bool :=
  String.eqb (Issue.postedBy issue) userId.

Definition assigned_to (userId : string) (issue : Issue.t) : bool :=
  match Issue.assignedTo issue with
  | Some a => String.eqb a userId
  | None => false
  end.

Definition resolved_by (userId : string) (issue : Issue.t) : bool :=
  match Issue.resolvedBy (Issue.resolution issue) with
  | Some a => String.eqb a userId
  | None => false
  end.

(** [{ $or: [{ postedBy }, { assignedTo }],
       status: { $in: ['open', 'assigned', 'in_progress'] } }] *)
Definition open_of (userId : string) (issue : Issue.t) : bool :=
  (posted_by userId issue || assigned_to userId issue)
  && match Issue.status issue with
     | Issue.open | Issue.assigned | Issue.in_progress => true
     | _ => false
     end.

(** What one document adds to a count. *)
Definition b2n (b : bool) : nat := if b then 1%nat else 0%nat.

(** The [statistics] object of the answer. *)
Record statistics : Type := mkStatistics {
  postedIssues : nat;
  assignedIssues : nat;
  resolvedIssues : nat;
  openIssues : nat;
  avgResolutionTime : Z;
  totalTimeHelped : Q
}.

Definition getUserStats (db : DB) (userId : string) : response statistics :=
  match User_findById db userId with
  | None => Fail 404 "User not found"
  | Some user =>
      let postedIssues := Issue_countDocuments db (posted_by userId) in
      let assignedIssues := Issue_countDocuments db (assigned_to userId) in
      let resolvedIssues := Issue_countDocuments db (resolved_by userId) in
      let openIssues := Issue_countDocuments db (open_of userId) in
      let resolvedIssuesData := Issue_find db (resolved_by userId) in
      let totalResolutionTime :=
        fold_left (fun sum issue => (sum + Issue.timeSpent (Issue.resolution issue))%Q)
                  resolvedIssuesData 0%Q in
      let avgResolutionTime :=
        if (0 <? resolvedIssues)%nat
        then (totalResolutionTime / inject_Z (Z.of_nat resolvedIssues))%Q
        else 0%Q in
      Success (mkStatistics postedIssues assignedIssues resolvedIssues openIssues
                            (Math_round avgResolutionTime)
                            (User.totalTimeHelped (User.contributions user)))
  end.

End UserStats.

(** ** The two authentication gates *)

Module Auth.
Import JS Payload IssueController.

(** [s.split(' ')] *)
Fixpoint split_blank (s : string) : list string :=
  match s with
  | EmptyString => [EmptyString]
  | String c r =>
      if Ascii.eqb c " " then EmptyString :: split_blank r
      else match split_blank r with
           | x :: l => String c x :: l
           | [] => [String c EmptyString]
           end
  end.

Fixpoint drop_chars (n : nat) (s : string) : string :=
  match n, s with
  | O, _ => s
  | S n', String _ r => drop_chars n' r
  | S _, EmptyString => EmptyString
  end.

(** [s.replace(pattern, '')] for a string pattern: the first occurrence
    is taken out. *)
Fixpoint remove_first (pattern s : string) : string :=
  if String.prefix pattern s then drop_chars (String.length pattern) s
  else match s with
       | EmptyString => EmptyString
       | String c r => String c (remove_first pattern r)
       end.

(** The header that a client builds from a token. *)
Definition bearer (token : string) : string := "Bearer " ++ token.

Definition blank_free (s : string) : bool :=
  forallb (fun c => negb (Ascii.eqb c " ")) (list_ascii_of_string s).

(** What [protect] does with the request: it calls [next()] with
    [req.user] set, or it answers 401. *)
Inductive effect : Type :=
| Next (user : User.t)
| Status401 (message : string).

(** What the socket middleware does with the handshake: it sets
    [socket.userId] and [socket.user], or it refuses the connection. *)
Inductive admission : Type :=
| Admit (userId : string) (user : User.t)
| Reject (message : string).

Section Gates.

(** [jwt.verify(token, JWT_SECRET)] on a string: [None] when it throws,
    otherwise the [id] of the decoded payload, for payloads as
    [generateToken] signs them. *)
Variable verify : string -> option string.
Variable db : DB.

(** [protect]; [authorization] is [req.headers.authorization]. Without a
    second piece in the header the token is [undefined], which
    [jwt.verify] rejects. After [next()] the function goes on to its last
    test of the token. *)
Definition protect (authorization : option string) : list effect :=
  match authorization with
  | Some h =>
      if negb (String.eqb h "") && String.prefix "Bearer" h then
        match nth_error (split_blank h) 1 with
        | None => [Status401 "Not authorized, token failed"]
        | Some token =>
            match verify token with
            | None => [Status401 "Not authorized, token failed"]
            | Some id =>
                match User_findById db id with
                | None => [Status401 "User not found"]
                | Some user =>
                    if negb (User.isActive user)
                    then [Status401 "User account is deactivated"]
                    else Next user
                         :: (if String.eqb token ""
                             then [Status401 "Not authorized, no token"]
                             else [])
                end
            end
        end
      else [Status401 "Not authorized, no token"]
  | None => [Status401 "Not authorized, no token"]
  end.

(** The middleware of [setupMiddleware]; [auth_token] is
    [socket.handshake.auth.token] and [authorization] is
    [socket.handshake.headers.authorization]. A token that is no string
    has no [replace] method. *)
Definition socket_auth (auth_token : value) (authorization : option string)
    : admission :=
  let token :=
    if truthy auth_token then auth_token
    else match authorization with
         | Some h => VStr h
         | None => VUndefined
         end in
  if negb (truthy token) then Reject "Authentication error"
  else
    match token with
    | VStr s =>
        match verify (remove_first "Bearer " s) with
        | None => Reject "Authentication error"
        | Some id =>
            match User_findById db id with
            | None => Reject "User not found or inactive"
            | Some user =>
                if negb (User.isActive user)
                then Reject "User not found or inactive"
                else Admit (User._id user) user
            end
        end
    | _ => Reject "Authentication error"
    end.

(** The token is verified and names an active user of the collection. *)
Definition identifies (token : string) (user : User.t) : Prop :=
  exists id,
    verify token = Some id
    /\ User_findById db id = Some user
    /\ User.isActive user = true.

End Gates.

(** A token service for the sample data: the token [t-u1] names [u1], and
    so on; nothing else verifies. *)
Definition sample_verify (token : string) : option string :=
  if String.prefix "t-" token && blank_free token
  then Some (drop_chars 2 token)
  else None.

End Auth.

(** * Properties *)

Section SkillScore.
Import JS.
Local Open Scope Q_scope.

Example toLowerCase_VPN : toLowerCase "VPN Setup" = "vpn setup".
Proof. reflexivity. Qed.

Example includes_it : str_includes "it support" "it" = true.
Proof. reflexivity. Qed.

Example includes_none : str_includes "finance" "it" = false.
Proof. reflexivity. Qed.

Example netta_matches_network :
  User.matchingSkills Sample.netta ["network"; "vpn"] = ["network"].
Proof. reflexivity. Qed.

Lemma arr_includes_In (l : list string) (x : string) :
  arr_includes l x = true <-> In x l.
Proof.
  unfold arr_includes. rewrite existsb_exists. split.
  - intros (y & Hy & Heq). apply String.eqb_eq in Heq. now subst.
  - intros H. exists x. split; [assumption | apply String.eqb_refl].
Qed.

Lemma includes_skill_matches (u : User.t) (r : string) :
  arr_includes (User.userSkillNames u) (toLowerCase r) = true <-> Spec.skill_matches u r.
Proof.
  rewrite arr_includes_In. unfold User.userSkillNames, Spec.skill_matches.
  rewrite in_map_iff, Exists_exists. split.
  - intros (sk & Heq & Hin). exists sk. split; [now apply list_elem_of_In | assumption].
  - intros (sk & Hin & Heq). exists sk. split; [assumption | now apply list_elem_of_In].
Qed.

Lemma matchingSkills_count (u : User.t) (req : list string) :
  length (User.matchingSkills u req) = Spec.matched_count u req.
Proof.
  unfold User.matchingSkills, Spec.matched_count.
  induction req as [|r req IH]; [reflexivity|].
  cbn [List.filter]. rewrite filter_cons.
  destruct (arr_includes (User.userSkillNames u) (toLowerCase r)) eqn:E.
  - apply includes_skill_matches in E. rewrite decide_True by assumption.
    cbn [length]. now rewrite IH.
  - rewrite decide_False; [assumption|].
    intros H. apply includes_skill_matches in H. congruence.
Qed.

Lemma matched_count_le (u : User.t) (req : list string) :
  (Spec.matched_count u req <= length req)%nat.
Proof. unfold Spec.matched_count. apply length_filter. Qed.

Lemma ratio_le (m m' n : nat) :
  (0 < n)%nat -> (m <= m')%nat -> Spec.ratio m n <= Spec.ratio m' n.
Proof.
  intros Hn Hm. unfold Spec.ratio.
  apply Qmult_le_compat_r.
  - rewrite <- Zle_Qle. lia.
  - apply Qinv_le_0_compat. change 0 with (inject_Z 0). rewrite <- Zle_Qle. lia.
Qed.

Lemma ratio_bounds (m n : nat) :
  (0 < n)%nat -> (m <= n)%nat -> 0 <= Spec.ratio m n <= 1.
Proof.
  intros Hn Hm. split.
  - assert (H : Spec.ratio 0 n <= Spec.ratio m n) by (apply ratio_le; lia).
    assert (H0 : Spec.ratio 0 n == 0) by (unfold Spec.ratio; simpl; apply Qmult_0_l).
    now rewrite H0 in H.
  - assert (H : Spec.ratio m n <= Spec.ratio n n) by (apply ratio_le; lia).
    assert (H1 : Spec.ratio n n == 1).
    { unfold Spec.ratio. apply Qmult_inv_r.
      change 0 with (inject_Z 0). rewrite inject_Z_injective. lia. }
    now rewrite H1 in H.
Qed.

Lemma skillScore_ratio (u : User.t) (req : list string) :
  req <> [] ->
  User.skillScore u req = Num (Spec.ratio (Spec.matched_count u req) (length req)).
Proof.
  intros Hne. unfold User.skillScore. rewrite matchingSkills_count.
  destruct req as [|r req]; [congruence|]. reflexivity.
Qed.

End SkillScore.

(** C3. For a non-empty list of required skills, the skill sub-score is the
    number of required skills that match a skill name of the candidate up to
    letter case, divided by the number of required skills; it lies between 0
    and 1; a candidate that matches at least as many required skills scores
    at least as much; and a candidate whose only skill is [network] scores
    one half against the required skills [network] and [vpn]. *)
Theorem skill_score_matched_ratio (u : User.t) (req : list string) :
  req <> [] ->
  User.skillScore u req
    = JS.Num (Spec.ratio (Spec.matched_count u req) (length req))
  /\ JS.jsnum_le (JS.Num 0) (User.skillScore u req)
  /\ JS.jsnum_le (User.skillScore u req) (JS.Num 1)
  /\ (forall m m' : nat,
        (m <= m')%nat ->
        (Spec.ratio m (length req) <= Spec.ratio m' (length req))%Q)
  /\ (forall u' : User.t,
        (Spec.matched_count u req <= Spec.matched_count u' req)%nat ->
        JS.jsnum_le (User.skillScore u req) (User.skillScore u' req))
  /\ (forall c : User.t,
        map User.name (User.skills c) = ["network"] ->
        User.skillScore c ["network"; "vpn"] = JS.Num (1 # 2)).
Proof.
  intros Hne.
  assert (Hlen : (0 < length req)%nat) by (destruct req; [congruence | simpl; lia]).
  pose proof (ratio_bounds _ _ Hlen (matched_count_le u req)) as [Hlo Hhi].
  rewrite (skillScore_ratio u req Hne).
  repeat split; try assumption.
  - intros m m' Hle. now apply ratio_le.
  - intros u' Hle. rewrite (skillScore_ratio u' req Hne). simpl.
    now apply ratio_le.
  - intros c Hc. unfold User.skillScore, User.matchingSkills, User.userSkillNames.
    rewrite <- (map_map User.name JS.toLowerCase), Hc. reflexivity.
Qed.

Lemma skill_score_matched_ratio_witness :
  ["network"; "vpn"] <> []
  /\ User.skillScore Sample.netta ["network"; "vpn"]
     = JS.Num (Spec.ratio (Spec.matched_count Sample.netta ["network"; "vpn"]) 2).
Proof.
  assert (Hne : ["network"; "vpn"] <> []) by discriminate.
  split; [exact Hne|].
  exact (proj1 (skill_score_matched_ratio Sample.netta ["network"; "vpn"] Hne)).
Defined.

Section HelperScore.
Import JS.
Local Open Scope Q_scope.

Lemma append_cons (c : ascii) (s t : string) :
  (String c s ++ t)%string = String c (s ++ t)%string.
Proof. reflexivity. Qed.

Lemma append_nil (t : string) : (EmptyString ++ t)%string = t.
Proof. reflexivity. Qed.

Lemma prefix_app (sub s : string) :
  String.prefix sub s = true <-> exists post, s = (sub ++ post)%string.
Proof.
  revert s. induction sub as [|c sub IH]; intros s; destruct s as [|d s]; simpl.
  - split; [intros _; now exists EmptyString | reflexivity].
  - split; [intros _; now exists (String d s) | reflexivity].
  - split; [discriminate | intros (post & H); rewrite append_cons in H; discriminate].
  - destruct (Ascii.ascii_dec c d) as [->|Hne].
    + rewrite IH. split; intros (post & H); exists post;
        rewrite append_cons in *; congruence.
    + split; [discriminate|].
      intros (post & H). rewrite append_cons in H. congruence.
Qed.

Lemma str_includes_eq (s sub : string) :
  str_includes s sub
  = if String.prefix sub s then true
    else match s with
         | EmptyString => false
         | String _ r => str_includes r sub
         end.
Proof. destruct s; reflexivity. Qed.

Lemma str_includes_contains (s sub : string) :
  str_includes s sub = true <-> Spec.contains s sub.
Proof.
  unfold Spec.contains. induction s as [|c s IH]; rewrite str_includes_eq.
  - destruct (String.prefix sub "") eqn:E.
    + apply prefix_app in E as (post & E).
      split; [intros _; now exists EmptyString, post | reflexivity].
    + split; [discriminate|]. intros (pre & post & H).
      destruct pre; [|rewrite append_cons in H; discriminate].
      rewrite append_nil in H.
      assert (String.prefix sub "" = true) by (apply prefix_app; eauto).
      congruence.
  - destruct (String.prefix sub (String c s)) eqn:E.
    + apply prefix_app in E as (post & E).
      split; [intros _; now exists EmptyString, post | reflexivity].
    + rewrite IH. split.
      * intros (pre & post & H). exists (String c pre), post.
        rewrite append_cons. now rewrite H.
      * intros (pre & post & H). destruct pre as [|d pre].
        -- rewrite append_nil in H.
           assert (String.prefix sub (String c s) = true) by (apply prefix_app; eauto).
           congruence.
        -- rewrite append_cons in H. injection H as _ H. eauto.
Qed.

Lemma Math_min_Qmin (a b : Q) : Math_min a b == Qmin a b.
Proof.
  unfold Math_min. destruct (Qle_bool a b) eqn:E.
  - apply Qle_bool_iff in E. symmetry. now apply Q.min_l.
  - assert (H : ~ a <= b) by (rewrite <- Qle_bool_iff; congruence).
    symmetry. apply Q.min_r. lra.
Qed.

Lemma Math_max_Qmax (a b : Q) : Math_max a b == Qmax a b.
Proof.
  unfold Math_max. destruct (Qle_bool a b) eqn:E.
  - apply Qle_bool_iff in E. symmetry. now apply Q.max_r.
  - assert (H : ~ a <= b) by (rewrite <- Qle_bool_iff; congruence).
    symmetry. apply Q.max_l. lra.
Qed.

Lemma historyScore_spec (u : User.t) : User.historyScore u == Spec.history u.
Proof.
  unfold User.historyScore, Spec.history, User.pointsScore, User.resolvedScore,
    User.ratingScore.
  rewrite !Math_min_Qmin. ring.
Qed.

Lemma recencyScore_spec (now : Z) (u : User.t) :
  User.recencyScore now u == Spec.recency now u.
Proof.
  unfold User.recencyScore, Spec.recency, User.daysSinceLastActive.
  rewrite Math_max_Qmax. reflexivity.
Qed.

Lemma availabilityScore_spec (u : User.t) :
  Spec.availability_value (User.availability u) (User.availabilityScore u).
Proof.
  unfold User.availabilityScore.
  destruct (String.eqb (User.availability u) "available") eqn:E1.
  - apply String.eqb_eq in E1 as ->. constructor.
  - destruct (String.eqb (User.availability u) "busy") eqn:E2.
    + apply String.eqb_eq in E2 as ->. constructor.
    + apply String.eqb_neq in E1, E2. now constructor.
Qed.

Lemma prop_In {A} (o : list (string * A)) (k : string) (v : A) :
  prop o k = Some v -> In k (map fst o).
Proof.
  induction o as [|[k' v'] o IH]; [discriminate|]. simpl.
  destruct (String.eqb k k') eqn:E.
  - apply String.eqb_eq in E. now left.
  - intros H. right. now apply IH.
Qed.

Lemma inherits_names (k : string) :
  inherits k -> In k (map fst Object_prototype).
Proof. intros [i Hi]. now apply prop_In in Hi. Qed.

(** No key of the two tables is a property of [Object.prototype]. *)
Lemma own_category_not_inherited (category : string) (l : list string) :
  prop User.categoryToDepartments category = Some l -> ~ inherits category.
Proof.
  intros H Hi. apply prop_In in H. apply inherits_names in Hi. simpl in H, Hi.
  repeat (destruct H as [<-|H];
          [repeat (destruct Hi as [Hi|Hi]; [discriminate Hi|]); destruct Hi|]).
  destruct H.
Qed.

Lemma own_priority_not_inherited (priority : string) (m : Q) :
  prop User.priorityMultiplierMap priority = Some m -> ~ inherits priority.
Proof.
  intros H Hi. apply prop_In in H. apply inherits_names in Hi. simpl in H, Hi.
  repeat (destruct H as [<-|H];
          [repeat (destruct Hi as [Hi|Hi]; [discriminate Hi|]); destruct Hi|]).
  destruct H.
Qed.

Lemma read_own {A} (o : list (string * A)) (k : string) (v : A) :
  prop o k = Some v -> read o k = Own v.
Proof. intros H. unfold read. now rewrite H. Qed.

Lemma read_not_inherited {A} (o : list (string * A)) (k : string) :
  ~ inherits k ->
  read o k = match prop o k with Some v => Own v | None => Undefined end.
Proof.
  intros H. unfold read. destruct (prop o k); [reflexivity|].
  destruct (prop Object_prototype k) as [i|] eqn:E; [|reflexivity].
  destruct H. now exists i.
Qed.

Lemma read_inherited {A} (o : list (string * A)) (k : string) :
  prop o k = None -> inherits k -> exists i, read o k = Inherited i.
Proof. intros Ho [i Hi]. exists i. unfold read. now rewrite Ho, Hi. Qed.

Lemma keyword_of_domainList (category kw : string) :
  Spec.keyword_of category kw
  <-> exists l, User.domainList category = Own l /\ In kw l.
Proof.
  unfold Spec.keyword_of, User.domainList, read.
  destruct (prop User.categoryToDepartments category) as [l|].
  - split; intros (kws & [= <-] & H); eauto.
  - split; [intros (kws & [=] & _)|].
    destruct (prop Object_prototype category); intros (l & [= <-] & []).
Qed.

(** Whenever the domain score is computed, it is the one of the
    specification. *)
Lemma domainScore_spec (u : User.t) (category : string) (domain : Q) :
  User.domainScore u category = Some domain ->
  Spec.domain_value u category domain.
Proof.
  unfold User.domainScore.
  destruct (User.domainList category) as [[|kw0 l]|[[|n]|]|] eqn:E;
    try discriminate.
  - intros [= <-]. apply Spec.dv_no_keywords. intros kw H.
    apply keyword_of_domainList in H as (l & Hl & Hin). rewrite E in Hl.
    injection Hl as <-. destruct Hin.
  - destruct (existsb (fun d => str_includes (User.dept u) d) (kw0 :: l)) eqn:Ex;
      intros [= <-].
    + apply existsb_exists in Ex as (kw & Hin & Hinc).
      apply (Spec.dv_relevant u category kw).
      * apply keyword_of_domainList. eauto.
      * now apply str_includes_contains.
    + apply (Spec.dv_irrelevant u category kw0).
      * apply keyword_of_domainList. exists (kw0 :: l). split; [exact E | now left].
      * intros kw Hkw Hc. apply keyword_of_domainList in Hkw as (l' & Hl' & Hin).
        rewrite E in Hl'. injection Hl' as <-.
        apply str_includes_contains in Hc.
        assert (existsb (fun d => str_includes (User.dept u) d) (kw0 :: l) = true)
          by (apply existsb_exists; eauto).
        congruence.
  - intros [= <-]. apply Spec.dv_no_keywords. intros kw H.
    apply keyword_of_domainList in H as (l & Hl & _). rewrite E in Hl. discriminate.
  - intros [= <-]. apply Spec.dv_no_keywords. intros kw H.
    apply keyword_of_domainList in H as (l & Hl & _). rewrite E in Hl. discriminate.
Qed.

(** The domain score is computed for every category that is no property of
    [Object.prototype]. *)
Lemma domainScore_returns (u : User.t) (category : string) :
  ~ inherits category -> exists domain, User.domainScore u category = Some domain.
Proof.
  intros H. unfold User.domainScore, User.domainList.
  rewrite (read_not_inherited _ _ H).
  destruct (prop User.categoryToDepartments category) as [[|kw l]|]; eauto.
Qed.

(** Whether the domain score is computed depends on the category only. *)
Lemma domainScore_throws (u u' : User.t) (category : string) :
  User.domainScore u category = None -> User.domainScore u' category = None.
Proof.
  unfold User.domainScore.
  destruct (User.domainList category) as [[|kw0 l]|[[|n]|]|]; try discriminate;
    reflexivity.
Qed.

Lemma priority_factor_unknown (priority : string) :
  prop User.priorityMultiplierMap priority = None ->
  Spec.priority_factor priority 1.
Proof.
  unfold User.priorityMultiplierMap. cbn [prop].
  destruct (String.eqb priority "urgent") eqn:E1; [discriminate|].
  destruct (String.eqb priority "high") eqn:E2; [discriminate|].
  destruct (String.eqb priority "medium") eqn:E3; [discriminate|].
  destruct (String.eqb priority "low") eqn:E4; [discriminate|].
  intros _. apply String.eqb_neq in E1, E2, E3, E4.
  apply Spec.pf_unknown. simpl. intuition congruence.
Qed.

(** Whenever the multiplier is a number, it is the priority factor of the
    specification. *)
Lemma priorityMultiplier_spec (priority : string) (factor : Q) :
  User.priorityMultiplier priority = Num factor ->
  Spec.priority_factor priority factor.
Proof.
  unfold User.priorityMultiplier, read.
  destruct (prop User.priorityMultiplierMap priority) as [m|] eqn:E.
  - revert E. unfold User.priorityMultiplierMap. cbn [prop].
    destruct (String.eqb priority "urgent") eqn:E1;
      [apply String.eqb_eq in E1 as ->; intros [= <-] [= <-]; constructor|].
    destruct (String.eqb priority "high") eqn:E2;
      [apply String.eqb_eq in E2 as ->; intros [= <-] [= <-]; constructor|].
    destruct (String.eqb priority "medium") eqn:E3;
      [apply String.eqb_eq in E3 as ->; intros [= <-] [= <-]; constructor|].
    destruct (String.eqb priority "low") eqn:E4;
      [apply String.eqb_eq in E4 as ->; intros [= <-] [= <-]; constructor|].
    discriminate.
  - destruct (prop Object_prototype priority); [discriminate|].
    intros [= <-]. now apply priority_factor_unknown.
Qed.

Lemma priorityMultiplier_returns (priority : string) :
  ~ inherits priority -> exists factor, User.priorityMultiplier priority = Num factor.
Proof.
  intros H. unfold User.priorityMultiplier. rewrite (read_not_inherited _ _ H).
  destruct (prop User.priorityMultiplierMap priority); eauto.
Qed.

(** An inherited name is no key of the table: the specification takes it
    for an unknown priority, the code reads a function or an object. *)
Lemma priorityMultiplier_inherited (priority : string) :
  inherits priority ->
  User.priorityMultiplier priority = NaN /\ Spec.priority_factor priority 1.
Proof.
  intros H.
  assert (Ho : prop User.priorityMultiplierMap priority = None).
  { destruct (prop User.priorityMultiplierMap priority) as [m|] eqn:E; [|reflexivity].
    now destruct (own_priority_not_inherited priority m E). }
  split; [|now apply priority_factor_unknown].
  unfold User.priorityMultiplier.
  destruct (read_inherited User.priorityMultiplierMap priority Ho H) as [i ->].
  reflexivity.
Qed.

(** With an inherited name for the priority the product is [NaN], when
    the domain score is computed at all. *)
Lemma calculateHelperScore_inherited_priority
    (now : Z) (u : User.t) (req : list string) (category priority : string) :
  inherits priority ->
  (~ inherits category ->
   User.calculateHelperScore now u req category priority = Some NaN)
  /\ (forall s, User.calculateHelperScore now u req category priority = Some s ->
                s = NaN).
Proof.
  intros Hp. destruct (priorityMultiplier_inherited priority Hp) as [Hn _].
  unfold User.calculateHelperScore. rewrite Hn. split.
  - intros Hc. destruct (domainScore_returns u category Hc) as [domain ->].
    now destruct (User.skillScore u req).
  - intros s. destruct (User.domainScore u category); [|discriminate].
    intros [= <-]. now destruct (User.skillScore u req).
Qed.

(** The score as a number, where its parts are numbers. *)
Lemma calculateHelperScore_number
    (now : Z) (u : User.t) (req : list string) (category priority : string)
    (domain factor : Q) :
  req <> [] ->
  User.domainScore u category = Some domain ->
  User.priorityMultiplier priority = Num factor ->
  User.calculateHelperScore now u req category priority
  = Some (Num ((Spec.ratio (Spec.matched_count u req) (length req) * User.skillWeight
                + User.historyScore u * User.historyWeight
                + domain * User.domainWeight
                + User.engagementScore now u * User.engagementWeight) * factor)).
Proof.
  intros Hne Hd Hf. unfold User.calculateHelperScore.
  now rewrite Hd, Hf, (skillScore_ratio u req Hne).
Qed.

Lemma calculateHelperScore_spec
    (now : Z) (u : User.t) (req : list string) (category priority : string)
    (domain factor : Q) :
  req <> [] ->
  User.domainScore u category = Some domain ->
  User.priorityMultiplier priority = Num factor ->
  exists s,
    User.calculateHelperScore now u req category priority = Some s
    /\ jsnum_eq s
         (Num (Spec.weighted (Spec.ratio (Spec.matched_count u req) (length req))
                 (Spec.history u) domain
                 ((Spec.recency now u + User.availabilityScore u) / 2) factor)).
Proof.
  intros Hne Hd Hf. eexists. split.
  - exact (calculateHelperScore_number now u req category priority domain factor
             Hne Hd Hf).
  - unfold jsnum_eq, Spec.weighted, User.engagementScore,
      User.skillWeight, User.historyWeight, User.domainWeight, User.engagementWeight.
    rewrite historyScore_spec, recencyScore_spec. ring.
Qed.

(** With the default category and priority the method returns. *)
Lemma calculateHelperScore_defaults (now : Z) (u : User.t) (req : list string) :
  User.calculateHelperScore now u req "other" "medium"
  = Some (match User.skillScore u req with
          | Num skill =>
              Num ((skill * User.skillWeight + User.historyScore u * User.historyWeight
                    + (2 # 10) * User.domainWeight
                    + User.engagementScore now u * User.engagementWeight) * 1)
          | NaN => NaN
          end).
Proof. reflexivity. Qed.

End HelperScore.

(** C4. The weighted formula, where the code computes it and where it does
    not. For every candidate and non-empty list of required skills: at a
    category and a priority that are no properties of [Object.prototype] the
    helper score equals (0.35·skill + 0.30·history + 0.20·domain +
    0.15·engagement) times the priority factor, with the parts as the
    specification defines them. At a priority that names such a property,
    which the specification takes for an unknown priority with the factor 1,
    the table lookup gives the inherited function or object instead of the
    default, and the score is [NaN]. At the category [constructor], for
    which the specification gives the domain value 0.2, the method throws. *)
Theorem helper_score_weighted_formula
    (now : Z) (u : User.t) (req : list string) (category priority : string) :
  req <> [] ->
  exists skill avail : Q,
    User.skillScore u req = JS.Num skill
    /\ Spec.availability_value (User.availability u) avail
    /\ (~ JS.inherits category -> ~ JS.inherits priority ->
        exists (domain factor : Q) (s : JS.jsnum),
          Spec.domain_value u category domain
          /\ Spec.priority_factor priority factor
          /\ User.calculateHelperScore now u req category priority = Some s
          /\ JS.jsnum_eq s
               (JS.Num (Spec.weighted skill (Spec.history u) domain
                          ((Spec.recency now u + avail) / 2) factor)))
    /\ (JS.inherits priority ->
        Spec.priority_factor priority 1
        /\ (~ JS.inherits category ->
            User.calculateHelperScore now u req category priority = Some JS.NaN)
        /\ forall s, User.calculateHelperScore now u req category priority = Some s ->
                     s = JS.NaN)
    /\ Spec.domain_value u "constructor" (2 # 10)
    /\ User.calculateHelperScore now u req "constructor" priority = None.
Proof.
  intros Hne.
  exists (Spec.ratio (Spec.matched_count u req) (length req)),
         (User.availabilityScore u).
  split; [now apply skillScore_ratio|].
  split; [apply availabilityScore_spec|].
  split; [|split; [|split]].
  - intros Hc Hp.
    destruct (domainScore_returns u category Hc) as [domain Hd].
    destruct (priorityMultiplier_returns priority Hp) as [factor Hf].
    destruct (calculateHelperScore_spec now u req category priority domain factor
                Hne Hd Hf) as (s & Hs & Heq).
    exists domain, factor, s.
    split; [now apply domainScore_spec|].
    split; [now apply priorityMultiplier_spec|]. now split.
  - intros Hp. destruct (priorityMultiplier_inherited priority Hp) as [_ Hf].
    split; [exact Hf|].
    exact (calculateHelperScore_inherited_priority now u req category priority Hp).
  - apply Spec.dv_no_keywords. intros kw (kws & Hk & _). discriminate Hk.
  - reflexivity.
Qed.

Lemma helper_score_weighted_formula_witness :
  Spec.priority_factor "constructor" 1
  /\ User.calculateHelperScore (3 * Sample.day) Sample.netta
       ["network"; "vpn"] "network" "constructor" = Some JS.NaN
  /\ Spec.domain_value Sample.netta "constructor" (2 # 10)
  /\ User.calculateHelperScore (3 * Sample.day) Sample.netta
       ["network"; "vpn"] "constructor" "constructor" = None.
Proof.
  assert (Hne : ["network"; "vpn"] <> []) by discriminate.
  assert (Hp : JS.inherits "constructor") by (eexists; reflexivity).
  assert (Hc : ~ JS.inherits "network") by (intros [x Hx]; discriminate Hx).
  destruct (helper_score_weighted_formula (3 * Sample.day) Sample.netta
              ["network"; "vpn"] "network" "constructor" Hne)
    as (skill & avail & _ & _ & _ & Hin & Hd & Hthrow).
  destruct (Hin Hp) as (Hf & Hnan & _).
  split; [exact Hf|]. split; [exact (Hnan Hc)|]. split; [exact Hd | exact Hthrow].
Defined.

Section ScoreBounds.
Import JS.
Local Open Scope Q_scope.

Lemma Math_min_unit (x : Q) : 0 <= x -> 0 <= Math_min x 1 <= 1.
Proof.
  intros Hx. unfold Math_min. destruct (Qle_bool x 1) eqn:E.
  - apply Qle_bool_iff in E. lra.
  - lra.
Qed.

Lemma Math_max_unit (x : Q) : x <= 1 -> 0 <= Math_max 0 x <= 1.
Proof.
  intros Hx. unfold Math_max. destruct (Qle_bool 0 x) eqn:E.
  - apply Qle_bool_iff in E. lra.
  - lra.
Qed.

Lemma Qdiv_range (x c hi : Q) :
  0 < c -> 0 <= x -> x <= hi * c -> 0 <= x / c <= hi.
Proof.
  intros Hc Hx Hhi. split.
  - apply Qle_shift_div_l; [assumption | lra].
  - apply Qle_shift_div_r; assumption.
Qed.

Lemma Qdiv_nonneg (x c : Q) : 0 < c -> 0 <= x -> 0 <= x / c.
Proof. intros Hc Hx. apply Qle_shift_div_l; [assumption | lra]. Qed.

Lemma historyScore_unit (u : User.t) :
  0 <= User.points (User.contributions u) ->
  0 <= User.issuesResolved (User.contributions u) ->
  0 <= User.average (User.rating u) <= 5 ->
  0 <= User.historyScore u <= 1.
Proof.
  intros Hp Hr Ha. unfold User.historyScore, User.pointsScore, User.resolvedScore,
    User.ratingScore.
  assert (H1 : 0 <= Math_min (User.points (User.contributions u) / 100) 1 <= 1)
    by (apply Math_min_unit, Qdiv_nonneg; lra).
  assert (H2 : 0 <= Math_min (User.issuesResolved (User.contributions u) / 10) 1 <= 1)
    by (apply Math_min_unit, Qdiv_nonneg; lra).
  assert (H3 : 0 <= User.average (User.rating u) / 5 <= 1)
    by (apply Qdiv_range; lra).
  lra.
Qed.

Lemma daysSinceLastActive_nonneg (now : Z) (u : User.t) :
  (User.lastActive u <= now)%Z -> 0 <= User.daysSinceLastActive now u.
Proof.
  intros H. unfold User.daysSinceLastActive.
  apply Qmult_le_0_compat.
  - change 0 with (inject_Z 0). rewrite <- Zle_Qle. lia.
  - apply Qinv_le_0_compat. discriminate.
Qed.

Lemma availabilityScore_unit (u : User.t) : 0 <= User.availabilityScore u <= 1.
Proof.
  unfold User.availabilityScore.
  destruct (String.eqb _ "available"); [lra|].
  destruct (String.eqb _ "busy"); lra.
Qed.

Lemma engagementScore_unit (now : Z) (u : User.t) :
  (User.lastActive u <= now)%Z -> 0 <= User.engagementScore now u <= 1.
Proof.
  intros H. unfold User.engagementScore, User.recencyScore.
  pose proof (daysSinceLastActive_nonneg now u H) as Hd.
  assert (Hd30 : 0 <= User.daysSinceLastActive now u / 30)
    by (apply Qdiv_nonneg; lra).
  assert (Hr : 0 <= Math_max 0 (1 - User.daysSinceLastActive now u / 30) <= 1)
    by (apply Math_max_unit; lra).
  pose proof (availabilityScore_unit u) as Hav.
  apply Qdiv_range; lra.
Qed.

Lemma domainScore_unit (u : User.t) (category : string) (domain : Q) :
  User.domainScore u category = Some domain -> 0 <= domain <= 1.
Proof.
  unfold User.domainScore.
  destruct (User.domainList category) as [[|kw0 l]|[[|n]|]|]; try discriminate;
    try (intros [= <-]; lra).
  destruct (existsb _ _); intros [= <-]; lra.
Qed.

Lemma priorityMultiplier_range (priority : string) (factor : Q) :
  User.priorityMultiplier priority = Num factor -> 0 <= factor <= 12 # 10.
Proof.
  intros H. destruct (priorityMultiplier_spec priority factor H); lra.
Qed.

Lemma calculateHelperScore_range
    (now : Z) (u : User.t) (req : list string) (category priority : string)
    (domain factor : Q) :
  req <> [] ->
  0 <= User.points (User.contributions u) ->
  0 <= User.issuesResolved (User.contributions u) ->
  0 <= User.average (User.rating u) <= 5 ->
  (User.lastActive u <= now)%Z ->
  User.domainScore u category = Some domain ->
  User.priorityMultiplier priority = Num factor ->
  exists q,
    User.calculateHelperScore now u req category priority = Some (Num q)
    /\ 0 <= q <= 12 # 10.
Proof.
  intros Hne Hp Hr Ha Hl Hdom Hfac.
  assert (Hlen : (0 < length req)%nat) by (destruct req; [congruence | simpl; lia]).
  pose proof (ratio_bounds _ _ Hlen (matched_count_le u req)) as Hs.
  pose proof (historyScore_unit u Hp Hr Ha) as Hh.
  pose proof (engagementScore_unit now u Hl) as He.
  pose proof (domainScore_unit u category domain Hdom) as Hd.
  pose proof (priorityMultiplier_range priority factor Hfac) as Hm.
  eexists. split;
    [exact (calculateHelperScore_number now u req category priority domain factor
              Hne Hdom Hfac)|].
  unfold User.skillWeight, User.historyWeight, User.domainWeight,
    User.engagementWeight.
  set (s := Spec.ratio _ _) in *. set (h := User.historyScore u) in *.
  set (e := User.engagementScore now u) in *.
  set (b := (s * (35 # 100) + h * (30 # 100) + domain * (20 # 100) + e * (15 # 100))%Q).
  assert (Hb : (0 <= b <= 1)%Q) by (unfold b; lra).
  split.
  - apply Qmult_le_0_compat; lra.
  - apply Qle_trans with (1 * factor)%Q; [|lra].
    apply Qmult_le_compat_r; lra.
Qed.

End ScoreBounds.

(** C5. The range of the helper score, where the code keeps it and where
    it does not. For a candidate with well-formed inputs (non-empty required
    skills, points and resolved issues not negative, average rating between 0
    and 5, last activity not in the future): at a category and a priority
    that are no properties of [Object.prototype] the helper score is at
    least 0 and at most 1.2. At a priority that names such a property the
    score is [NaN], which lies in no range; at the category [constructor]
    the method throws and gives no score. *)
Theorem helper_score_range
    (now : Z) (u : User.t) (req : list string) (category priority : string) :
  req <> [] ->
  (0 <= User.points (User.contributions u))%Q ->
  (0 <= User.issuesResolved (User.contributions u))%Q ->
  (0 <= User.average (User.rating u) <= 5)%Q ->
  (User.lastActive u <= now)%Z ->
  (~ JS.inherits category -> ~ JS.inherits priority ->
   exists s,
     User.calculateHelperScore now u req category priority = Some s
     /\ JS.jsnum_le (JS.Num 0) s /\ JS.jsnum_le s (JS.Num (12 # 10)))
  /\ (JS.inherits priority ->
      (~ JS.inherits category ->
       User.calculateHelperScore now u req category priority = Some JS.NaN)
      /\ forall s, User.calculateHelperScore now u req category priority = Some s ->
                   s = JS.NaN /\ ~ JS.jsnum_le (JS.Num 0) s
                   /\ ~ JS.jsnum_le s (JS.Num (12 # 10)))
  /\ User.calculateHelperScore now u req "constructor" priority = None.
Proof.
  intros Hne Hp Hr Ha Hl. split; [|split].
  - intros Hc Hpr.
    destruct (domainScore_returns u category Hc) as [domain Hd].
    destruct (priorityMultiplier_returns priority Hpr) as [factor Hf].
    destruct (calculateHelperScore_range now u req category priority domain factor
                Hne Hp Hr Ha Hl Hd Hf) as (q & Hq & Hlo & Hhi).
    exists (JS.Num q). now repeat split.
  - intros Hpr.
    destruct (calculateHelperScore_inherited_priority now u req category priority Hpr)
      as [Hnan Hall].
    split; [exact Hnan|]. intros s Hs. rewrite (Hall s Hs). simpl. tauto.
  - reflexivity.
Qed.

Lemma helper_score_range_witness :
  User.calculateHelperScore (3 * Sample.day) Sample.netta
    ["network"; "vpn"] "network" "constructor" = Some JS.NaN
  /\ ~ JS.jsnum_le (JS.Num 0) JS.NaN
  /\ ~ JS.jsnum_le JS.NaN (JS.Num (12 # 10))
  /\ User.calculateHelperScore (3 * Sample.day) Sample.netta
       ["network"; "vpn"] "constructor" "constructor" = None.
Proof.
  assert (Hne : ["network"; "vpn"] <> []) by discriminate.
  assert (Hpts : (0 <= User.points (User.contributions Sample.netta))%Q)
    by (vm_compute; discriminate).
  assert (Hres : (0 <= User.issuesResolved (User.contributions Sample.netta))%Q)
    by (vm_compute; discriminate).
  assert (Hrat : (0 <= User.average (User.rating Sample.netta) <= 5)%Q)
    by (split; vm_compute; discriminate).
  assert (Hact : (User.lastActive Sample.netta <= 3 * Sample.day)%Z)
    by (vm_compute; discriminate).
  assert (Hp : JS.inherits "constructor") by (eexists; reflexivity).
  assert (Hc : ~ JS.inherits "network") by (intros [x Hx]; discriminate Hx).
  destruct (helper_score_range (3 * Sample.day) Sample.netta
              ["network"; "vpn"] "network" "constructor" Hne Hpts Hres Hrat Hact)
    as (_ & Hin & Hthrow).
  destruct (Hin Hp) as [Hnan Hall].
  destruct (Hall JS.NaN (Hnan Hc)) as (_ & Hlo & Hhi).
  split; [exact (Hnan Hc)|]. split; [exact Hlo|]. split; [exact Hhi | exact Hthrow].
Defined.

Section Suggestions.
Import JS IssueController Spec.
Local Open Scope Q_scope.

Lemma positive_compareFn (x y : Scored) :
  is_number x -> is_number y ->
  if positive (compareFn x y) then descending y x else descending x y.
Proof.
  intros [qx Hx] [qy Hy]. unfold compareFn, descending. rewrite Hx, Hy. simpl.
  destruct (Qle_bool (qy - qx) 0) eqn:E; simpl.
  - apply Qle_bool_iff in E. lra.
  - assert (H : ~ qy - qx <= 0) by (rewrite <- Qle_bool_iff; congruence). lra.
Qed.

Lemma sort_insert_Permutation {A} (cmp : A -> A -> jsnum) (x : A) (l : list A) :
  Permutation (sort_insert cmp x l) (x :: l).
Proof.
  induction l as [|y l IH]; simpl; [reflexivity|].
  destruct (positive (cmp x y)); [|reflexivity].
  rewrite IH. apply perm_swap.
Qed.

Lemma Array_sort_Permutation {A} (cmp : A -> A -> jsnum) (l : list A) :
  Permutation (Array_sort cmp l) l.
Proof.
  induction l as [|x l IH]; simpl; [reflexivity|].
  unfold Array_sort in *. simpl. rewrite sort_insert_Permutation. now constructor.
Qed.

Lemma sort_insert_HdRel (y x : Scored) (l : list Scored) :
  descending y x -> HdRel descending y l ->
  HdRel descending y (sort_insert compareFn x l).
Proof.
  intros Hyx Hl. destruct l as [|z l]; simpl; [now constructor|].
  destruct (positive (compareFn x z)); constructor; [|assumption].
  now inversion Hl.
Qed.

Lemma sort_insert_Sorted (x : Scored) (l : list Scored) :
  is_number x -> Forall is_number l -> Sorted descending l ->
  Sorted descending (sort_insert compareFn x l).
Proof.
  intros Hx Hn Hs. induction l as [|y l IH]; simpl.
  - repeat constructor.
  - apply Forall_cons in Hn as [Hy Hn]. apply Sorted_inv in Hs as [Hs Hhd].
    pose proof (positive_compareFn x y Hx Hy) as Hc.
    destruct (positive (compareFn x y)).
    + constructor; [now apply IH | now apply sort_insert_HdRel].
    + constructor; [now constructor | now constructor].
Qed.

Lemma Array_sort_Sorted (l : list Scored) :
  Forall is_number l -> Sorted descending (Array_sort compareFn l).
Proof.
  induction l as [|x l IH]; intros Hn; [constructor|].
  apply Forall_cons in Hn as [Hx Hn]. unfold Array_sort in *. simpl.
  apply sort_insert_Sorted; [assumption| |now apply IH].
  change (Forall is_number (Array_sort compareFn l)).
  now rewrite Array_sort_Permutation.
Qed.

Lemma Sorted_take {A} (R : A -> A -> Prop) (n : nat) (l : list A) :
  Sorted R l -> Sorted R (take n l).
Proof.
  revert l. induction n as [|n IH]; intros l Hs; [constructor|].
  destruct l as [|x l]; [constructor|]. simpl.
  apply Sorted_inv in Hs as [Hs Hhd]. constructor; [now apply IH|].
  destruct l as [|y l]; [destruct n; constructor|].
  destruct n; [constructor|]. simpl. constructor. now inversion Hhd.
Qed.

End Suggestions.

Section SuggestionPath.
Import JS IssueController Spec.
Local Open Scope Q_scope.

Variable RegExp_i : string -> option (string -> bool).

Lemma potentialHelpers_nil (db : DB) : potentialHelpers [] db = [].
Proof.
  assert (Hq : forall u, matches_query [] u = false).
  { intros u. unfold matches_query. destruct (User.isActive u); [|reflexivity].
    induction (User.skills u) as [|sk l IH]; [reflexivity | exact IH]. }
  unfold potentialHelpers. induction (users db) as [|u l IH]; [reflexivity|].
  simpl. now rewrite Hq.
Qed.

Lemma compiled_nil (req : list string) (regexes : list (string -> bool)) :
  mapM RegExp_i req = Some regexes -> req = [] -> regexes = [].
Proof. intros H ->. now inversion H. Qed.

Lemma helpersWithScores_cons (clock : nat -> Z) (req : list string)
    (h : User.t) (hs : list User.t) :
  helpersWithScores clock req (h :: hs)
  = match User.calculateHelperScore1 (clock 0%nat) h req with
    | None => None
    | Some s =>
        match helpersWithScores (fun i => clock (S i)) req hs with
        | None => None
        | Some l => Some ((h, s) :: l)
        end
    end.
Proof.
  unfold helpersWithScores. rewrite imap_cons. cbn [mapM].
  destruct (User.calculateHelperScore1 (clock 0%nat) h req); reflexivity.
Qed.

(** The scoring of the candidates never throws. *)
Lemma helpersWithScores_returns (clock : nat -> Z) (req : list string)
    (hs : list User.t) :
  exists scored, helpersWithScores clock req hs = Some scored.
Proof.
  revert clock. induction hs as [|h hs IH]; intros clock; [now exists []|].
  rewrite helpersWithScores_cons. unfold User.calculateHelperScore1.
  rewrite calculateHelperScore_defaults.
  destruct (IH (fun i => clock (S i))) as [l ->]. eauto.
Qed.

Lemma helpersWithScores_fst (clock : nat -> Z) (req : list string)
    (hs : list User.t) (scored : list Scored) :
  helpersWithScores clock req hs = Some scored -> map fst scored = hs.
Proof.
  revert clock scored. induction hs as [|h hs IH]; intros clock scored.
  - intros [= <-]. reflexivity.
  - rewrite helpersWithScores_cons.
    destruct (User.calculateHelperScore1 (clock 0%nat) h req); [|discriminate].
    destruct (helpersWithScores (fun i => clock (S i)) req hs) eqn:E; [|discriminate].
    intros [= <-]. simpl. f_equal. now apply (IH (fun i => clock (S i))).
Qed.

Lemma helpersWithScores_elem (clock : nat -> Z) (req : list string)
    (hs : list User.t) (scored : list Scored) (h : User.t) (s : jsnum) :
  helpersWithScores clock req hs = Some scored ->
  In (h, s) scored ->
  In h hs
  /\ exists i, User.calculateHelperScore (clock i) h req "other" "medium" = Some s.
Proof.
  revert clock scored. induction hs as [|h0 hs IH]; intros clock scored.
  - intros [= <-] [].
  - rewrite helpersWithScores_cons.
    destruct (User.calculateHelperScore1 (clock 0%nat) h0 req) as [s0|] eqn:E0;
      [|discriminate].
    destruct (helpersWithScores (fun i => clock (S i)) req hs) as [l|] eqn:E;
      [|discriminate].
    intros [= <-] [[= <- <-]|Hin].
    + split; [now left | now exists 0%nat].
    + destruct (IH (fun i => clock (S i)) l E Hin) as [Hh [i Hi]].
      split; [now right | now exists (S i)].
Qed.

Lemma helpersWithScores_In (clock : nat -> Z) (req : list string)
    (hs : list User.t) (scored : list Scored) (h : User.t) :
  helpersWithScores clock req hs = Some scored ->
  In h hs ->
  exists i s,
    In (h, s) scored
    /\ User.calculateHelperScore (clock i) h req "other" "medium" = Some s.
Proof.
  revert clock scored. induction hs as [|h0 hs IH]; intros clock scored.
  - intros _ [].
  - rewrite helpersWithScores_cons.
    destruct (User.calculateHelperScore1 (clock 0%nat) h0 req) as [s0|] eqn:E0;
      [|discriminate].
    destruct (helpersWithScores (fun i => clock (S i)) req hs) as [l|] eqn:E;
      [|discriminate].
    intros [= <-] [->|Hin].
    + exists 0%nat, s0. split; [now left | exact E0].
    + destruct (IH (fun i => clock (S i)) l E Hin) as (i & s & Hs & Hi).
      exists (S i), s. split; [now right | exact Hi].
Qed.

Lemma helpersWithScores_numbers (clock : nat -> Z) (req : list string)
    (hs : list User.t) (scored : list Scored) :
  req <> [] -> helpersWithScores clock req hs = Some scored ->
  Forall is_number scored.
Proof.
  intros Hne Hsc. apply List.Forall_forall. intros [h s] Hin.
  destruct (helpersWithScores_elem clock req hs scored h s Hsc Hin) as (_ & i & Hi).
  rewrite (calculateHelperScore_number (clock i) h req "other" "medium" (2 # 10) 1
             Hne eq_refl eq_refl) in Hi.
  injection Hi as <-. unfold is_number, helperScore. simpl. eauto.
Qed.

Lemma suggestions_shape (clock : nat -> Z) (db : DB) (id : string)
    (issue : Issue.t) (helpers : list Scored) :
  Issue_findById db id = Some issue ->
  getHelperSuggestions RegExp_i clock db id = Success helpers ->
  exists regexes scored,
    mapM RegExp_i (Issue.requiredSkills issue) = Some regexes
    /\ helpersWithScores clock (Issue.requiredSkills issue)
                         (potentialHelpers regexes db) = Some scored
    /\ helpers = take 10 (Array_sort compareFn scored).
Proof.
  intros Hfind H. unfold getHelperSuggestions in H. rewrite Hfind in H.
  destruct (mapM RegExp_i (Issue.requiredSkills issue)) as [regexes|]; [|discriminate].
  destruct (helpersWithScores clock (Issue.requiredSkills issue)
              (potentialHelpers regexes db)) as [scored|] eqn:E; [|discriminate].
  exists regexes, scored. split; [reflexivity|]. split; [exact E|]. now injection H.
Qed.

(** Once the patterns are compiled, the operation answers with a success. *)
Lemma suggestions_success (clock : nat -> Z) (db : DB) (id : string)
    (issue : Issue.t) (regexes : list (string -> bool)) :
  Issue_findById db id = Some issue ->
  mapM RegExp_i (Issue.requiredSkills issue) = Some regexes ->
  exists scored,
    helpersWithScores clock (Issue.requiredSkills issue)
                      (potentialHelpers regexes db) = Some scored
    /\ getHelperSuggestions RegExp_i clock db id
       = Success (take 10 (Array_sort compareFn scored)).
Proof.
  intros Hfind Hm.
  destruct (helpersWithScores_returns clock (Issue.requiredSkills issue)
              (potentialHelpers regexes db)) as [scored Hs].
  exists scored. split; [exact Hs|].
  unfold getHelperSuggestions. now rewrite Hfind, Hm, Hs.
Qed.

End SuggestionPath.

(** C10. The suggestion operation scores every candidate with the issue's
    required skills only, so the category is [other] and the priority is
    [medium] whatever the issue says: each returned score is the weighted sum
    with the domain sub-score 0.2 and the multiplier 1, the answer does not
    change when the issue's category and priority do, and it holds at most
    ten candidates in descending order of score. *)
Theorem helper_suggestions_defaults_top10
    (RegExp_i : string -> option (string -> bool)) (clock : nat -> Z)
    (db : IssueController.DB) (id : string) (issue : Issue.t)
    (helpers : list IssueController.Scored) :
  IssueController.Issue_findById db id = Some issue ->
  IssueController.getHelperSuggestions RegExp_i clock db id
    = IssueController.Success helpers ->
  (length helpers <= 10)%nat
  /\ Sorted Spec.descending helpers
  /\ (exists (regexes : list (string -> bool))
             (scored ranked : list IssueController.Scored),
        mapM RegExp_i (Issue.requiredSkills issue) = Some regexes
        /\ IssueController.helpersWithScores clock (Issue.requiredSkills issue)
             (IssueController.potentialHelpers regexes db) = Some scored
        /\ Permutation ranked scored
        /\ Sorted Spec.descending ranked
        /\ helpers = take 10 ranked)
  /\ (forall (h : User.t) (s : JS.jsnum),
        In (h, s) helpers ->
        In h (IssueController.users db)
        /\ User.domainScore h "other" = Some (2 # 10)%Q
        /\ User.priorityMultiplier "medium" = JS.Num 1
        /\ exists now : Z,
             User.calculateHelperScore now h (Issue.requiredSkills issue)
                                       "other" "medium" = Some s
             /\ JS.jsnum_eq s
                  (JS.Num
                     (Spec.weighted
                        (Spec.ratio (Spec.matched_count h (Issue.requiredSkills issue))
                                    (length (Issue.requiredSkills issue)))
                        (Spec.history h) (2 # 10)
                        ((Spec.recency now h + User.availabilityScore h) / 2) 1)))
  /\ (forall category priority : string,
        IssueController.getHelperSuggestions RegExp_i clock
          (IssueController.Issue_save db id
             (Issue.set_classification category priority issue)) id
        = IssueController.Success helpers).
Proof.
  intros Hfind Hres.
  destruct (suggestions_shape RegExp_i clock db id issue helpers Hfind Hres)
    as (regexes & scored & Hre & Hsc & ->).
  set (req := Issue.requiredSkills issue) in *.
  assert (Hnum : Forall Spec.is_number scored).
  { destruct req as [|r req'] eqn:Ereq.
    - inversion Hre; subst regexes.
      rewrite potentialHelpers_nil in Hsc. injection Hsc as <-. constructor.
    - apply (helpersWithScores_numbers clock (r :: req')
               (IssueController.potentialHelpers regexes db) scored);
        [discriminate | exact Hsc]. }
  split; [rewrite length_take; lia|].
  split; [apply Sorted_take, Array_sort_Sorted, Hnum|].
  split.
  { exists regexes, scored, (IssueController.Array_sort IssueController.compareFn scored).
    split; [exact Hre|]. split; [exact Hsc|]. split; [apply Array_sort_Permutation|].
    split; [apply Array_sort_Sorted, Hnum | reflexivity]. }
  split.
  - intros h s Hin.
    assert (Hin' : In (h, s) scored).
    { apply list_elem_of_In. apply list_elem_of_In in Hin.
      apply elem_of_take in Hin as (i & Hi & _).
      apply list_elem_of_lookup_2 in Hi.
      now rewrite (Array_sort_Permutation IssueController.compareFn scored) in Hi. }
    destruct (helpersWithScores_elem clock req _ scored h s Hsc Hin') as (Hh & i & Hi).
    assert (Hne : req <> []).
    { intros E. rewrite E in Hre. inversion Hre; subst regexes.
      rewrite potentialHelpers_nil in Hh. destruct Hh. }
    split.
    { unfold IssueController.potentialHelpers in Hh.
      now apply List.filter_In in Hh as [Hh _]. }
    split; [reflexivity|]. split; [reflexivity|].
    exists (clock i). split; [exact Hi|].
    destruct (calculateHelperScore_spec (clock i) h req "other" "medium" (2 # 10) 1
                Hne eq_refl eq_refl) as (s' & Hs' & Heq).
    rewrite Hi in Hs'. injection Hs' as <-. exact Heq.
  - intros category priority.
    set (db' := IssueController.Issue_save db id
                  (Issue.set_classification category priority issue)).
    assert (Hf' : IssueController.Issue_findById db' id
                  = Some (Issue.set_classification category priority issue))
      by apply lookup_insert_eq.
    unfold IssueController.getHelperSuggestions. rewrite Hf'.
    change (Issue.requiredSkills (Issue.set_classification category priority issue))
      with req.
    rewrite Hre.
    change (IssueController.potentialHelpers regexes db')
      with (IssueController.potentialHelpers regexes db).
    now rewrite Hsc.
Qed.

Lemma helper_suggestions_defaults_top10_witness :
  exists helpers : list IssueController.Scored,
    IssueController.getHelperSuggestions Sample.RegExp_plain (fun _ => 3 * Sample.day)%Z
      (Sample.db Issue.open None) "i1" = IssueController.Success helpers
    /\ map (fun h => User.firstName (fst h)) helpers = ["Vic"; "Netta"]
    /\ (length helpers <= 10)%nat
    /\ Sorted Spec.descending helpers.
Proof.
  eexists. split; [vm_compute; reflexivity|].
  split; [reflexivity|].
  pose proof (helper_suggestions_defaults_top10 Sample.RegExp_plain
                (fun _ => 3 * Sample.day)%Z (Sample.db Issue.open None) "i1"
                (Sample.vpn_issue Issue.open None) _ eq_refl eq_refl) as H.
  split; [exact (proj1 H) | exact (proj1 (proj2 H))].
Defined.

(** C6, as the code has it. When the list of required skills of the issue
    is empty, the suggestion operation signals nothing: the candidate query
    selects no user, no candidate is scored and the answer is a success with
    an empty list of helpers. The scoring method has no guard of its own; on
    an empty list its skill score is [NaN], and so is its result: with the
    default category and priority, at every category that is no property of
    [Object.prototype], and wherever else the method returns. *)
Theorem empty_required_skills_select_nobody
    (RegExp_i : string -> option (string -> bool)) (clock : nat -> Z)
    (db : IssueController.DB) (id : string) (issue : Issue.t) :
  IssueController.Issue_findById db id = Some issue ->
  Issue.requiredSkills issue = [] ->
  mapM RegExp_i (Issue.requiredSkills issue) = Some []
  /\ IssueController.potentialHelpers [] db = []
  /\ IssueController.getHelperSuggestions RegExp_i clock db id
     = IssueController.Success []
  /\ (forall (now : Z) (u : User.t),
        User.skillScore u (Issue.requiredSkills issue) = JS.NaN
        /\ User.calculateHelperScore1 now u (Issue.requiredSkills issue)
           = Some JS.NaN
        /\ forall category priority : string,
             (~ JS.inherits category ->
              User.calculateHelperScore now u (Issue.requiredSkills issue)
                                        category priority = Some JS.NaN)
             /\ forall s : JS.jsnum,
                  User.calculateHelperScore now u (Issue.requiredSkills issue)
                                            category priority = Some s ->
                  s = JS.NaN).
Proof.
  intros Hfind Hreq. rewrite Hreq.
  split; [reflexivity|].
  split; [apply potentialHelpers_nil|].
  split.
  - unfold IssueController.getHelperSuggestions. rewrite Hfind, Hreq. simpl.
    now rewrite potentialHelpers_nil.
  - intros now u. split; [reflexivity|]. split; [reflexivity|].
    intros category priority. unfold User.calculateHelperScore. split.
    + intros Hc. now destruct (domainScore_returns u category Hc) as [domain ->].
    + intros s. destruct (User.domainScore u category); [|discriminate].
      now intros [= <-].
Qed.

Lemma empty_required_skills_select_nobody_witness :
  IssueController.getHelperSuggestions Sample.RegExp_plain (fun _ => 0%Z)
    Sample.bare_db "i0" = IssueController.Success []
  /\ User.calculateHelperScore1 0 Sample.netta
       (Issue.requiredSkills Sample.bare_issue) = Some JS.NaN.
Proof.
  pose proof (empty_required_skills_select_nobody Sample.RegExp_plain (fun _ => 0%Z)
                Sample.bare_db "i0" Sample.bare_issue eq_refl eq_refl) as H.
  split; [exact (proj1 (proj2 (proj2 H)))|].
  exact (proj1 (proj2 (proj2 (proj2 (proj2 H)) 0%Z Sample.netta))).
Defined.

(** C6, as stated: an empty list of required skills would have to end in an
    error. For the stored issue [i0], whose list is empty, the operation
    answers with a success. *)
Lemma empty_required_skills_no_error :
  Issue.requiredSkills Sample.bare_issue = []
  /\ IssueController.Issue_findById Sample.bare_db "i0" = Some Sample.bare_issue
  /\ ~ Spec.signals_error
         (IssueController.getHelperSuggestions Sample.RegExp_plain (fun _ => 0%Z)
            Sample.bare_db "i0").
Proof.
  split; [reflexivity|]. split; [reflexivity|].
  vm_compute. intros [].
Qed.

Section AcceptFacts.
Import Payload SocketService IssueController Handshake.

Variable find_other : DB -> value -> option string.

Lemma findById_value_string (db : DB) (key : string) :
  findById_value find_other db (VStr key)
  = match Issue_findById db key with
    | Some issue => Some (key, issue)
    | None => None
    end.
Proof. reflexivity. Qed.

Lemma findById_value_found (db : DB) (v : value) (key : string) (issue : Issue.t) :
  findById_value find_other db v = Some (key, issue) ->
  Issue_findById db key = Some issue
  /\ (v = VStr key \/ find_other db v = Some key).
Proof.
  unfold findById_value.
  destruct v as [| |b|n|s|fields];
    try (destruct (find_other db _) as [k|] eqn:Ek; [|discriminate];
         destruct (Issue_findById db k) as [i|] eqn:Ei; [|discriminate];
         intros [= <- <-]; split; [exact Ei | now right]).
  destruct (Issue_findById db s) as [i|] eqn:Ei; [|discriminate].
  intros [= <- <-]. split; [exact Ei | now left].
Qed.

(** The block run without interruption either changes nothing and notifies
    nobody, or stores the assignment in the document that it found. *)
Lemma accept_cases (now : Z) (req : accept_request) (db : DB) :
  accept find_other now req db = (db, false, [])
  \/ exists key issue edited,
       findById_value find_other db (issueId req) = Some (key, issue)
       /\ Issue_findById db key = Some issue
       /\ checked req issue = Some edited
       /\ accept find_other now req db
          = (Issue_save db key (save_changes issue edited issue), true,
             assigned_notifications now now req).
Proof.
  unfold accept, task_step.
  destruct (findById_value find_other db (issueId req)) as [[key issue]|] eqn:Hf;
    [|now left].
  destruct (findById_value_found db _ key issue Hf) as [Hi _].
  destruct (checked req issue) as [edited|] eqn:Hc; [|now left].
  unfold Issue_save_changes. unfold Issue_findById in Hi. rewrite Hi.
  right. exists key, issue, edited. now repeat split.
Qed.

End AcceptFacts.

Section Votes.
Import JS IssueController Spec.

Lemma canVote_spec (issue : Issue.t) (userId : string) :
  Issue.canVote issue userId = true <-> ~ has_voted issue userId.
Proof.
  unfold Issue.canVote, has_voted.
  rewrite andb_true_iff, !negb_true_iff, <- !not_true_iff_false, !arr_includes_In.
  tauto.
Qed.

Lemma addUpvote_voted_once (issue : Issue.t) (userId : string) :
  voted_once issue -> voted_once (fst (Issue.addUpvote issue userId)).
Proof.
  intros Hinv. unfold Issue.addUpvote.
  destruct (Issue.canVote issue userId) eqn:E; [|assumption].
  apply canVote_spec in E. unfold voted_once, has_voted in *. simpl.
  rewrite <- app_assoc. simpl.
  apply NoDup_app in Hinv as (Hu & Hud & Hd).
  apply NoDup_app. repeat split; [assumption| |].
  - intros x Hx [->|Hx']%elem_of_cons.
    + apply E. left. now apply list_elem_of_In.
    + now apply (Hud x).
  - constructor; [|assumption]. intros H. apply E. right. now apply list_elem_of_In.
Qed.

Lemma addDownvote_voted_once (issue : Issue.t) (userId : string) :
  voted_once issue -> voted_once (fst (Issue.addDownvote issue userId)).
Proof.
  intros Hinv. unfold Issue.addDownvote.
  destruct (Issue.canVote issue userId) eqn:E; [|assumption].
  apply canVote_spec in E. unfold voted_once, has_voted in *. simpl.
  apply NoDup_app in Hinv as (Hu & Hud & Hd).
  apply NoDup_app. repeat split; [assumption| |].
  - intros x Hx [Hx'| ->%list_elem_of_singleton]%elem_of_app.
    + now apply (Hud x).
    + apply E. left. now apply list_elem_of_In.
  - apply NoDup_app. repeat split; [assumption| |apply NoDup_singleton].
    intros x Hx ->%list_elem_of_singleton. apply E. right. now apply list_elem_of_In.
Qed.

Lemma add_vote_rejected (issue : Issue.t) (userId : string) :
  has_voted issue userId ->
  Issue.addUpvote issue userId = (issue, false)
  /\ Issue.addDownvote issue userId = (issue, false).
Proof.
  intros Hv. unfold Issue.addUpvote, Issue.addDownvote.
  destruct (Issue.canVote issue userId) eqn:E; [|now split].
  apply canVote_spec in E. contradiction.
Qed.

Lemma Issue_save_voted_once (db : DB) (id : string) (issue : Issue.t) :
  all_voted_once db -> voted_once issue -> all_voted_once (Issue_save db id issue).
Proof.
  intros Hall Hi id' issue'. unfold Issue_findById, Issue_save. simpl.
  rewrite lookup_insert. case_decide.
  - now intros [= <-].
  - apply Hall.
Qed.

Lemma save_changes_votes (loaded edited stored : Issue.t) :
  voted_once stored -> voted_once (Handshake.save_changes loaded edited stored).
Proof.
  unfold Handshake.save_changes, voted_once.
  destruct (Issue.Status_eqb _ _); destruct (bool_decide _); simpl; trivial.
Qed.

(** A vote, a direct assignment, a resolution and an accepted response each
    keep the votes of every issue in order. *)
Lemma handle_voted_once (find_other : DB -> Payload.value -> option string)
    (db : DB) (r : Server.request) :
  all_voted_once db -> all_voted_once (Server.handle find_other db r).
Proof.
  intros Hall. destruct r as [id me vt | id me a | now id me sol spent | now req]; simpl.
  - unfold voteIssue. destruct (negb _); [assumption|].
    destruct (Issue_findById db id) as [issue|] eqn:Hf; [|assumption].
    pose proof (addUpvote_voted_once issue me (Hall id issue Hf)) as Hup.
    pose proof (addDownvote_voted_once issue me (Hall id issue Hf)) as Hdown.
    destruct (String.eqb vt "upvote").
    + destruct (Issue.addUpvote issue me) as [issue1 [|]]; simpl in *;
        [now apply Issue_save_voted_once | assumption].
    + destruct (Issue.addDownvote issue me) as [issue1 [|]]; simpl in *;
        [now apply Issue_save_voted_once | assumption].
  - unfold assignIssue. destruct a as [h|]; [|assumption].
    destruct (String.eqb h ""); [assumption|].
    destruct (Issue_findById db id) as [issue|] eqn:Hf; [|assumption].
    destruct (negb _); [assumption|].
    destruct (User_findById db h); [|assumption]. simpl.
    apply Issue_save_voted_once; [assumption|]. apply (Hall id issue Hf).
  - unfold resolveIssue. destruct sol as [sol|]; [|assumption].
    destruct (String.eqb sol ""); [assumption|].
    destruct (Issue_findById db id) as [issue|] eqn:Hf; [|assumption].
    destruct (Issue.assignedTo issue); [|assumption].
    destruct (negb _); [assumption|].
    assert (H1 : all_voted_once (Issue_save db id (Issue.resolve now issue me sol spent)))
      by (apply Issue_save_voted_once; [assumption | apply (Hall id issue Hf)]).
    destruct (User_findById _ me); simpl; exact H1.
  - destruct (accept_cases find_other now req db)
      as [-> | (key & issue & edited & _ & Hi & _ & ->)]; [assumption|].
    simpl. apply Issue_save_voted_once; [assumption|].
    apply save_changes_votes. apply (Hall key issue Hi).
Qed.

Lemma handle_all_voted_once (find_other : DB -> Payload.value -> option string)
    (rs : list Server.request) (db : DB) :
  all_voted_once db -> all_voted_once (Server.handle_all find_other db rs).
Proof.
  revert db. induction rs as [|r rs IH]; intros db Hall; [assumption|].
  simpl. apply IH. now apply handle_voted_once.
Qed.

End Votes.

(** C7. Starting from vote arrays in which every identity occurs at most
    once and in at most one of them, a vote request keeps them so; and a vote
    by an identity that already upvoted or downvoted the issue, whichever way
    it votes now, is answered with a failure and leaves the collection,
    hence both vote arrays and the vote count, as they were. *)
Theorem vote_at_most_once
    (db : IssueController.DB) (id me voteType : string) (issue : Issue.t) :
  IssueController.Issue_findById db id = Some issue ->
  Spec.voted_once issue ->
  (forall issue' : Issue.t,
      IssueController.Issue_findById
        (fst (IssueController.voteIssue db id me voteType)) id = Some issue' ->
      Spec.voted_once issue')
  /\ (Spec.has_voted issue me ->
      Issue.canVote issue me = false
      /\ fst (IssueController.voteIssue db id me voteType) = db
      /\ Spec.signals_error (snd (IssueController.voteIssue db id me voteType))).
Proof.
  intros Hfind Hinv. unfold IssueController.voteIssue.
  destruct (negb (JS.arr_includes ["upvote"; "downvote"] voteType)) eqn:Evt.
  { simpl. split.
    - intros issue' H. rewrite Hfind in H. now injection H as <-.
    - intros Hv. split; [|now split].
      apply not_true_iff_false. intros H. now apply canVote_spec in H. }
  rewrite Hfind. split.
  - intros issue'.
    pose proof (addUpvote_voted_once issue me Hinv) as Hup.
    pose proof (addDownvote_voted_once issue me Hinv) as Hdown.
    destruct (String.eqb voteType "upvote").
    + destruct (Issue.addUpvote issue me) as [issue1 [|]]; simpl in *.
      * unfold IssueController.Issue_findById; simpl.
        rewrite lookup_insert_eq. now intros [= <-].
      * rewrite Hfind. now intros [= <-].
    + destruct (Issue.addDownvote issue me) as [issue1 [|]]; simpl in *.
      * unfold IssueController.Issue_findById; simpl.
        rewrite lookup_insert_eq. now intros [= <-].
      * rewrite Hfind. now intros [= <-].
  - intros Hv. destruct (add_vote_rejected issue me Hv) as [-> ->].
    split.
    + apply not_true_iff_false. intros H. now apply canVote_spec in H.
    + destruct (String.eqb voteType "upvote"); now split.
Qed.

Lemma vote_at_most_once_witness :
  Spec.has_voted (Issue.set_upvotes ["u1"] (Sample.vpn_issue Issue.open None)) "u1"
  /\ fst (IssueController.voteIssue Sample.voted_db "i1" "u1" "downvote")
     = Sample.voted_db
  /\ Spec.signals_error
       (snd (IssueController.voteIssue Sample.voted_db "i1" "u1" "downvote")).
Proof.
  assert (Hv : Spec.has_voted
                 (Issue.set_upvotes ["u1"] (Sample.vpn_issue Issue.open None)) "u1")
    by (left; simpl; tauto).
  assert (Hinv : Spec.voted_once
                   (Issue.set_upvotes ["u1"] (Sample.vpn_issue Issue.open None)))
    by (unfold Spec.voted_once; simpl; apply NoDup_singleton).
  split; [exact Hv|].
  exact (proj2 (proj2 (vote_at_most_once Sample.voted_db "i1" "u1" "downvote" _
                         eq_refl Hinv) Hv)).
Defined.

Section Presence.
Import SocketService.

Lemma connection_online (r : Registry) (socket : Socket) :
  isUserOnline (connection r socket) (userId socket) = true
  /\ lookup_socket (connection r socket) (userId socket) = Some socket
  /\ userSockets (connection r socket) !! id socket = Some (userId socket).
Proof.
  unfold isUserOnline, lookup_socket, connection. simpl.
  rewrite !lookup_insert_eq. split; [|now split].
  apply bool_decide_eq_true. eauto.
Qed.

(** The last [connection] of an identity is the one the registry holds. *)
Lemma connection_last_wins (r : Registry) (c1 c2 : Socket) :
  userId c1 = userId c2 ->
  lookup_socket (connection (connection r c1) c2) (userId c1) = Some c2.
Proof.
  intros E. unfold lookup_socket, connection. simpl. rewrite E.
  apply lookup_insert_eq.
Qed.

Lemma handleDisconnect_offline (r : Registry) (socket : Socket) :
  isUserOnline (handleDisconnect r socket) (userId socket) = false
  /\ lookup_socket (handleDisconnect r socket) (userId socket) = None.
Proof.
  unfold isUserOnline, lookup_socket, handleDisconnect. simpl.
  rewrite lookup_delete_eq. split; [|reflexivity].
  apply bool_decide_eq_false. intros [x Hx]. discriminate.
Qed.

End Presence.

(** C8, on the code. After [c1] and then [c2] were registered for the same
    identity, the disconnect of the superseded [c1] removes the identity's
    presence entry: the identity is reported offline and has no socket, while
    the inverse entry of the live connection [c2] is still there. *)
Theorem stale_disconnect_drops_presence
    (r : SocketService.Registry) (c1 c2 : SocketService.Socket) :
  SocketService.userId c1 = SocketService.userId c2 ->
  SocketService.id c1 <> SocketService.id c2 ->
  let r2 := SocketService.connection (SocketService.connection r c1) c2 in
  let r3 := SocketService.handleDisconnect r2 c1 in
  SocketService.lookup_socket r2 (SocketService.userId c1) = Some c2
  /\ SocketService.isUserOnline r3 (SocketService.userId c1) = false
  /\ SocketService.lookup_socket r3 (SocketService.userId c1) = None
  /\ SocketService.userSockets r3 !! SocketService.id c2
     = Some (SocketService.userId c1).
Proof.
  intros Hu Hid r2 r3.
  split; [now apply connection_last_wins|].
  destruct (handleDisconnect_offline r2 c1) as [Hoff Hnone].
  split; [exact Hoff|]. split; [exact Hnone|].
  unfold r3, r2, SocketService.handleDisconnect, SocketService.connection. simpl.
  rewrite lookup_delete_ne by assumption.
  rewrite lookup_insert_eq. now rewrite Hu.
Qed.

Lemma stale_disconnect_drops_presence_witness :
  SocketService.isUserOnline
    (SocketService.handleDisconnect
       (SocketService.connection
          (SocketService.connection SocketService.empty Sample.first_socket)
          Sample.second_socket)
       Sample.first_socket)
    "u1" = false.
Proof.
  assert (Hid : SocketService.id Sample.first_socket
                <> SocketService.id Sample.second_socket) by discriminate.
  exact (proj1 (proj2 (stale_disconnect_drops_presence SocketService.empty
                         Sample.first_socket Sample.second_socket eq_refl Hid))).
Defined.

Section Dispatch.
Import Payload SocketService.

Lemma user_room_converts (v : value) :
  is_Some (toString v) -> exists topic, user_room v = Some topic.
Proof. intros [s Hs]. unfold user_room. rewrite Hs. eauto. Qed.

(** Every value that is no object converts to a string; so does the
    [undefined] that a missing key gives. *)
Lemma primitive_converts (v : value) :
  (forall fields, v <> VObj fields) -> is_Some (toString v).
Proof.
  destruct v as [| |[|]| | |fields]; intros H; simpl; eauto.
  now destruct (H fields).
Qed.

Lemma dispatch_done (clock : nat -> Z) (ev : inbound) (socket : Socket) (data : value) :
  destructurable data = true ->
  (forall k, room_key ev = Some k -> is_Some (toString (get data k))) ->
  exists out detached,
    dispatch clock ev socket data = Done out detached
    /\ map event out = Spec.outbound ev.
Proof.
  intros Hd Hk.
  destruct ev; simpl in Hk |- *;
    unfold handleIssueUpdate, handleNewComment, handleIssueAssignment,
      handleIssueResolution, handleAvailabilityUpdate, handlePrivateMessage,
      handleHelpAsk, handleHelpRespond, handleTypingStart, handleTypingStop,
      on, on_room; rewrite Hd;
    try (eexists _, _; split; reflexivity);
    try (destruct (user_room_converts _ (Hk _ eq_refl)) as [topic ->];
         eexists _, _; split; reflexivity).
  destruct (Hk _ eq_refl) as [s ->]. eexists _, _; split; reflexivity.
Qed.

(** An absent payload stops every handler at its destructuring pattern. *)
Lemma absent_payload_throws (clock : nat -> Z) (ev : inbound) (socket : Socket)
    (data : value) :
  destructurable data = false -> dispatch clock ev socket data = Throws.
Proof.
  intros H. destruct ev; simpl;
    unfold handleIssueUpdate, handleNewComment, handleIssueAssignment,
      handleIssueResolution, handleAvailabilityUpdate, handlePrivateMessage,
      handleHelpAsk, handleHelpRespond, handleTypingStart, handleTypingStop,
      on, on_room; now rewrite H.
Qed.

(** An object with an own [toString] under the key that names the room
    stops the handler at its template literal, before anything is
    emitted. *)
Lemma unprintable_room_key_throws (clock : nat -> Z) (ev : inbound) (socket : Socket)
    (data : value) (k : string) :
  room_key ev = Some k -> toString (get data k) = None ->
  dispatch clock ev socket data = Throws.
Proof.
  intros Hk Hs. destruct ev; simpl in Hk |- *; try discriminate;
    injection Hk as <-;
    unfold handleNewComment, handleIssueAssignment, handlePrivateMessage,
      handleHelpAsk, handleHelpRespond, handleTypingStart, handleTypingStop,
      on_room, user_room; rewrite Hs; now destruct (destructurable data).
Qed.

(** An accepted [help:respond] detaches the assignment block for the
    responder, the named requester and the named issue. *)
Lemma handleHelpRespond_detaches (clock : nat -> Z) (socket : Socket) (data : value) :
  destructurable data = true ->
  is_Some (toString (get data "toUserId")) ->
  truthy (get data "accepted") = true ->
  exists out,
    handleHelpRespond clock socket data
    = Done out (Some (mkAccept (userId socket) (get data "toUserId")
                               (get data "issueId")))
    /\ map event out = ["help:response"; "help:responded"].
Proof.
  intros Hd Hs Ha. unfold handleHelpRespond, on_room. rewrite Hd, Ha.
  destruct (user_room_converts _ Hs) as [topic ->].
  eexists. split; reflexivity.
Qed.

Lemma handleHelpRespond_declined (clock : nat -> Z) (socket : Socket) (data : value) :
  destructurable data = true ->
  is_Some (toString (get data "toUserId")) ->
  truthy (get data "accepted") = false ->
  exists out, handleHelpRespond clock socket data = Done out None.
Proof.
  intros Hd Hs Ha. unfold handleHelpRespond, on_room. rewrite Hd, Ha.
  destruct (user_room_converts _ Hs) as [topic ->]. eexists. reflexivity.
Qed.

End Dispatch.

(** C9, as the code has it. A payload other than [undefined] and [null],
    whatever keys it lacks, is not dropped: where the handler names its room
    with a value of the payload, let that value convert to a string, as
    every value that is no object and every missing key does; then the
    handler of every inbound event of the catalogue completes and emits its
    outbound events, reading each missing key as [undefined]. *)
Theorem payload_lacking_keys_is_forwarded
    (clock : nat -> Z) (ev : SocketService.inbound) (socket : SocketService.Socket)
    (data : Payload.value) :
  Payload.destructurable data = true ->
  (forall k, SocketService.room_key ev = Some k ->
             is_Some (Payload.toString (Payload.get data k))) ->
  In ev SocketService.catalogue
  /\ (forall (fields : list (string * Payload.value)) (k : string),
        JS.prop fields k = None ->
        Payload.get (Payload.VObj fields) k = Payload.VUndefined)
  /\ (forall v : Payload.value,
        (forall fields, v <> Payload.VObj fields) -> is_Some (Payload.toString v))
  /\ exists (out : list SocketService.emission)
            (detached : option SocketService.accept_request),
       SocketService.dispatch clock ev socket data = SocketService.Done out detached
       /\ map SocketService.event out = Spec.outbound ev
       /\ out <> [].
Proof.
  intros H Hk. split; [destruct ev; simpl; tauto|].
  split; [intros fields k Hf; simpl; now rewrite Hf|].
  split; [apply primitive_converts|].
  destruct (dispatch_done clock ev socket data H Hk) as (out & d & Hd & Hout).
  exists out, d. split; [exact Hd|]. split; [assumption|].
  intros ->. destruct ev; discriminate.
Qed.

Lemma payload_lacking_keys_is_forwarded_witness :
  exists (out : list SocketService.emission)
         (detached : option SocketService.accept_request),
    SocketService.dispatch (fun _ => 0%Z) SocketService.message_send
      Sample.first_socket (Payload.VObj [("message", Payload.VStr "hello")])
    = SocketService.Done out detached
    /\ map SocketService.event out = Spec.outbound SocketService.message_send
    /\ out <> [].
Proof.
  assert (Hk : forall k, SocketService.room_key SocketService.message_send = Some k ->
                 is_Some (Payload.toString
                            (Payload.get (Payload.VObj [("message", Payload.VStr "hello")])
                                         k))).
  { intros k Hk. injection Hk as <-. exists "undefined". reflexivity. }
  exact (proj2 (proj2 (proj2 (payload_lacking_keys_is_forwarded (fun _ => 0%Z)
                                SocketService.message_send Sample.first_socket
                                (Payload.VObj [("message", Payload.VStr "hello")])
                                eq_refl Hk)))).
Defined.

(** C9, as stated: a payload without the required keys would be dropped.
    The empty object lacks both keys of [issue:update], and the handler
    broadcasts [issue:updated] to the sender's department all the same. *)
Lemma malformed_update_is_broadcast :
  Spec.malformed SocketService.issue_update (Payload.VObj [])
  /\ SocketService.dispatch (fun _ => 0%Z) SocketService.issue_update
       Sample.first_socket (Payload.VObj [])
     = SocketService.Done
         [ SocketService.mkEmission
             (SocketService.RoomExcept "department:IT Support" "s1") "issue:updated"
             [ ("issueId", Payload.VUndefined);
               ("updates", Payload.VUndefined);
               ("updatedBy",
                Payload.VObj [ ("id", Payload.VStr "u1");
                               ("name", Payload.VStr "Netta Ray");
                               ("employeeId", Payload.VStr "EMP001") ]) ]
             (Some 0%Z) ]
         None
  /\ ~ Spec.dropped
         (SocketService.dispatch (fun _ => 0%Z) SocketService.issue_update
            Sample.first_socket (Payload.VObj [])).
Proof.
  split.
  { right. exists "issueId". split; [simpl; tauto | reflexivity]. }
  split; [reflexivity|].
  unfold Spec.dropped. discriminate.
Qed.

Section Transitions.
Import Payload SocketService IssueController Handshake Spec.

Variable find_other : DB -> value -> option string.

Lemma Status_eqb_eq (a b : Issue.Status) : Issue.Status_eqb a b = true <-> a = b.
Proof. destruct a, b; simpl; split; congruence. Qed.

Lemma active_not_resolved_or_closed (s : Issue.Status) :
  active s <-> resolved_or_closed s = false.
Proof.
  unfold active. destruct s; simpl; split; try tauto; try congruence;
    intros [H|[H|H]]; discriminate.
Qed.

Lemma save_changes_status (loaded edited stored : Issue.t) :
  Issue.status (save_changes loaded edited stored)
  = if Issue.Status_eqb (Issue.status edited) (Issue.status loaded)
    then Issue.status stored else Issue.status edited.
Proof.
  unfold save_changes.
  destruct (Issue.Status_eqb _ _); destruct (bool_decide _); reflexivity.
Qed.

Lemma save_changes_assignedTo (loaded edited stored : Issue.t) :
  Issue.assignedTo (save_changes loaded edited stored)
  = if bool_decide (Issue.assignedTo edited = Issue.assignedTo loaded)
    then Issue.assignedTo stored else Issue.assignedTo edited.
Proof.
  unfold save_changes.
  destruct (Issue.Status_eqb _ _); destruct (bool_decide _); reflexivity.
Qed.

Lemma save_changes_postedBy (loaded edited stored : Issue.t) :
  Issue.postedBy (save_changes loaded edited stored) = Issue.postedBy stored.
Proof.
  unfold save_changes.
  destruct (Issue.Status_eqb _ _); destruct (bool_decide _); reflexivity.
Qed.

(** Saving over the very document that was loaded stores the edits. *)
Lemma save_changes_same (loaded edited : Issue.t) :
  Issue.status (save_changes loaded edited loaded) = Issue.status edited
  /\ Issue.assignedTo (save_changes loaded edited loaded) = Issue.assignedTo edited.
Proof.
  rewrite save_changes_status, save_changes_assignedTo. split.
  - destruct (Issue.Status_eqb _ _) eqn:E; [|reflexivity].
    apply Status_eqb_eq in E. congruence.
  - case_bool_decide; congruence.
Qed.

Lemma checked_passes (req : accept_request) (issue : Issue.t) :
  method_toString (toUserId req) = Some (Issue.postedBy issue) ->
  resolved_or_closed (Issue.status issue) = false ->
  checked req issue
  = Some (Issue.set_status Issue.assigned
            (Issue.set_assignedTo (Some (responder req)) issue)).
Proof.
  intros Ho Hs. unfold checked. rewrite Ho, String.eqb_refl, Hs. reflexivity.
Qed.

Lemma checked_resolved_or_closed (req : accept_request) (issue : Issue.t) :
  resolved_or_closed (Issue.status issue) = true -> checked req issue = None.
Proof.
  intros Hs. unfold checked. destruct (method_toString _); [|reflexivity].
  destruct (negb _); [reflexivity|]. now rewrite Hs.
Qed.

Lemma accept_rejected (now : Z) (req : accept_request) (db : DB) (key : string)
    (issue : Issue.t) :
  issueId req = VStr key ->
  Issue_findById db key = Some issue ->
  resolved_or_closed (Issue.status issue) = true ->
  accept find_other now req db = (db, false, []).
Proof.
  intros Hk Hfind Hs. unfold accept, task_step.
  rewrite Hk, findById_value_string, Hfind.
  now rewrite (checked_resolved_or_closed req issue Hs).
Qed.

Lemma accept_assigns (now : Z) (req : accept_request) (db : DB) (key : string)
    (issue : Issue.t) :
  issueId req = VStr key ->
  Issue_findById db key = Some issue ->
  method_toString (toUserId req) = Some (Issue.postedBy issue) ->
  resolved_or_closed (Issue.status issue) = false ->
  exists issue' : Issue.t,
    accept find_other now req db
    = (Issue_save db key issue', true, assigned_notifications now now req)
    /\ Issue.status issue' = Issue.assigned
    /\ Issue.assignedTo issue' = Some (responder req).
Proof.
  intros Hk Hfind Ho Hs. unfold accept, task_step.
  rewrite Hk, findById_value_string, Hfind, (checked_passes req issue Ho Hs).
  unfold Issue_save_changes. unfold Issue_findById in Hfind. rewrite Hfind.
  eexists. split; [reflexivity|]. apply save_changes_same.
Qed.

End Transitions.

(** C2, as the code has it. No operation compares the status with the
    lifecycle order. The accepted-handshake assignment is rejected, and the
    collection left as it was, when the issue is resolved or closed; on an
    issue that is open, assigned or in progress it stores status [assigned]
    and the responder, so that in_progress → assigned goes through. On such
    an issue the direct assignment by the owner stores status [assigned] and
    the helper, and the resolution by the assigned helper stores status
    [resolved]. *)
Theorem status_changes_as_coded
    (find_other : IssueController.DB -> Payload.value -> option string)
    (now : Z) (db : IssueController.DB) (key : string) (issue : Issue.t) :
  IssueController.Issue_findById db key = Some issue ->
  (forall req : SocketService.accept_request,
      SocketService.issueId req = Payload.VStr key ->
      (Handshake.resolved_or_closed (Issue.status issue) = true ->
       Handshake.accept find_other now req db = (db, false, []))
      /\ (Spec.active (Issue.status issue) ->
          Handshake.method_toString (SocketService.toUserId req)
          = Some (Issue.postedBy issue) ->
          exists issue' : Issue.t,
            Handshake.accept find_other now req db
            = (IssueController.Issue_save db key issue', true,
               Handshake.assigned_notifications now now req)
            /\ Issue.status issue' = Issue.assigned
            /\ Issue.assignedTo issue' = Some (SocketService.responder req)))
  /\ (forall (me helperId : string) (helper : User.t),
        Spec.active (Issue.status issue) ->
        Issue.postedBy issue = me ->
        helperId <> "" ->
        IssueController.User_findById db helperId = Some helper ->
        exists issue' : Issue.t,
          IssueController.assignIssue db key me (Some helperId)
          = (IssueController.Issue_save db key issue', IssueController.Success issue')
          /\ Issue.status issue' = Issue.assigned
          /\ Issue.assignedTo issue' = Some helperId)
  /\ (forall (me sol : string) (spent : option Q),
        Spec.active (Issue.status issue) ->
        Issue.assignedTo issue = Some me ->
        sol <> "" ->
        Issue.status
          <$> IssueController.Issue_findById
                (fst (IssueController.resolveIssue now db key me (Some sol) spent)) key
        = Some Issue.resolved).
Proof.
  intros Hfind. split; [|split].
  - intros req Hk. split.
    + intros Hs. now apply (accept_rejected find_other now req db key issue).
    + intros Ha Ho. apply (accept_assigns find_other now req db key issue); try assumption.
      now apply active_not_resolved_or_closed.
  - intros me helperId helper _ Hme Hne Hh. unfold IssueController.assignIssue.
    apply String.eqb_neq in Hne. rewrite Hne, Hfind, Hme, String.eqb_refl, Hh. simpl.
    eexists. split; [reflexivity|]. now split.
  - intros me sol spent _ Hme Hne. unfold IssueController.resolveIssue.
    apply String.eqb_neq in Hne. rewrite Hne, Hfind, Hme, String.eqb_refl. simpl.
    destruct (IssueController.User_findById _ me); simpl;
      unfold IssueController.Issue_findById; simpl;
      now rewrite lookup_insert_eq.
Qed.

Lemma status_changes_as_coded_witness :
  exists issue' : Issue.t,
    Handshake.accept Handshake.strings_only 0 (SocketService.mkAccept "u1" (Payload.VStr "u0") (Payload.VStr "i1"))
      (Sample.db Issue.open None)
    = (IssueController.Issue_save (Sample.db Issue.open None) "i1" issue', true,
       Handshake.assigned_notifications 0 0
         (SocketService.mkAccept "u1" (Payload.VStr "u0") (Payload.VStr "i1")))
    /\ Issue.status issue' = Issue.assigned
    /\ Issue.assignedTo issue' = Some "u1".
Proof.
  assert (Ha : Spec.active Issue.open) by (left; reflexivity).
  exact (proj2 (proj1 (status_changes_as_coded Handshake.strings_only 0 (Sample.db Issue.open None) "i1"
                         (Sample.vpn_issue Issue.open None) eq_refl)
                  (SocketService.mkAccept "u1" (Payload.VStr "u0") (Payload.VStr "i1"))
                  eq_refl)
           Ha eq_refl).
Defined.

(** C2, as stated: a backward status change would be rejected. The issue
    [i1] is in progress with helper [u2]; the owner's request is accepted by
    [u1], and the block stores status [assigned] and helper [u1]. *)
Lemma handshake_moves_in_progress_back :
  let req := SocketService.mkAccept "u1" (Payload.VStr "u0") (Payload.VStr "i1") in
  let db := Sample.db Issue.in_progress (Some "u2") in
  let db' := fst (fst (Handshake.accept Handshake.strings_only 0 req db)) in
  Issue.status <$> IssueController.Issue_findById db "i1" = Some Issue.in_progress
  /\ Issue.status <$> IssueController.Issue_findById db' "i1" = Some Issue.assigned
  /\ Issue.assignedTo <$> IssueController.Issue_findById db' "i1" = Some (Some "u1")
  /\ ~ Spec.forward Issue.in_progress Issue.assigned.
Proof.
  repeat split; try reflexivity.
  unfold Spec.forward. simpl. lia.
Qed.

(** The direct assignment has no status guard at all: it also takes a
    resolved issue back to [assigned]. *)
Lemma assignIssue_reopens_resolved :
  Issue.status
    <$> IssueController.Issue_findById
          (fst (IssueController.assignIssue (Sample.db Issue.resolved (Some "u1"))
                  "i1" "u0" (Some "u2")))
          "i1"
  = Some Issue.assigned.
Proof. reflexivity. Qed.

Section RaceInvariant.
Import Payload SocketService IssueController Handshake Race.

Variable find_other : DB -> value -> option string.
Variable c : scenario.
Variable now : Z.
Hypothesis owner_named : method_toString (owner c) = Some (Issue.postedBy (issue0 c)).
Hypothesis still_active : resolved_or_closed (Issue.status (issue0 c)) = false.

Lemma task_ok_mono (stored stored' : Issue.t) (log log' : list emission)
    (rt : accept_request * task) :
  (assigned_to_responder c stored -> assigned_to_responder c stored') ->
  incl log log' ->
  task_ok c now stored log rt -> task_ok c now stored' log' rt.
Proof.
  intros Hw Hl [Hreq Ht]. split; [assumption|].
  destruct (snd rt) as [|doc| |b].
  - exact I.
  - destruct Ht as (d & -> & Hd & Hwd). exists d.
    split; [reflexivity|]. split; [exact Hd|]. intros H. apply Hw, Hwd, H.
  - apply Hw, Ht.
  - destruct Ht as (-> & Hws & Hin).
    split; [reflexivity|]. split; [apply Hw, Hws|].
    intros e He. apply Hl, Hin, He.
Qed.

Lemma doc_ok_active (d : Issue.t) :
  doc_ok c d -> resolved_or_closed (Issue.status d) = false.
Proof.
  intros [_ [-> | [Hs _]]]; [assumption|]. now rewrite Hs.
Qed.

Lemma doc_ok_checked (req : accept_request) (d : Issue.t) :
  req_ok c req -> doc_ok c d ->
  checked req d
  = Some (Issue.set_status Issue.assigned
            (Issue.set_assignedTo (Some (responder req)) d)).
Proof.
  intros (_ & Ho & _) Hd. apply checked_passes.
  - rewrite Ho, owner_named. f_equal. symmetry. apply Hd.
  - now apply doc_ok_active.
Qed.

Lemma saved_assigned_to_responder (r : string) (d stored : Issue.t) :
  is_responder c r -> doc_ok c d -> doc_ok c stored ->
  (assigned_to_responder c d -> assigned_to_responder c stored) ->
  assigned_to_responder c
    (save_changes d (Issue.set_status Issue.assigned
                       (Issue.set_assignedTo (Some r) d)) stored).
Proof.
  intros Hr [_ Hd] [_ Hs] Hds. unfold assigned_to_responder.
  rewrite save_changes_status, save_changes_assignedTo.
  cbn [Issue.status Issue.assignedTo Issue.set_status Issue.set_assignedTo]. split.
  - destruct (Issue.Status_eqb Issue.assigned (Issue.status d)) eqn:E; [|reflexivity].
    apply Status_eqb_eq in E.
    destruct Hs as [-> | [Hs _]]; [|assumption].
    destruct Hd as [-> | Hwd]; [congruence | apply (Hds Hwd)].
  - case_bool_decide as E; [|eauto].
    destruct Hs as [-> | (_ & r' & Hr' & Hs)]; [|eauto].
    destruct Hd as [-> | Hwd]; [eauto | apply (Hds Hwd)].
Qed.

Lemma task_step_ok (db : DB) (log : list emission) (stored : Issue.t)
    (req : accept_request) (t : task) :
  issues db !! key c = Some stored ->
  doc_ok c stored ->
  task_ok c now stored log (req, t) ->
  exists (db' : DB) (t' : task) (out : list emission) (stored' : Issue.t),
    task_step find_other now req t db = (db', t', out)
    /\ issues db' !! key c = Some stored'
    /\ doc_ok c stored'
    /\ (assigned_to_responder c stored -> assigned_to_responder c stored')
    /\ task_ok c now stored' (log ++ out) (req, t')
    /\ stage t' = Nat.min 3 (S (stage t)).
Proof.
  intros Hst Hok [Hreq Ht]. simpl in Hreq, Ht.
  destruct t as [|doc| |b]; simpl.
  - (* the read *)
    exists db, (Loaded (Some (key c, stored))), [], stored.
    pose proof Hreq as (Hr & Ho & Hk).
    rewrite Hk, findById_value_string. unfold Issue_findById. rewrite Hst.
    split; [reflexivity|]. split; [reflexivity|]. split; [assumption|].
    split; [tauto|]. split; [|reflexivity].
    split; [assumption|]. simpl. exists stored.
    split; [reflexivity|]. split; [assumption | tauto].
  - (* the checks and the write *)
    destruct Ht as (d & -> & Hd & Hwd).
    rewrite (doc_ok_checked req d Hreq Hd).
    pose proof Hreq as (Hr & Ho & Hk). unfold Issue_save_changes. rewrite Hst.
    set (stored' := save_changes d _ stored).
    assert (Hw' : assigned_to_responder c stored')
      by now apply saved_assigned_to_responder.
    exists (Issue_save db (key c) stored'), Saved, [], stored'.
    split; [reflexivity|]. split; [simpl; apply lookup_insert_eq|].
    split.
    { split; [|now right]. unfold stored'. rewrite save_changes_postedBy. apply Hok. }
    split; [tauto|]. split; [|reflexivity].
    split; assumption.
  - (* the notifications *)
    exists db, (Finished true), (assigned_notifications now now req), stored.
    split; [reflexivity|]. split; [assumption|]. split; [assumption|].
    split; [tauto|]. split; [|reflexivity].
    split; [assumption|]. simpl.
    split; [reflexivity|]. split; [assumption|].
    intros e He. apply in_or_app. now right.
  - exists db, (Finished b), [], stored.
    destruct Ht as (-> & Hw & Hin).
    split; [reflexivity|]. split; [assumption|]. split; [assumption|].
    split; [tauto|]. split; [|reflexivity].
    split; [assumption|]. simpl.
    split; [reflexivity|]. split; [assumption|].
    intros e He. apply in_or_app. left. now apply Hin.
Qed.

Lemma step_invariant (s : system) (i : nat) :
  invariant c now s -> invariant c now (step find_other now s i).
Proof.
  intros (stored & Hst & Hok & Hall). unfold step.
  destruct (tasks s !! i) as [[req t]|] eqn:Hi; [|now exists stored].
  pose proof (Forall_lookup_1 _ _ _ _ Hall Hi) as Hrt.
  destruct (task_step_ok (store s) (log s) stored req t Hst Hok Hrt)
    as (db' & t' & out & stored' & -> & Hst' & Hok' & Hw & Hrt' & _).
  exists stored'. simpl. split; [assumption|]. split; [assumption|].
  apply Forall_insert; [|assumption].
  eapply Forall_impl; [exact Hall|].
  intros rt. apply task_ok_mono; [assumption|].
  intros e He. apply in_or_app. now left.
Qed.

Lemma step_progress (s : system) (i : nat) (req : accept_request) (t : task) :
  invariant c now s ->
  tasks s !! i = Some (req, t) ->
  exists t', tasks (step find_other now s i) !! i = Some (req, t')
             /\ stage t' = Nat.min 3 (S (stage t)).
Proof.
  intros (stored & Hst & Hok & Hall) Hi. unfold step. rewrite Hi.
  pose proof (Forall_lookup_1 _ _ _ _ Hall Hi) as Hrt.
  destruct (task_step_ok (store s) (log s) stored req t Hst Hok Hrt)
    as (db' & t' & out & stored' & -> & _ & _ & _ & _ & Hstage).
  exists t'. simpl. split; [|assumption].
  apply list_lookup_insert_eq. eapply lookup_lt_Some. eassumption.
Qed.

Lemma step_other (s : system) (i j : nat) :
  i <> j -> tasks (step find_other now s i) !! j = tasks s !! j.
Proof.
  intros Hne. unfold step.
  destruct (tasks s !! i) as [[req t]|]; [|reflexivity].
  destruct (task_step find_other now req t (store s)) as [[db' t'] out]. simpl.
  now apply list_lookup_insert_ne.
Qed.

Lemma run_invariant (schedule : list nat) (s : system) :
  invariant c now s -> invariant c now (run find_other now schedule s).
Proof.
  revert s. induction schedule as [|i schedule IH]; intros s Hinv; [assumption|].
  simpl. apply IH. now apply step_invariant.
Qed.

Lemma run_progress (schedule : list nat) (s : system) (i : nat)
    (req : accept_request) (t : task) :
  invariant c now s ->
  tasks s !! i = Some (req, t) ->
  exists t', tasks (run find_other now schedule s) !! i = Some (req, t')
             /\ stage t' = Nat.min 3 (stage t + count_occ Nat.eq_dec schedule i).
Proof.
  revert s t. induction schedule as [|j schedule IH]; intros s t Hinv Hi.
  - exists t. split; [assumption|]. simpl. destruct t; simpl; lia.
  - simpl run. simpl count_occ. destruct (Nat.eq_dec j i) as [->|Hne].
    + destruct (step_progress s i req t Hinv Hi) as (t1 & Hi1 & Hs1).
      destruct (IH (step find_other now s i) t1 (step_invariant s i Hinv) Hi1) as (t' & Ht' & Hs').
      exists t'. split; [assumption|]. lia.
    + destruct (IH (step find_other now s j) t (step_invariant s j Hinv)) as (t' & Ht' & Hs').
      { now rewrite step_other. }
      exists t'. split; [assumption|]. lia.
Qed.

Lemma start_invariant (db : DB) :
  issues db !! key c = Some (issue0 c) ->
  invariant c now (start db (requests c)).
Proof.
  intros Hst. exists (issue0 c). split; [assumption|].
  split; [split; [reflexivity | now left]|].
  simpl. repeat constructor; simpl; unfold is_responder; tauto.
Qed.

End RaceInvariant.

(** C1, as the code has it. The block loads, checks and saves without a
    conditional update. When the issue is stored with the named owner and is
    neither resolved nor closed, two accepted responses both go through under
    every interleaving of their blocks: each block ends with its two
    [issue:assigned] notifications, and the issue is left with status
    [assigned] and one of the two responders as its helper. *)
Theorem accepted_responses_both_assign
    (find_other : IssueController.DB -> Payload.value -> option string)
    (c : Race.scenario) (now : Z) (db : IssueController.DB) (schedule : list nat) :
  IssueController.Issue_findById db (Race.key c) = Some (Race.issue0 c) ->
  Handshake.method_toString (Race.owner c) = Some (Issue.postedBy (Race.issue0 c)) ->
  Handshake.resolved_or_closed (Issue.status (Race.issue0 c)) = false ->
  (3 <= count_occ Nat.eq_dec schedule 0)%nat ->
  (3 <= count_occ Nat.eq_dec schedule 1)%nat ->
  let s := Handshake.run find_other now schedule
             (Handshake.start db (Race.requests c)) in
  Handshake.outcome s 0 = Some (Handshake.Finished true)
  /\ Handshake.outcome s 1 = Some (Handshake.Finished true)
  /\ (forall req : SocketService.accept_request,
        In req (Race.requests c) ->
        incl (Handshake.assigned_notifications now now req) (Handshake.log s))
  /\ exists stored : Issue.t,
       IssueController.Issue_findById (Handshake.store s) (Race.key c) = Some stored
       /\ Issue.status stored = Issue.assigned
       /\ (Issue.assignedTo stored = Some (Race.r1 c)
           \/ Issue.assignedTo stored = Some (Race.r2 c)).
Proof.
  intros Hfind Ho Ha H0 H1 s.
  pose proof (start_invariant c now db Hfind) as Hinv0.
  pose proof (run_invariant find_other c now Ho Ha schedule _ Hinv0) as Hinv.
  destruct (run_progress find_other c now Ho Ha schedule _ 0 _ Handshake.Pending Hinv0 eq_refl)
    as (t0 & Ht0 & Hs0).
  destruct (run_progress find_other c now Ho Ha schedule _ 1 _ Handshake.Pending Hinv0 eq_refl)
    as (t1 & Ht1 & Hs1).
  fold s in Hinv, Ht0, Ht1.
  destruct Hinv as (stored & Hst & Hok & Hall).
  pose proof (Forall_lookup_1 _ _ _ _ Hall Ht0) as [_ Hk0].
  pose proof (Forall_lookup_1 _ _ _ _ Hall Ht1) as [_ Hk1].
  change (Race.stage Handshake.Pending) with 0%nat in Hs0, Hs1.
  simpl in Hk0, Hk1.
  destruct t0 as [| | |b0]; cbn [Race.stage] in Hs0; try lia.
  destruct t1 as [| | |b1]; cbn [Race.stage] in Hs1; try lia.
  destruct Hk0 as (-> & Hw & Hin0). destruct Hk1 as (-> & _ & Hin1).
  unfold Handshake.outcome. rewrite Ht0, Ht1.
  split; [reflexivity|]. split; [reflexivity|]. split.
  - intros req [<-|[<-|[]]]; assumption.
  - exists stored. split; [assumption|].
    destruct Hw as (Hs & r & [->| ->] & Hr); tauto.
Qed.

Lemma accepted_responses_both_assign_witness :
  let s := Handshake.run Handshake.strings_only 0 [0; 1; 1; 0; 0; 1]%nat
             (Handshake.start (Sample.db Issue.open None)
                (Race.requests (Sample.two_helpers Issue.open None))) in
  Handshake.outcome s 0 = Some (Handshake.Finished true)
  /\ Handshake.outcome s 1 = Some (Handshake.Finished true).
Proof.
  assert (H3 : (3 <= count_occ Nat.eq_dec [0; 1; 1; 0; 0; 1] 0)%nat) by (simpl; lia).
  assert (H3' : (3 <= count_occ Nat.eq_dec [0; 1; 1; 0; 0; 1] 1)%nat) by (simpl; lia).
  pose proof (accepted_responses_both_assign Handshake.strings_only
                (Sample.two_helpers Issue.open None) 0
                (Sample.db Issue.open None) [0; 1; 1; 0; 0; 1]%nat
                eq_refl eq_refl eq_refl H3 H3') as H.
  split; [exact (proj1 H) | exact (proj1 (proj2 H))].
Defined.

(** C1, as stated: of two concurrent accepted responses exactly one would
    assign the issue and the other would fail. Here [u1] and [u2] accept the
    request of [u0] for the open issue [i1] and their blocks alternate: both
    load the open issue, both pass the checks and save, both notify; the
    issue ends with helper [u2], and four [issue:assigned] events are out. *)
Lemma both_accepted_responses_succeed :
  let s := Handshake.run Handshake.strings_only 0 [0; 1; 0; 1; 0; 1]%nat
             (Handshake.start (Sample.db Issue.open None)
                (Race.requests (Sample.two_helpers Issue.open None))) in
  Handshake.outcome s 0 = Some (Handshake.Finished true)
  /\ Handshake.outcome s 1 = Some (Handshake.Finished true)
  /\ Issue.assignedTo <$> IssueController.Issue_findById (Handshake.store s) "i1"
     = Some (Some "u2")
  /\ map (fun e => (SocketService.to e, SocketService.event e)) (Handshake.log s)
     = [ (SocketService.Room "user:u1", "issue:assigned");
         (SocketService.Room "user:u0", "issue:assigned");
         (SocketService.Room "user:u2", "issue:assigned");
         (SocketService.Room "user:u0", "issue:assigned") ]
  /\ ~ Spec.exactly_one
         (Handshake.outcome s 0 = Some (Handshake.Finished true))
         (Handshake.outcome s 1 = Some (Handshake.Finished true)).
Proof.
  cbv zeta.
  assert (H0 : Handshake.outcome
                 (Handshake.run Handshake.strings_only 0 [0; 1; 0; 1; 0; 1]%nat
                    (Handshake.start (Sample.db Issue.open None)
                       (Race.requests (Sample.two_helpers Issue.open None)))) 0
               = Some (Handshake.Finished true)) by (vm_compute; reflexivity).
  assert (H1 : Handshake.outcome
                 (Handshake.run Handshake.strings_only 0 [0; 1; 0; 1; 0; 1]%nat
                    (Handshake.start (Sample.db Issue.open None)
                       (Race.requests (Sample.two_helpers Issue.open None)))) 1
               = Some (Handshake.Finished true)) by (vm_compute; reflexivity).
  split; [exact H0|]. split; [exact H1|].
  split; [vm_compute; reflexivity|]. split; [vm_compute; reflexivity|].
  intros [[_ Hn] | [Hn _]]; contradiction.
Qed.

(** The same two responses one after the other: the second finds the issue
    assigned to [u1], which the guard lets pass, and takes it over. *)
Lemma later_response_takes_over :
  let req1 := SocketService.mkAccept "u1" (Payload.VStr "u0") (Payload.VStr "i1") in
  let req2 := SocketService.mkAccept "u2" (Payload.VStr "u0") (Payload.VStr "i1") in
  let '(db1, ok1, _) := Handshake.accept Handshake.strings_only 0 req1 (Sample.db Issue.open None) in
  let '(db2, ok2, _) := Handshake.accept Handshake.strings_only 0 req2 db1 in
  ok1 = true /\ ok2 = true
  /\ Issue.assignedTo <$> IssueController.Issue_findById db1 "i1" = Some (Some "u1")
  /\ Issue.assignedTo <$> IssueController.Issue_findById db2 "i1" = Some (Some "u2").
Proof. vm_compute. repeat split; reflexivity. Qed.

(** The three relations of the scoring rules determine their value. *)
Section SpecFunctional.
Import Spec.
Local Open Scope Q_scope.

Lemma availability_value_functional (a : string) (x y : Q) :
  availability_value a x -> availability_value a y -> x = y.
Proof. intros Hx Hy. destruct Hx; inversion Hy; subst; congruence. Qed.

Lemma priority_factor_functional (p : string) (x y : Q) :
  priority_factor p x -> priority_factor p y -> x = y.
Proof.
  intros Hx Hy.
  destruct Hx; inversion Hy; subst; try reflexivity;
    match goal with H : ~ In _ _ |- _ => exfalso; apply H; simpl; tauto end.
Qed.

Lemma domain_value_functional (u : User.t) (category : string) (x y : Q) :
  domain_value u category x -> domain_value u category y -> x = y.
Proof.
  intros Hx Hy. destruct Hx as [kw Hk Hc | Hn | kw0 Hk Hn];
    destruct Hy as [kw' Hk' Hc' | Hn' | kw0' Hk' Hn']; try reflexivity; exfalso.
  - apply (Hn' kw Hk).
  - apply (Hn' kw Hk Hc).
  - apply (Hn kw' Hk').
  - apply (Hn kw0' Hk').
  - apply (Hn kw' Hk' Hc').
  - apply (Hn' kw0 Hk).
Qed.

End SpecFunctional.

(** * Further properties of the code *)

Section PresenceFacts.
Import Payload SocketService Presence.

Lemma registry_eq (r1 r2 : Registry) :
  connectedUsers r1 = connectedUsers r2 -> userSockets r1 = userSockets r2 -> r1 = r2.
Proof. destruct r1, r2. simpl. now intros -> ->. Qed.

Lemma apply_forward_consistent (r : Registry) (e : lifecycle) :
  (forall uid s, connectedUsers r !! uid = Some s ->
                 id s = id (socket_of e) -> s = socket_of e) ->
  forward_consistent r -> forward_consistent (apply r e).
Proof.
  intros Hids Hinv uid s. destruct e as [c|c]; simpl in *.
  - rewrite lookup_insert. case_decide as Hu.
    + intros [= <-]. split; [assumption|]. rewrite lookup_insert_eq. congruence.
    + intros Hs. destruct (Hinv uid s Hs) as [Hus Hinvs]. split; [assumption|].
      rewrite lookup_insert_ne; [assumption|].
      intros Hid. apply Hu. rewrite (Hids uid s Hs (eq_sym Hid)) in Hus. congruence.
  - rewrite lookup_delete. case_decide as Hu; [discriminate|].
    intros Hs. destruct (Hinv uid s Hs) as [Hus Hinvs]. split; [assumption|].
    rewrite lookup_delete_ne; [assumption|].
    intros Hid. apply Hu. rewrite (Hids uid s Hs (eq_sym Hid)) in Hus. congruence.
Qed.

(** The sockets held by the registry after a trace are sockets of the trace. *)
Lemma replay_sockets (es : list lifecycle) (uid : string) (s : Socket) :
  connectedUsers (replay es) !! uid = Some s -> exists e, In e es /\ socket_of e = s.
Proof.
  unfold replay. induction es as [|e es IH] using rev_ind; simpl.
  - rewrite lookup_empty. discriminate.
  - rewrite foldl_app. simpl. destruct e as [c|c]; simpl.
    + rewrite lookup_insert. case_decide.
      * intros [= <-]. exists (Connect c). split; [apply in_or_app; right; now left|reflexivity].
      * intros H'. destruct (IH H') as (e & He & Hs). exists e.
        split; [apply in_or_app; now left | assumption].
    + rewrite lookup_delete. case_decide; [discriminate|].
      intros H'. destruct (IH H') as (e & He & Hs). exists e.
      split; [apply in_or_app; now left | assumption].
Qed.

End PresenceFacts.

(** X1. A connection followed by the disconnect of the same socket gives the
    registry back as it was, when the user was not connected and the socket
    id not registered before; and neither a connection nor a disconnect of
    one identity changes what the registry says of another identity. *)
Theorem connect_disconnect_round_trip
    (r : SocketService.Registry) (socket : SocketService.Socket) :
  SocketService.connectedUsers r !! SocketService.userId socket = None ->
  SocketService.userSockets r !! SocketService.id socket = None ->
  SocketService.handleDisconnect (SocketService.connection r socket) socket = r
  /\ (forall uid : string,
        uid <> SocketService.userId socket ->
        SocketService.lookup_socket (SocketService.connection r socket) uid
        = SocketService.lookup_socket r uid
        /\ SocketService.isUserOnline (SocketService.connection r socket) uid
           = SocketService.isUserOnline r uid
        /\ SocketService.isUserOnline (SocketService.handleDisconnect r socket) uid
           = SocketService.isUserOnline r uid).
Proof.
  intros Hu Hs. split.
  - apply registry_eq; simpl.
    + rewrite delete_insert_eq. now apply delete_id.
    + rewrite delete_insert_eq. now apply delete_id.
  - intros uid Hne. unfold SocketService.lookup_socket, SocketService.isUserOnline.
    simpl. rewrite lookup_insert_ne, lookup_delete_ne by congruence. now split.
Qed.

Lemma connect_disconnect_round_trip_witness :
  SocketService.handleDisconnect
    (SocketService.connection SocketService.empty Sample.first_socket)
    Sample.first_socket
  = SocketService.empty.
Proof.
  exact (proj1 (connect_disconnect_round_trip SocketService.empty Sample.first_socket
                  eq_refl eq_refl)).
Defined.

(** X2. Along every trace of connections and disconnects that starts with
    an empty registry and whose socket ids are unique, each user held as
    connected is held with a socket of that user, and the inverse map sends
    that socket's id back to the user. *)
Theorem replay_forward_consistent (es : list Presence.lifecycle) :
  Presence.ids_identify es ->
  Presence.forward_consistent (Presence.replay es).
Proof.
  unfold Presence.replay. induction es as [|e es IH] using rev_ind; intros Hids.
  - intros uid s. simpl. rewrite lookup_empty. discriminate.
  - rewrite foldl_app. simpl.
    assert (Hids' : Presence.ids_identify es).
    { intros e1 e2 H1 H2. apply Hids; apply in_or_app; now left. }
    apply apply_forward_consistent; [|now apply IH].
    intros uid s Hs Hid.
    destruct (replay_sockets es uid s Hs) as (e' & He' & <-).
    apply Hids; [apply in_or_app; now left | apply in_or_app; right; now left | assumption].
Qed.

Lemma replay_forward_consistent_witness :
  let r := Presence.replay [ Presence.Connect Sample.first_socket;
                             Presence.Connect Fixtures.vic_socket;
                             Presence.Disconnect Fixtures.vic_socket;
                             Presence.Connect Sample.second_socket ] in
  SocketService.connectedUsers r !! "u1" = Some Sample.second_socket
  /\ SocketService.userId Sample.second_socket = "u1"
  /\ SocketService.userSockets r !! "s2" = Some "u1".
Proof.
  assert (Hids : Presence.ids_identify
                   [ Presence.Connect Sample.first_socket;
                     Presence.Connect Fixtures.vic_socket;
                     Presence.Disconnect Fixtures.vic_socket;
                     Presence.Connect Sample.second_socket ]).
  { intros e1 e2 H1 H2. simpl in H1, H2.
    destruct H1 as [<-|[<-|[<-|[<-|[]]]]]; destruct H2 as [<-|[<-|[<-|[<-|[]]]]];
      simpl; intros H; try reflexivity; discriminate H. }
  assert (Hc : SocketService.connectedUsers
                 (Presence.replay [ Presence.Connect Sample.first_socket;
                                    Presence.Connect Fixtures.vic_socket;
                                    Presence.Disconnect Fixtures.vic_socket;
                                    Presence.Connect Sample.second_socket ]) !! "u1"
               = Some Sample.second_socket) by reflexivity.
  split; [exact Hc|].
  exact (replay_forward_consistent _ Hids "u1" Sample.second_socket Hc).
Defined.

(** X3. The list of connected users, the online test and the delivery of
    [notifyUser] agree: a user is listed exactly when it is online, it is
    listed once, and [notifyUser] delivers exactly then; after a connection
    the user's events go to the socket that connected last. *)
Theorem connected_users_online_notify
    (r : SocketService.Registry) (uid event : string) (data : Payload.value) :
  (In uid (SocketService.getConnectedUsers r)
   <-> SocketService.isUserOnline r uid = true)
  /\ NoDup (SocketService.getConnectedUsers r)
  /\ (Presence.notifyUser r uid event data = None
      <-> SocketService.isUserOnline r uid = false)
  /\ (forall socket : SocketService.Socket,
        Presence.notifyUser (SocketService.connection r socket)
          (SocketService.userId socket) event data
        = Some (SocketService.id socket, event, data)).
Proof.
  unfold SocketService.getConnectedUsers, SocketService.isUserOnline, Presence.notifyUser.
  split; [|split; [|split]].
  - rewrite <- list_elem_of_In, list_elem_of_fmap, bool_decide_eq_true. split.
    + intros ([k s] & -> & H). apply elem_of_map_to_list in H. simpl. eauto.
    + intros [s H]. exists (uid, s). split; [reflexivity|]. now apply elem_of_map_to_list.
  - apply NoDup_fst_map_to_list.
  - split.
    + intros H. apply bool_decide_eq_false. intros [s Hs]. rewrite Hs in H. discriminate.
    + intros H%bool_decide_eq_false%eq_None_not_Some. now rewrite H.
  - intros socket. simpl. now rewrite lookup_insert_eq.
Qed.

(** X4. A request that is answered with an error leaves both collections
    as they were: this holds for every failure of the direct assignment, of a
    vote, of an update and of a deletion, and for every error status of the
    resolution. *)
Theorem failed_requests_change_nothing (db : IssueController.DB) (id me : string) :
  (forall assignedTo : option string,
      Spec.signals_error (snd (IssueController.assignIssue db id me assignedTo)) ->
      fst (IssueController.assignIssue db id me assignedTo) = db)
  /\ (forall voteType : string,
        Spec.signals_error (snd (IssueController.voteIssue db id me voteType)) ->
        fst (IssueController.voteIssue db id me voteType) = db)
  /\ (forall (cast_skill : string -> string) (b : IssueCrud.body),
        Spec.signals_error (snd (IssueCrud.updateIssue cast_skill db id me b)) ->
        fst (IssueCrud.updateIssue cast_skill db id me b) = db)
  /\ (Spec.signals_error (snd (IssueCrud.deleteIssue db id me)) ->
      fst (IssueCrud.deleteIssue db id me) = db)
  /\ (forall (now : Z) (solution : option string) (timeSpent : option Q)
             (code : nat) (message : string),
        snd (IssueController.resolveIssue now db id me solution timeSpent)
        = IssueController.Fail code message ->
        fst (IssueController.resolveIssue now db id me solution timeSpent) = db).
Proof.
  split; [|split; [|split; [|split]]].
  - intros a. unfold IssueController.assignIssue.
    destruct a as [h|]; [|reflexivity].
    destruct (String.eqb h ""); [reflexivity|].
    destruct (IssueController.Issue_findById db id); [|reflexivity].
    destruct (negb _); [reflexivity|].
    destruct (IssueController.User_findById db h); [|reflexivity].
    simpl. intros [].
  - intros vt. unfold IssueController.voteIssue.
    destruct (negb _); [reflexivity|].
    destruct (IssueController.Issue_findById db id) as [issue|]; [|reflexivity].
    destruct (if String.eqb vt "upvote" then _ else _) as [issue1 [|]]; simpl;
      [intros [] | reflexivity].
  - intros cast b. unfold IssueCrud.updateIssue.
    destruct (IssueController.Issue_findById db id); [|reflexivity].
    destruct (negb _); [reflexivity|].
    destruct (_ || _); [reflexivity|]. simpl. intros [].
  - unfold IssueCrud.deleteIssue.
    destruct (IssueController.Issue_findById db id); [|reflexivity].
    destruct (negb _); [reflexivity|]. simpl. intros [].
  - intros now sol spent code msg. unfold IssueController.resolveIssue.
    destruct sol as [sol|]; [|reflexivity].
    destruct (String.eqb sol ""); [reflexivity|].
    destruct (IssueController.Issue_findById db id) as [issue|]; [|reflexivity].
    destruct (Issue.assignedTo issue); [|reflexivity].
    destruct (negb _); [reflexivity|].
    destruct (IssueController.User_findById _ me); simpl; discriminate.
Qed.

Section Resolution.
Import JS IssueController.
Local Open Scope Q_scope.

Lemma User_findById_id (db : DB) (me : string) (h : User.t) :
  User_findById db me = Some h -> User._id h = me.
Proof.
  unfold User_findById. intros H. apply find_some in H as [_ H].
  now apply String.eqb_eq in H.
Qed.

Lemma User_save_found (db : DB) (me : string) (h h' : User.t) :
  User_findById db me = Some h -> User._id h' = me ->
  User_findById (User_save db h') me = Some h'.
Proof.
  unfold User_findById, User_save. simpl. intros Hf <-.
  induction (users db) as [|u l IH]; [discriminate|].
  simpl in *.
  destruct (String.eqb (User._id u) (User._id h')) eqn:E.
  - simpl. now rewrite String.eqb_refl.
  - simpl. rewrite E. now apply IH.
Qed.

Lemma Math_min_mono (a b : Q) : a <= b -> Math_min a 1 <= Math_min b 1.
Proof.
  intros H. unfold Math_min.
  destruct (Qle_bool a 1) eqn:Ea; destruct (Qle_bool b 1) eqn:Eb;
    try apply Qle_bool_iff in Ea; try apply Qle_bool_iff in Eb; try lra.
  assert (~ a <= 1) by (rewrite <- Qle_bool_iff; congruence). lra.
Qed.

Lemma Math_max_mono (a b : Q) : a <= b -> Math_max 0 a <= Math_max 0 b.
Proof.
  intros H. unfold Math_max.
  destruct (Qle_bool 0 a) eqn:Ea; destruct (Qle_bool 0 b) eqn:Eb;
    try apply Qle_bool_iff in Ea; try apply Qle_bool_iff in Eb; try lra.
  assert (~ 0 <= b) by (rewrite <- Qle_bool_iff; congruence). lra.
Qed.

Lemma Qdiv_mono (a b c : Q) : 0 < c -> a <= b -> a / c <= b / c.
Proof.
  intros Hc H. apply Qmult_le_compat_r; [assumption|].
  apply Qinv_le_0_compat. lra.
Qed.

(** The score grows with its history and engagement parts when the skills,
    the department and the call are the same; the two calls end alike. *)
Lemma score_le_of_parts (now now' : Z) (u u' : User.t) (req : list string)
    (category priority : string) :
  User.skills u' = User.skills u ->
  User.department u' = User.department u ->
  User.historyScore u <= User.historyScore u' ->
  User.engagementScore now u <= User.engagementScore now' u' ->
  result_le (User.calculateHelperScore now u req category priority)
            (User.calculateHelperScore now' u' req category priority).
Proof.
  intros Hs Hd Hh He. unfold User.calculateHelperScore.
  assert (Hsk : User.skillScore u' req = User.skillScore u req).
  { unfold User.skillScore, User.matchingSkills, User.userSkillNames. now rewrite Hs. }
  assert (Hdom : User.domainScore u' category = User.domainScore u category).
  { unfold User.domainScore, User.dept. now rewrite Hd. }
  rewrite Hsk, Hdom.
  destruct (User.domainScore u category) as [domain|]; [|exact I].
  destruct (User.skillScore u req) as [skill|]; [|exact I].
  destruct (User.priorityMultiplier priority) as [factor|] eqn:Hf; [|exact I].
  pose proof (priorityMultiplier_range priority factor Hf) as [Hm _].
  unfold result_le.
  apply Qmult_le_compat_r; [|assumption].
  unfold User.skillWeight, User.historyWeight, User.domainWeight, User.engagementWeight.
  lra.
Qed.

Lemma add_resolved_history (spent : Q) (u : User.t) :
  User.historyScore u <= User.historyScore (add_resolved spent u).
Proof.
  unfold User.historyScore, User.pointsScore, User.resolvedScore, User.ratingScore.
  simpl.
  assert (H : Math_min (User.issuesResolved (User.contributions u) / 10) 1
              <= Math_min ((User.issuesResolved (User.contributions u) + 1) / 10) 1).
  { apply Math_min_mono, Qdiv_mono; lra. }
  lra.
Qed.

Lemma resolveIssue_success (now : Z) (db : DB) (id me sol : string)
    (spent : option Q) (issue : Issue.t) (helper : User.t) :
  Issue_findById db id = Some issue ->
  Issue.assignedTo issue = Some me ->
  sol <> "" ->
  User_findById db me = Some helper ->
  resolveIssue now db id me (Some sol) spent
  = (User_save (Issue_save db id (Issue.resolve now issue me sol spent))
       (add_resolved (match spent with Some q => q | None => 0 end) helper),
     Success (Issue.resolve now issue me sol spent)).
Proof.
  intros Hf Ha Hne Hu. unfold resolveIssue.
  apply String.eqb_neq in Hne. rewrite Hne, Hf, Ha, String.eqb_refl. simpl.
  change (User_findById (Issue_save db id (Issue.resolve now issue me sol spent)) me)
    with (User_findById db me).
  now rewrite Hu.
Qed.

End Resolution.

(** X5. When the assigned helper resolves an issue with a solution, the
    stored issue is resolved with the helper, the trimmed solution, the time
    of the request and the time spent; the helper's count of resolved issues
    grows by one and the time helped by the time spent, while the points
    stay; and a later call of the scoring method for the helper ends as it
    would for the old profile (with a number, with [NaN] or with the
    exception), a number being not below the one of the old profile. *)
Theorem resolveIssue_records_and_counts
    (now : Z) (db : IssueController.DB) (id me sol : string) (spent : option Q)
    (issue : Issue.t) (helper : User.t) :
  IssueController.Issue_findById db id = Some issue ->
  Issue.assignedTo issue = Some me ->
  sol <> "" ->
  IssueController.User_findById db me = Some helper ->
  let db' := fst (IssueController.resolveIssue now db id me (Some sol) spent) in
  let time := match spent with Some q => q | None => 0%Q end in
  exists (issue' : Issue.t) (helper' : User.t),
    snd (IssueController.resolveIssue now db id me (Some sol) spent)
    = IssueController.Success issue'
    /\ IssueController.Issue_findById db' id = Some issue'
    /\ Issue.status issue' = Issue.resolved
    /\ Issue.resolution issue'
       = Issue.mkResolution (Some (JS.trim sol)) (Some me) (Some now) time
    /\ Issue.assignedTo issue' = Some me
    /\ IssueController.User_findById db' me = Some helper'
    /\ User.issuesResolved (User.contributions helper')
       = (User.issuesResolved (User.contributions helper) + 1)%Q
    /\ User.totalTimeHelped (User.contributions helper')
       = (User.totalTimeHelped (User.contributions helper) + time)%Q
    /\ User.points (User.contributions helper') = User.points (User.contributions helper)
    /\ (forall (later : Z) (req : list string) (category priority : string),
          JS.result_le (User.calculateHelperScore later helper req category priority)
                       (User.calculateHelperScore later helper' req category priority)).
Proof.
  intros Hf Ha Hne Hu db' time. subst db'.
  rewrite (resolveIssue_success now db id me sol spent issue helper Hf Ha Hne Hu).
  exists (Issue.resolve now issue me sol spent),
         (IssueController.add_resolved time helper).
  simpl. split; [reflexivity|].
  split; [unfold IssueController.Issue_findById; simpl; apply lookup_insert_eq|].
  split; [reflexivity|]. split; [reflexivity|]. split; [assumption|].
  split.
  { apply (User_save_found _ me helper); [assumption|].
    simpl. now apply (User_findById_id db). }
  split; [reflexivity|]. split; [reflexivity|]. split; [reflexivity|].
  intros later req category priority.
  apply score_le_of_parts; try reflexivity.
  - apply add_resolved_history.
  - apply Qle_refl.
Qed.

Lemma resolveIssue_records_and_counts_witness :
  exists (issue' : Issue.t) (helper' : User.t),
    snd (IssueController.resolveIssue 7 (Sample.db Issue.assigned (Some "u1"))
           "i1" "u1" (Some "restarted the tunnel") (Some 30%Q))
    = IssueController.Success issue'
    /\ Issue.status issue' = Issue.resolved
    /\ IssueController.User_findById
         (fst (IssueController.resolveIssue 7 (Sample.db Issue.assigned (Some "u1"))
                 "i1" "u1" (Some "restarted the tunnel") (Some 30%Q))) "u1"
       = Some helper'
    /\ User.issuesResolved (User.contributions helper') = (5 + 1)%Q.
Proof.
  assert (Hne : "restarted the tunnel" <> "") by discriminate.
  destruct (resolveIssue_records_and_counts 7 (Sample.db Issue.assigned (Some "u1"))
              "i1" "u1" "restarted the tunnel" (Some 30%Q)
              (Sample.vpn_issue Issue.assigned (Some "u1")) Sample.netta
              eq_refl eq_refl Hne eq_refl)
    as (issue' & helper' & H1 & _ & H3 & _ & _ & H6 & H7 & _).
  exists issue', helper'. repeat split; assumption.
Defined.

(** X6. The resolution has no status guard: once resolved, the issue can be
    resolved again by its helper; the second request succeeds too, replaces
    the recorded solution by the new one, trimmed, and counts one more
    resolved issue for the helper. *)
Theorem resolveIssue_twice_counts_twice
    (now now2 : Z) (db : IssueController.DB) (id me sol sol2 : string)
    (spent spent2 : option Q) (issue : Issue.t) (helper : User.t) :
  IssueController.Issue_findById db id = Some issue ->
  Issue.assignedTo issue = Some me ->
  sol <> "" -> sol2 <> "" ->
  IssueController.User_findById db me = Some helper ->
  let db1 := fst (IssueController.resolveIssue now db id me (Some sol) spent) in
  let r2 := IssueController.resolveIssue now2 db1 id me (Some sol2) spent2 in
  Issue.status <$> IssueController.Issue_findById db1 id = Some Issue.resolved
  /\ exists (issue2 : Issue.t) (helper2 : User.t),
       snd r2 = IssueController.Success issue2
       /\ Issue.solution (Issue.resolution issue2) = Some (JS.trim sol2)
       /\ IssueController.User_findById (fst r2) me = Some helper2
       /\ User.issuesResolved (User.contributions helper2)
          = (User.issuesResolved (User.contributions helper) + 1 + 1)%Q.
Proof.
  intros Hf Ha Hne Hne2 Hu db1 r2. subst r2 db1.
  rewrite (resolveIssue_success now db id me sol spent issue helper Hf Ha Hne Hu).
  cbn [fst].
  set (issue1 := Issue.resolve now issue me sol spent).
  set (helper1 := IssueController.add_resolved _ helper).
  set (db1 := IssueController.User_save _ helper1).
  assert (Hid : User._id helper1 = me) by (simpl; now apply (User_findById_id db)).
  assert (Hf1 : IssueController.Issue_findById db1 id = Some issue1)
    by (unfold IssueController.Issue_findById; simpl; apply lookup_insert_eq).
  assert (Hu1 : IssueController.User_findById db1 me = Some helper1)
    by (apply (User_save_found _ me helper); assumption).
  split; [now rewrite Hf1|].
  rewrite (resolveIssue_success now2 db1 id me sol2 spent2 issue1 helper1 Hf1 Ha Hne2 Hu1).
  exists (Issue.resolve now2 issue1 me sol2 spent2),
         (IssueController.add_resolved
            (match spent2 with Some q => q | None => 0%Q end) helper1).
  split; [reflexivity|]. split; [reflexivity|].
  split; [|reflexivity].
  apply (User_save_found _ me helper1); [|assumption].
  change (IssueController.User_findById db1 me = Some helper1). exact Hu1.
Qed.

Lemma resolveIssue_twice_counts_twice_witness :
  exists (issue2 : Issue.t) (helper2 : User.t),
    snd (IssueController.resolveIssue 9
           (fst (IssueController.resolveIssue 7 (Sample.db Issue.assigned (Some "u1"))
                   "i1" "u1" (Some "first fix") None))
           "i1" "u1" (Some "second fix") None)
    = IssueController.Success issue2
    /\ Issue.solution (Issue.resolution issue2) = Some "second fix"
    /\ IssueController.User_findById
         (fst (IssueController.resolveIssue 9
                 (fst (IssueController.resolveIssue 7
                         (Sample.db Issue.assigned (Some "u1"))
                         "i1" "u1" (Some "first fix") None))
                 "i1" "u1" (Some "second fix") None)) "u1"
       = Some helper2
    /\ User.issuesResolved (User.contributions helper2) = (5 + 1 + 1)%Q.
Proof.
  assert (Hne : "first fix" <> "") by discriminate.
  assert (Hne2 : "second fix" <> "") by discriminate.
  exact (proj2 (resolveIssue_twice_counts_twice 7 9
                  (Sample.db Issue.assigned (Some "u1")) "i1" "u1"
                  "first fix" "second fix" None None
                  (Sample.vpn_issue Issue.assigned (Some "u1")) Sample.netta
                  eq_refl eq_refl Hne Hne2 eq_refl)).
Defined.

Section Ballots.
Import JS IssueController Spec Ballot.

Lemma voteIssue_step (db : DB) (id me vt : string) (issue : Issue.t) :
  Issue_findById db id = Some issue ->
  fst (voteIssue db id me vt) = db
  \/ exists issue1,
       fst (voteIssue db id me vt) = Issue_save db id issue1
       /\ has_voted issue1 me
       /\ (Issue.voteCount issue1 = Issue.voteCount issue + 1
           \/ Issue.voteCount issue1 = Issue.voteCount issue - 1)%Z
       /\ (length (Issue.upvotes issue1) + length (Issue.downvotes issue1)
           = length (Issue.upvotes issue) + length (Issue.downvotes issue) + 1)%nat.
Proof.
  intros Hf. unfold voteIssue. destruct (negb _); [now left|]. rewrite Hf.
  unfold Issue.addUpvote, Issue.addDownvote.
  destruct (Issue.canVote issue me); [|destruct (String.eqb vt "upvote"); now left].
  right. destruct (String.eqb vt "upvote"); simpl; eexists; (split; [reflexivity|]).
  - split; [|split].
    + left. simpl. apply in_or_app. right. now left.
    + left. unfold Issue.voteCount. simpl. rewrite length_app. simpl. lia.
    + simpl. rewrite length_app. simpl. lia.
  - split; [|split].
    + right. simpl. apply in_or_app. right. now left.
    + right. unfold Issue.voteCount. simpl. rewrite length_app. simpl. lia.
    + simpl. rewrite length_app. simpl. lia.
Qed.

Lemma votes_by_voted (db : DB) (id me : string) (vts : list string) (issue : Issue.t) :
  Issue_findById db id = Some issue -> has_voted issue me ->
  votes_by db id me vts = db.
Proof.
  intros Hf Hv. unfold votes_by. induction vts as [|vt vts IH]; [reflexivity|].
  simpl.
  assert (H : fst (voteIssue db id me vt) = db).
  { unfold voteIssue. destruct (negb _); [reflexivity|]. rewrite Hf.
    destruct (add_vote_rejected issue me Hv) as [-> ->].
    now destruct (String.eqb vt "upvote"). }
  now rewrite H.
Qed.

End Ballots.

(** X7. However many vote requests one identity sends for an issue, and
    whatever they say, the vote count of the issue ends at most one away from
    where it was, and the two vote arrays together grow by at most one
    entry. *)
Theorem repeated_votes_count_once
    (db : IssueController.DB) (id me : string) (voteTypes : list string)
    (issue : Issue.t) :
  IssueController.Issue_findById db id = Some issue ->
  exists issue' : Issue.t,
    IssueController.Issue_findById (Ballot.votes_by db id me voteTypes) id = Some issue'
    /\ (Z.abs (Issue.voteCount issue' - Issue.voteCount issue) <= 1)%Z
    /\ (length (Issue.upvotes issue') + length (Issue.downvotes issue')
        <= length (Issue.upvotes issue) + length (Issue.downvotes issue) + 1)%nat.
Proof.
  revert db. induction voteTypes as [|vt vts IH]; intros db Hf.
  - exists issue. split; [assumption|]. split; lia.
  - change (Ballot.votes_by db id me (vt :: vts))
      with (Ballot.votes_by (fst (IssueController.voteIssue db id me vt)) id me vts).
    destruct (voteIssue_step db id me vt issue Hf) as [-> | (issue1 & -> & Hv & Hc & Hl)].
    + now apply IH.
    + assert (Hf1 : IssueController.Issue_findById
                      (IssueController.Issue_save db id issue1) id = Some issue1)
        by (unfold IssueController.Issue_findById; simpl; apply lookup_insert_eq).
      rewrite (votes_by_voted _ id me vts issue1 Hf1 Hv).
      exists issue1. split; [assumption|].
      unfold Issue.voteCount in *. split; lia.
Qed.

Lemma repeated_votes_count_once_witness :
  exists issue' : Issue.t,
    IssueController.Issue_findById
      (Ballot.votes_by (Sample.db Issue.open None) "i1" "u1"
         ["upvote"; "upvote"; "downvote"; "upvote"]) "i1" = Some issue'
    /\ (Z.abs (Issue.voteCount issue'
               - Issue.voteCount (Sample.vpn_issue Issue.open None)) <= 1)%Z.
Proof.
  destruct (repeated_votes_count_once (Sample.db Issue.open None) "i1" "u1"
              ["upvote"; "upvote"; "downvote"; "upvote"]
              (Sample.vpn_issue Issue.open None) eq_refl)
    as (issue' & H1 & H2 & _).
  exists issue'. split; assumption.
Defined.

Section ApiInvariant.
Import IssueController Api.

Variable cast_skill : string -> string.
Variable find_other : DB -> Payload.value -> option string.

Lemma keeps_refl (x : Issue.t) : keeps x x.
Proof. unfold keeps. repeat split; apply incl_refl. Qed.

Lemma keeps_trans (x y z : Issue.t) : keeps x y -> keeps y z -> keeps x z.
Proof.
  intros (H1 & H2 & H3 & H4) (K1 & K2 & K3 & K4). unfold keeps.
  repeat split; try congruence; eapply incl_tran; eassumption.
Qed.

Lemma keeps_save_changes (loaded edited stored : Issue.t) :
  keeps stored (Handshake.save_changes loaded edited stored).
Proof.
  unfold Handshake.save_changes, keeps.
  destruct (Issue.Status_eqb _ _); destruct (bool_decide _); simpl;
    repeat split; apply incl_refl.
Qed.

Lemma handle_small_change (db : DB) (r : request) :
  small_change db (handle cast_skill find_other db r).
Proof.
  destruct r as [id me vt | id me a | now id me sol spent | now req | id me b | id me];
    simpl.
  - unfold voteIssue. destruct (negb _); [now left|].
    destruct (Issue_findById db id) as [issue|] eqn:Hf; [|now left].
    unfold Issue.addUpvote, Issue.addDownvote.
    destruct (Issue.canVote issue me); [|destruct (String.eqb vt "upvote"); now left].
    right; left. destruct (String.eqb vt "upvote"); simpl;
      eexists id, issue, _; (split; [exact Hf|]); (split; [|reflexivity]);
      unfold keeps; simpl; repeat split;
      try apply incl_refl; apply incl_appl, incl_refl.
  - unfold assignIssue. destruct a as [h|]; [|now left].
    destruct (String.eqb h ""); [now left|].
    destruct (Issue_findById db id) as [issue|] eqn:Hf; [|now left].
    destruct (negb _); [now left|].
    destruct (User_findById db h); [|now left]. simpl.
    right; left. eexists id, issue, _. split; [exact Hf|]. split; [|reflexivity].
    unfold keeps. simpl. repeat split; apply incl_refl.
  - unfold resolveIssue. destruct sol as [sol|]; [|now left].
    destruct (String.eqb sol ""); [now left|].
    destruct (Issue_findById db id) as [issue|] eqn:Hf; [|now left].
    destruct (Issue.assignedTo issue); [|now left].
    destruct (negb _); [now left|].
    right; left. exists id, issue, (Issue.resolve now issue me sol spent).
    split; [exact Hf|]. split; [unfold keeps; simpl; repeat split; apply incl_refl|].
    destruct (User_findById _ me); reflexivity.
  - destruct (accept_cases find_other now req db)
      as [-> | (k & issue & edited & _ & Hf & _ & ->)]; [now left|].
    right; left. eexists k, issue, _. split; [exact Hf|]. split; [|reflexivity].
    apply keeps_save_changes.
  - unfold IssueCrud.updateIssue.
    destruct (Issue_findById db id) as [issue|] eqn:Hf; [|now left].
    destruct (negb _); [now left|]. destruct (_ || _); [now left|]. simpl.
    right; left. eexists id, issue, _. split; [exact Hf|]. split; [|reflexivity].
    unfold keeps. simpl. repeat split; apply incl_refl.
  - unfold IssueCrud.deleteIssue.
    destruct (Issue_findById db id) as [issue|] eqn:Hf; [|now left].
    destruct (negb _); [now left|]. simpl. right; right. now exists id.
Qed.

Lemma small_change_keeps (db db' : DB) (id : string) (issue' : Issue.t) :
  small_change db db' ->
  Issue_findById db' id = Some issue' ->
  exists issue, Issue_findById db id = Some issue /\ keeps issue issue'.
Proof.
  unfold Issue_findById.
  intros [E | [(k & old & new & Hk & Hkeep & E) | (k & E)]] H; rewrite E in H.
  - exists issue'. split; [assumption | apply keeps_refl].
  - rewrite lookup_insert in H. case_decide as Hid.
    + injection H as <-. subst k. now exists old.
    + exists issue'. split; [assumption | apply keeps_refl].
  - rewrite lookup_delete in H. case_decide; [discriminate|].
    exists issue'. split; [assumption | apply keeps_refl].
Qed.

End ApiInvariant.

(** X8. After any sequence of votes, direct assignments, resolutions,
    accepted help responses, updates and deletions, an issue found in the
    collection was there before, with the same owner and the same category,
    and with every vote it had: none of these six kinds of requests creates
    an issue, moves it to another owner or category, or withdraws a vote.
    ([createIssue] and [addComment] are not among them.) *)
Theorem requests_keep_owner_and_votes
    (cast_skill : string -> string)
    (find_other : IssueController.DB -> Payload.value -> option string)
    (rs : list Api.request)
    (db : IssueController.DB) (id : string) (issue' : Issue.t) :
  IssueController.Issue_findById (Api.handle_all cast_skill find_other db rs) id
  = Some issue' ->
  exists issue : Issue.t,
    IssueController.Issue_findById db id = Some issue
    /\ Issue.postedBy issue' = Issue.postedBy issue
    /\ Issue.category issue' = Issue.category issue
    /\ incl (Issue.upvotes issue) (Issue.upvotes issue')
    /\ incl (Issue.downvotes issue) (Issue.downvotes issue').
Proof.
  revert db. induction rs as [|r rs IH]; intros db H.
  - exists issue'. split; [assumption|]. repeat split; apply incl_refl.
  - simpl in H. destruct (IH _ H) as (mid & Hmid & Hk).
    destruct (small_change_keeps _ _ id mid (handle_small_change cast_skill find_other db r) Hmid)
      as (issue & Hf & Hk0).
    exists issue. split; [assumption|].
    exact (keeps_trans issue mid issue' Hk0 Hk).
Qed.

Lemma requests_keep_owner_and_votes_witness :
  exists issue : Issue.t,
    IssueController.Issue_findById Sample.voted_db "i1" = Some issue
    /\ Issue.postedBy issue = "u0"
    /\ incl (Issue.upvotes issue) ["u1"; "u2"].
Proof.
  destruct (requests_keep_owner_and_votes (fun s => s) Handshake.strings_only
              [ Api.Vote "i1" "u2" "upvote"; Api.Assign "i1" "u0" (Some "u2");
                Api.Update "i1" "u0" (IssueCrud.mkBody (Some "high") None) ]
              Sample.voted_db "i1"
              (Issue.mkIssue "network" "high" Issue.assigned "u0" (Some "u2")
                 ["network"; "vpn"] Sample.no_resolution ["u1"; "u2"] [])
              eq_refl)
    as (issue & Hf & Hp & _ & Hu & _).
  exists issue. split; [assumption|]. split; [now rewrite <- Hp | assumption].
Defined.



(** X10. The owner of an issue that is not resolved or closed can store an
    empty list of required skills with an update, nothing checks the list;
    the helper suggestions for the issue then succeed with no helper at
    all. *)
Theorem update_to_no_skills_then_no_suggestions
    (cast_skill : string -> string) (RegExp_i : string -> option (string -> bool))
    (clock : nat -> Z) (db : IssueController.DB) (id me : string)
    (priority : option string) (issue : Issue.t) :
  IssueController.Issue_findById db id = Some issue ->
  Issue.postedBy issue = me ->
  Spec.active (Issue.status issue) ->
  let r := IssueCrud.updateIssue cast_skill db id me (IssueCrud.mkBody priority (Some [])) in
  (exists issue' : Issue.t,
      snd r = IssueController.Success issue' /\ Issue.requiredSkills issue' = [])
  /\ IssueController.getHelperSuggestions RegExp_i clock (fst r) id
     = IssueController.Success [].
Proof.
  intros Hf Ho Ha r. subst r. unfold IssueCrud.updateIssue.
  rewrite Hf, Ho, String.eqb_refl. simpl.
  assert (Hs : Issue.Status_eqb (Issue.status issue) Issue.resolved
               || Issue.Status_eqb (Issue.status issue) Issue.closed = false)
    by (destruct Ha as [-> | [-> | ->]]; reflexivity).
  rewrite Hs. simpl. split; [eexists; split; reflexivity|].
  unfold IssueController.getHelperSuggestions, IssueController.Issue_findById. simpl.
  rewrite lookup_insert_eq. simpl.
  now rewrite potentialHelpers_nil.
Qed.

Lemma update_to_no_skills_then_no_suggestions_witness :
  IssueController.getHelperSuggestions Sample.RegExp_plain (fun _ => 0%Z)
    (fst (IssueCrud.updateIssue (fun s => s) (Sample.db Issue.open None) "i1" "u0"
            (IssueCrud.mkBody None (Some []))))
    "i1"
  = IssueController.Success [].
Proof.
  assert (Ha : Spec.active Issue.open) by (left; reflexivity).
  exact (proj2 (update_to_no_skills_then_no_suggestions (fun s => s)
                  Sample.RegExp_plain (fun _ => 0%Z) (Sample.db Issue.open None)
                  "i1" "u0" None (Sample.vpn_issue Issue.open None)
                  eq_refl eq_refl Ha)).
Defined.

Section NotFound.
Import IssueController.

Variables (db : DB) (id : string).
Hypothesis missing : Issue_findById db id = None.

Lemma voteIssue_not_found (who vt : string) :
  JS.arr_includes ["upvote"; "downvote"] vt = true ->
  voteIssue db id who vt = (db, Fail 404 "Issue not found").
Proof. intros H. unfold voteIssue. now rewrite H, missing. Qed.

Lemma assignIssue_not_found (who helper : string) :
  helper <> "" -> assignIssue db id who (Some helper) = (db, Fail 404 "Issue not found").
Proof.
  intros H. apply String.eqb_neq in H. unfold assignIssue. now rewrite H, missing.
Qed.

Lemma resolveIssue_not_found (now : Z) (who sol : string) (spent : option Q) :
  sol <> "" ->
  resolveIssue now db id who (Some sol) spent = (db, Fail 404 "Issue not found").
Proof.
  intros H. apply String.eqb_neq in H. unfold resolveIssue. now rewrite H, missing.
Qed.

Lemma updateIssue_not_found (cast_skill : string -> string) (who : string)
    (b : IssueCrud.body) :
  IssueCrud.updateIssue cast_skill db id who b = (db, Fail 404 "Issue not found").
Proof. unfold IssueCrud.updateIssue. now rewrite missing. Qed.

Lemma deleteIssue_not_found (who : string) :
  IssueCrud.deleteIssue db id who = (db, Fail 404 "Issue not found").
Proof. unfold IssueCrud.deleteIssue. now rewrite missing. Qed.

Lemma getHelperSuggestions_not_found
    (RegExp_i : string -> option (string -> bool)) (clock : nat -> Z) :
  getHelperSuggestions RegExp_i clock db id = Fail 404 "Issue not found".
Proof. unfold getHelperSuggestions. now rewrite missing. Qed.

End NotFound.

(** X11. The owner can delete an issue in any status; afterwards the issue
    is gone while every other issue is as before, and each request that names
    it - a vote, an assignment, a resolution, an update, a second deletion,
    the helper suggestions - is answered with 404 and changes nothing. *)
Theorem deleteIssue_then_not_found
    (db : IssueController.DB) (id me : string) (issue : Issue.t) :
  IssueController.Issue_findById db id = Some issue ->
  Issue.postedBy issue = me ->
  let db' := fst (IssueCrud.deleteIssue db id me) in
  snd (IssueCrud.deleteIssue db id me) = IssueController.Success tt
  /\ IssueController.Issue_findById db' id = None
  /\ (forall other : string,
        other <> id ->
        IssueController.Issue_findById db' other = IssueController.Issue_findById db other)
  /\ (forall who : string,
        IssueController.voteIssue db' id who "upvote"
        = (db', IssueController.Fail 404 "Issue not found")
        /\ IssueController.voteIssue db' id who "downvote"
           = (db', IssueController.Fail 404 "Issue not found")
        /\ (forall helper : string,
              helper <> "" ->
              IssueController.assignIssue db' id who (Some helper)
              = (db', IssueController.Fail 404 "Issue not found"))
        /\ (forall (now : Z) (sol : string) (spent : option Q),
              sol <> "" ->
              IssueController.resolveIssue now db' id who (Some sol) spent
              = (db', IssueController.Fail 404 "Issue not found"))
        /\ (forall (cast_skill : string -> string) (b : IssueCrud.body),
              IssueCrud.updateIssue cast_skill db' id who b
              = (db', IssueController.Fail 404 "Issue not found"))
        /\ IssueCrud.deleteIssue db' id who
           = (db', IssueController.Fail 404 "Issue not found"))
  /\ (forall (RegExp_i : string -> option (string -> bool)) (clock : nat -> Z),
        IssueController.getHelperSuggestions RegExp_i clock db' id
        = IssueController.Fail 404 "Issue not found").
Proof.
  intros Hf Ho db'.
  assert (Hd : IssueCrud.deleteIssue db id me
               = (IssueCrud.Issue_delete db id, IssueController.Success tt)).
  { unfold IssueCrud.deleteIssue. now rewrite Hf, Ho, String.eqb_refl. }
  subst db'. rewrite Hd. cbn [fst snd].
  assert (Hn : IssueController.Issue_findById (IssueCrud.Issue_delete db id) id = None)
    by (unfold IssueController.Issue_findById; simpl; apply lookup_delete_eq).
  split; [reflexivity|]. split; [assumption|]. split; [|split].
  - intros other Hne. unfold IssueController.Issue_findById. simpl.
    now apply lookup_delete_ne.
  - intros who.
    split; [now apply voteIssue_not_found|].
    split; [now apply voteIssue_not_found|].
    split; [intros helper Hne; now apply assignIssue_not_found|].
    split; [intros now sol spent Hne; now apply resolveIssue_not_found|].
    split; [intros cast b; now apply updateIssue_not_found|].
    now apply deleteIssue_not_found.
  - intros RegExp_i clock. now apply getHelperSuggestions_not_found.
Qed.

Lemma deleteIssue_then_not_found_witness :
  IssueController.Issue_findById
    (fst (IssueCrud.deleteIssue (Sample.db Issue.resolved (Some "u1")) "i1" "u0")) "i1"
  = None.
Proof.
  exact (proj1 (proj2 (deleteIssue_then_not_found (Sample.db Issue.resolved (Some "u1"))
                         "i1" "u0" (Sample.vpn_issue Issue.resolved (Some "u1"))
                         eq_refl eq_refl))).
Defined.

Section ScoreFacts.
Import JS.
Local Open Scope Q_scope.

Lemma filter_map_length {A B} (f : A -> B) (p : B -> bool) (l : list A) :
  length (List.filter (fun x => p (f x)) l) = length (List.filter p (map f l)).
Proof.
  induction l as [|x l IH]; [reflexivity|]. simpl.
  destruct (p (f x)); simpl; now rewrite IH.
Qed.

Lemma skillScore_lower (u : User.t) (req : list string) :
  User.skillScore u req
  = match req with
    | [] => NaN
    | _ :: _ =>
        Num (inject_Z (Z.of_nat
               (length (List.filter (arr_includes (User.userSkillNames u))
                          (map toLowerCase req))))
             / inject_Z (Z.of_nat (length (map toLowerCase req))))
    end.
Proof.
  unfold User.skillScore, User.matchingSkills.
  destruct req as [|r req]; [reflexivity|].
  now rewrite (filter_map_length toLowerCase), length_map.
Qed.

Lemma pointsScore_cap (u : User.t) :
  100 <= User.points (User.contributions u) -> User.pointsScore u == 1.
Proof.
  intros H. unfold User.pointsScore, Math_min.
  assert (H1 : 1 <= User.points (User.contributions u) / 100)
    by (apply Qle_shift_div_l; lra).
  destruct (Qle_bool _ 1) eqn:E; [|reflexivity].
  apply Qle_bool_iff in E. lra.
Qed.

Lemma resolvedScore_cap (u : User.t) :
  10 <= User.issuesResolved (User.contributions u) -> User.resolvedScore u == 1.
Proof.
  intros H. unfold User.resolvedScore, Math_min.
  assert (H1 : 1 <= User.issuesResolved (User.contributions u) / 10)
    by (apply Qle_shift_div_l; lra).
  destruct (Qle_bool _ 1) eqn:E; [|reflexivity].
  apply Qle_bool_iff in E. lra.
Qed.

Lemma daysSinceLastActive_le (now : Z) (u u' : User.t) :
  (User.lastActive u <= User.lastActive u')%Z ->
  User.daysSinceLastActive now u' <= User.daysSinceLastActive now u.
Proof.
  intros H. unfold User.daysSinceLastActive.
  apply Qdiv_mono; [reflexivity|]. rewrite <- Zle_Qle. lia.
Qed.

Lemma recencyScore_mono (now : Z) (u u' : User.t) :
  (User.lastActive u <= User.lastActive u')%Z ->
  User.recencyScore now u <= User.recencyScore now u'.
Proof.
  intros H. unfold User.recencyScore. apply Math_max_mono.
  pose proof (daysSinceLastActive_le now u u' H) as Hd.
  assert (Hd30 : User.daysSinceLastActive now u' / 30
                 <= User.daysSinceLastActive now u / 30)
    by (apply Qdiv_mono; [reflexivity | assumption]).
  lra.
Qed.

Lemma recencyScore_expired (now : Z) (u : User.t) :
  (User.lastActive u + 30 * (1000 * 60 * 60 * 24) <= now)%Z ->
  User.recencyScore now u == 0.
Proof.
  intros H. unfold User.recencyScore, Math_max.
  assert (Hd : 30 <= User.daysSinceLastActive now u).
  { unfold User.daysSinceLastActive. apply Qle_shift_div_l; [reflexivity|].
    change 30 with (inject_Z 30). rewrite <- inject_Z_mult, <- Zle_Qle. lia. }
  assert (Hd30 : 1 <= User.daysSinceLastActive now u / 30)
    by (apply Qle_shift_div_l; lra).
  destruct (Qle_bool 0 _) eqn:E; [|reflexivity].
  apply Qle_bool_iff in E. lra.
Qed.

Lemma Math_min_compat (a b : Q) : a == b -> Math_min a 1 == Math_min b 1.
Proof.
  intros E. apply Qle_antisym; apply Math_min_mono; rewrite E; apply Qle_refl.
Qed.

Lemma Math_max_compat (a b : Q) : a == b -> Math_max 0 a == Math_max 0 b.
Proof.
  intros E. apply Qle_antisym; apply Math_max_mono; rewrite E; apply Qle_refl.
Qed.

Lemma it_is_a_keyword (category kw : string) :
  Spec.keyword_of category kw -> Spec.keyword_of category "it".
Proof.
  intros (kws & Hp & Hin). unfold Spec.keyword_of.
  unfold User.categoryToDepartments in *. cbn [prop] in *.
  repeat match type of Hp with
         | (if String.eqb category ?c then _ else _) = _ =>
             destruct (String.eqb category c);
             [injection Hp as <-; eexists; split; [reflexivity | simpl; tauto]|]
         end.
  discriminate Hp.
Qed.

End ScoreFacts.

(** X12. The skill score reads the names without regard to letter case: two
    lists of required skills with the same lower-case forms, against two
    candidates whose skill names have the same lower-case forms, get the same
    skill score. *)
Theorem skill_score_ignores_case (u u' : User.t) (req req' : list string) :
  map JS.toLowerCase req = map JS.toLowerCase req' ->
  map (fun sk => JS.toLowerCase (User.name sk)) (User.skills u)
  = map (fun sk => JS.toLowerCase (User.name sk)) (User.skills u') ->
  User.skillScore u req = User.skillScore u' req'.
Proof.
  intros Hreq Hu. rewrite !skillScore_lower.
  unfold User.userSkillNames. rewrite Hu, Hreq.
  destruct req as [|r req], req' as [|r' req']; try discriminate Hreq; reflexivity.
Qed.

Lemma skill_score_ignores_case_witness :
  User.skillScore Sample.netta ["NETWORK"; "Vpn"]
  = User.skillScore Sample.netta ["network"; "vpn"].
Proof.
  exact (skill_score_ignores_case Sample.netta Sample.netta
           ["NETWORK"; "Vpn"] ["network"; "vpn"] eq_refl eq_refl).
Defined.

(** X13. The history and recency parts saturate. Two candidates that differ
    only in their points, both with 100 or more, or only in their resolved
    issues, both with 10 or more, or only in a last activity that lies 30
    days or more back for both, get the same outcome of the scoring method:
    the same number, or [NaN] for both, or the exception for both. *)
Theorem score_saturates
    (now : Z) (u u' : User.t) (req : list string) (category priority : string) :
  User.skills u' = User.skills u ->
  User.department u' = User.department u ->
  User.availability u' = User.availability u ->
  User.rating u' = User.rating u ->
  (User.points (User.contributions u') == User.points (User.contributions u)
   \/ 100 <= User.points (User.contributions u)
      /\ 100 <= User.points (User.contributions u'))%Q ->
  (User.issuesResolved (User.contributions u')
   == User.issuesResolved (User.contributions u)
   \/ 10 <= User.issuesResolved (User.contributions u)
      /\ 10 <= User.issuesResolved (User.contributions u'))%Q ->
  (User.lastActive u' = User.lastActive u
   \/ User.lastActive u + 30 * (1000 * 60 * 60 * 24) <= now
      /\ User.lastActive u' + 30 * (1000 * 60 * 60 * 24) <= now)%Z ->
  JS.result_eq (User.calculateHelperScore now u req category priority)
               (User.calculateHelperScore now u' req category priority).
Proof.
  intros Hs Hd Ha Hr Hp Hi Hl.
  assert (Hps : (User.pointsScore u' == User.pointsScore u)%Q).
  { destruct Hp as [E | [H1 H2]].
    - unfold User.pointsScore. apply Math_min_compat. now rewrite E.
    - now rewrite !pointsScore_cap. }
  assert (Hrs : (User.resolvedScore u' == User.resolvedScore u)%Q).
  { destruct Hi as [E | [H1 H2]].
    - unfold User.resolvedScore. apply Math_min_compat. now rewrite E.
    - now rewrite !resolvedScore_cap. }
  assert (Hrc : (User.recencyScore now u' == User.recencyScore now u)%Q).
  { destruct Hl as [E | [H1 H2]].
    - unfold User.recencyScore, User.daysSinceLastActive. rewrite E. reflexivity.
    - now rewrite !recencyScore_expired. }
  unfold User.calculateHelperScore.
  assert (Hsk : User.skillScore u' req = User.skillScore u req).
  { unfold User.skillScore, User.matchingSkills, User.userSkillNames. now rewrite Hs. }
  assert (Hdom : User.domainScore u' category = User.domainScore u category).
  { unfold User.domainScore, User.dept. now rewrite Hd. }
  rewrite Hsk, Hdom.
  destruct (User.domainScore u category) as [domain|]; [|exact I].
  destruct (User.skillScore u req) as [skill|]; [|exact I].
  destruct (User.priorityMultiplier priority) as [factor|]; [|exact I].
  unfold JS.result_eq, User.historyScore, User.engagementScore, User.ratingScore,
    User.availabilityScore.
  rewrite Hps, Hrs, Hrc, Hr, Ha. reflexivity.
Qed.

Lemma score_saturates_witness :
  JS.result_eq
    (User.calculateHelperScore (40 * Sample.day) Sample.vic ["vpn"] "network" "high")
    (User.calculateHelperScore (40 * Sample.day)
       (User.mkUser "u2" "EMP002" "Vic" "Lam" (Some "Finance")
          [User.mkSkill "VPN" "expert" false; User.mkSkill "network" "beginner" false]
          (User.mkRating 5 3) (User.mkContributions 12 0 600 100)
          "busy" Sample.day true)
       ["vpn"] "network" "high").
Proof.
  apply score_saturates; try reflexivity.
  - right. split; vm_compute; discriminate.
  - right. split; vm_compute; discriminate.
  - right. split; vm_compute; discriminate.
Defined.

(** X14. The score respects the order of the profiles: with the same
    skills and department, for a candidate with at least as many points and
    resolved issues, at least as good a rating and availability, and an
    activity at least as recent, the scoring method ends as for the other
    one (with a number, with [NaN] or with the exception), and a number is
    never less. *)
Theorem score_monotone_in_profile
    (now : Z) (u u' : User.t) (req : list string) (category priority : string) :
  User.skills u' = User.skills u ->
  User.department u' = User.department u ->
  (User.points (User.contributions u) <= User.points (User.contributions u'))%Q ->
  (User.issuesResolved (User.contributions u)
   <= User.issuesResolved (User.contributions u'))%Q ->
  (User.average (User.rating u) <= User.average (User.rating u'))%Q ->
  (User.availabilityScore u <= User.availabilityScore u')%Q ->
  (User.lastActive u <= User.lastActive u')%Z ->
  JS.result_le (User.calculateHelperScore now u req category priority)
               (User.calculateHelperScore now u' req category priority).
Proof.
  intros Hs Hd Hp Hi Hr Ha Hl.
  apply score_le_of_parts; try assumption.
  - unfold User.historyScore, User.pointsScore, User.resolvedScore, User.ratingScore.
    assert (H1 : (JS.Math_min (User.points (User.contributions u) / 100) 1
                  <= JS.Math_min (User.points (User.contributions u') / 100) 1)%Q)
      by (apply Math_min_mono, Qdiv_mono; [reflexivity | assumption]).
    assert (H2 : (JS.Math_min (User.issuesResolved (User.contributions u) / 10) 1
                  <= JS.Math_min (User.issuesResolved (User.contributions u') / 10) 1)%Q)
      by (apply Math_min_mono, Qdiv_mono; [reflexivity | assumption]).
    assert (H3 : (User.average (User.rating u) / 5
                  <= User.average (User.rating u') / 5)%Q)
      by (apply Qdiv_mono; [reflexivity | assumption]).
    lra.
  - unfold User.engagementScore.
    pose proof (recencyScore_mono now u u' Hl) as H1.
    apply Qdiv_mono; [reflexivity | lra].
Qed.

Lemma score_monotone_in_profile_witness :
  JS.result_le
    (User.calculateHelperScore (3 * Sample.day) Sample.netta ["network"] "other" "low")
    (User.calculateHelperScore (3 * Sample.day)
       (User.mkUser "u1" "EMP001" "Netta" "Ray" (Some "IT Support")
          [User.mkSkill "Network" "advanced" true]
          (User.mkRating 5 11) (User.mkContributions 6 1 150 60)
          "available" Sample.day true)
       ["network"] "other" "low").
Proof.
  apply score_monotone_in_profile; try reflexivity; vm_compute; discriminate.
Defined.

(** X15. Every category that has department keywords has the keyword [it],
    and the department is searched for the keyword as a substring: for each
    such category a candidate whose department contains the letters [it]
    anywhere, in any letter case, gets the domain score 1. *)
Theorem department_containing_it_is_relevant
    (u : User.t) (category kw : string) :
  Spec.keyword_of category kw ->
  Spec.contains (User.dept u) "it" ->
  User.domainScore u category = Some 1%Q.
Proof.
  intros Hk Hc.
  assert (Hni : ~ JS.inherits category).
  { destruct Hk as (kws & Hkws & _). now apply (own_category_not_inherited category kws). }
  destruct (domainScore_returns u category Hni) as [domain Hdom].
  rewrite Hdom.
  destruct (domainScore_spec u category domain Hdom) as [kw' Hk' Hc' | Hn | kw0 Hk0 Hn];
    [reflexivity | |].
  - exfalso. apply (Hn kw Hk).
  - exfalso. apply (Hn "it"); [now apply (it_is_a_keyword category kw) | assumption].
Qed.

Lemma department_containing_it_is_relevant_witness :
  User.domainScore
    (User.mkUser "u9" "EMP009" "Fay" "Cole" (Some "Facilities")
       [] (User.mkRating 0 0) (User.mkContributions 0 0 0 0) "available" 0 true)
    "printer"
  = Some 1%Q.
Proof.
  apply (department_containing_it_is_relevant _ "printer" "support").
  - exists ["it"; "helpdesk"; "support"]. split; [reflexivity | simpl; tauto].
  - exists "facil", "ies". reflexivity.
Defined.

(** X16. The earlier scoring method multiplies the resolved-issue part by
    the rating part: for well-formed inputs its score lies between 0 and 1,
    and a candidate without rating gets no history credit, so that its score
    is 0.4 of the skill score plus 0.3 of the engagement score, however many
    issues it resolved. *)
Theorem legacy_score_range_and_history
    (now : Z) (u : User.t) (req : list string) :
  req <> [] ->
  (0 <= User.issuesResolved (User.contributions u))%Q ->
  (0 <= User.average (User.rating u) <= 5)%Q ->
  (User.lastActive u <= now)%Z ->
  JS.jsnum_le (JS.Num 0) (LegacyUser.calculateHelperScore now u req)
  /\ JS.jsnum_le (LegacyUser.calculateHelperScore now u req) (JS.Num 1)
  /\ ((User.average (User.rating u) == 0)%Q ->
      JS.jsnum_eq (LegacyUser.calculateHelperScore now u req)
        (JS.Num ((4 # 10) * Spec.ratio (Spec.matched_count u req) (length req)
                 + (3 # 10) * User.engagementScore now u))).
Proof.
  intros Hne Hr Ha Hl.
  assert (Hlen : (0 < length req)%nat) by (destruct req; [congruence | simpl; lia]).
  pose proof (ratio_bounds _ _ Hlen (matched_count_le u req)) as Hs.
  pose proof (engagementScore_unit now u Hl) as He.
  assert (Hm : (0 <= JS.Math_min (User.issuesResolved (User.contributions u) / 10) 1
                <= 1)%Q) by (apply Math_min_unit, Qdiv_nonneg; lra).
  assert (Hq : (0 <= User.average (User.rating u) / 5 <= 1)%Q)
    by (apply Qdiv_range; lra).
  unfold LegacyUser.calculateHelperScore. rewrite (skillScore_ratio u req Hne).
  unfold JS.jsnum_le, JS.jsnum_eq, LegacyUser.historyScore, LegacyUser.skillWeight,
    LegacyUser.historyWeight, LegacyUser.engagementWeight.
  set (s := Spec.ratio _ _) in *. set (e := User.engagementScore now u) in *.
  set (m := JS.Math_min _ 1) in *. set (q := (User.average (User.rating u) / 5)%Q) in *.
  assert (Hmq : (0 <= m * q <= 1)%Q).
  { split; [apply Qmult_le_0_compat; lra|].
    apply Qle_trans with (1 * q)%Q; [apply Qmult_le_compat_r; lra | lra]. }
  split; [lra|]. split; [lra|].
  intros H0. assert (Hq0 : (q == 0)%Q) by (unfold q; rewrite H0; reflexivity).
  rewrite Hq0. ring.
Qed.

Lemma legacy_score_range_and_history_witness :
  JS.jsnum_le (JS.Num 0)
    (LegacyUser.calculateHelperScore (3 * Sample.day) Sample.netta ["network"; "vpn"])
  /\ JS.jsnum_le
       (LegacyUser.calculateHelperScore (3 * Sample.day) Sample.netta ["network"; "vpn"])
       (JS.Num 1).
Proof.
  assert (Hne : ["network"; "vpn"] <> []) by discriminate.
  assert (Hr : (0 <= User.issuesResolved (User.contributions Sample.netta))%Q)
    by (vm_compute; discriminate).
  assert (Ha : (0 <= User.average (User.rating Sample.netta) <= 5)%Q)
    by (split; vm_compute; discriminate).
  assert (Hl : (User.lastActive Sample.netta <= 3 * Sample.day)%Z)
    by (vm_compute; discriminate).
  pose proof (legacy_score_range_and_history (3 * Sample.day) Sample.netta
                ["network"; "vpn"] Hne Hr Ha Hl) as H.
  split; [exact (proj1 H) | exact (proj1 (proj2 H))].
Defined.

Section PayloadFacts.
Import JS Payload.

Lemma prop_set_prop_eq (fields : list (string * value)) (k : string) (v : value) :
  prop (set_prop fields k v) k = Some v.
Proof.
  induction fields as [|[k' v'] r IH]; simpl.
  - now rewrite String.eqb_refl.
  - destruct (String.eqb k k') eqn:E; simpl.
    + now rewrite String.eqb_refl.
    + now rewrite E.
Qed.

Lemma prop_set_prop_ne (fields : list (string * value)) (k k0 : string) (v : value) :
  k0 <> k -> prop (set_prop fields k v) k0 = prop fields k0.
Proof.
  intros Hne. induction fields as [|[k' v'] r IH]; simpl.
  - apply String.eqb_neq in Hne. now rewrite Hne.
  - destruct (String.eqb k k') eqn:E; simpl.
    + apply String.eqb_eq in E. subst k'.
      apply String.eqb_neq in Hne. now rewrite Hne.
    + now rewrite IH.
Qed.

Lemma get_destructurable (data : value) (k : string) (v : value) :
  get data k = v -> v <> VUndefined -> destructurable data = true.
Proof. destruct data; simpl; intros <- H; congruence. Qed.

End PayloadFacts.

(** X17. A [comment:add] event cannot name its author. For a payload other
    than [undefined] and [null]: when the issue identifier converts to a
    string, the comment that is broadcast to the issue's room carries the
    sending socket's identity as [user], and every other property of the
    client's comment unchanged; when it does not convert, the handler throws
    and nothing is broadcast. *)
Theorem comment_author_is_the_sender
    (clock : nat -> Z) (socket : SocketService.Socket) (data : Payload.value) :
  Payload.destructurable data = true ->
  (forall topic,
     Payload.toString (Payload.get data "issueId") = Some topic ->
     exists fields,
       SocketService.dispatch clock SocketService.comment_add socket data
       = SocketService.Done
           [ SocketService.mkEmission
               (SocketService.Room ("issue:" ++ topic))
               "comment:added"
               [ ("issueId", Payload.get data "issueId");
                 ("comment", Payload.VObj fields) ]
               (Some (clock 0%nat)) ] None
       /\ JS.prop fields "user" = Some (SocketService.actor socket)
       /\ forall k, k <> "user" ->
            JS.prop fields k = JS.prop (Payload.spread (Payload.get data "comment")) k)
  /\ (Payload.toString (Payload.get data "issueId") = None ->
      SocketService.dispatch clock SocketService.comment_add socket data
      = SocketService.Throws).
Proof.
  intros Hd. split.
  - intros topic Ht. eexists. split; [|split].
    + simpl. unfold SocketService.handleNewComment, SocketService.on_room.
      rewrite Hd, Ht. reflexivity.
    + apply prop_set_prop_eq.
    + intros k Hk. now apply prop_set_prop_ne.
  - intros Ht. now apply (unprintable_room_key_throws clock _ socket data "issueId").
Qed.

Lemma comment_author_is_the_sender_witness :
  exists fields,
    SocketService.dispatch (fun _ => 0%Z) SocketService.comment_add
      Fixtures.vic_socket Fixtures.forged_comment
    = SocketService.Done
        [ SocketService.mkEmission (SocketService.Room "issue:i1") "comment:added"
            [ ("issueId", Payload.VStr "i1"); ("comment", Payload.VObj fields) ]
            (Some 0%Z) ] None
    /\ JS.prop fields "user" = Some (SocketService.actor Fixtures.vic_socket).
Proof.
  destruct (proj1 (comment_author_is_the_sender (fun _ => 0%Z) Fixtures.vic_socket
                     Fixtures.forged_comment eq_refl) "i1" eq_refl)
    as (fields & H1 & H2 & _).
  exists fields. split; [exact H1 | exact H2].
Defined.

(** X18. An accepted [help:respond] that names the owner of a stored issue
    which is not resolved or closed assigns that issue to the sender,
    whoever the sender is: the handler and its detached block read nothing
    but the payload and the issue, so no earlier [help:ask] is needed. The
    owner and the votes of the issue stay as they were. *)
Theorem accepted_response_assigns_sender
    (find_other : IssueController.DB -> Payload.value -> option string)
    (clock : nat -> Z) (now : Z) (socket : SocketService.Socket)
    (data : Payload.value) (db : IssueController.DB) (key : string)
    (issue : Issue.t) :
  Payload.get data "issueId" = Payload.VStr key ->
  Payload.get data "toUserId" = Payload.VStr (Issue.postedBy issue) ->
  Payload.truthy (Payload.get data "accepted") = true ->
  IssueController.Issue_findById db key = Some issue ->
  Handshake.resolved_or_closed (Issue.status issue) = false ->
  exists out req issue',
    SocketService.dispatch clock SocketService.help_respond socket data
    = SocketService.Done out (Some req)
    /\ Handshake.accept find_other now req db
       = (IssueController.Issue_save db key issue', true,
          Handshake.assigned_notifications now now req)
    /\ Issue.assignedTo issue' = Some (SocketService.userId socket)
    /\ Issue.status issue' = Issue.assigned
    /\ Issue.postedBy issue' = Issue.postedBy issue
    /\ Issue.upvotes issue' = Issue.upvotes issue
    /\ Issue.downvotes issue' = Issue.downvotes issue.
Proof.
  intros Hk Ho Ha Hfind Hs.
  assert (Hd : Payload.destructurable data = true)
    by (eapply get_destructurable; [exact Hk | discriminate]).
  set (req := SocketService.mkAccept (SocketService.userId socket)
                (Payload.get data "toUserId") (Payload.get data "issueId")).
  assert (Hdisp : exists out,
            SocketService.dispatch clock SocketService.help_respond socket data
            = SocketService.Done out (Some req)).
  { simpl. unfold SocketService.handleHelpRespond, SocketService.on_room,
      SocketService.user_room.
    rewrite Hd, Ha. fold req. rewrite Ho. cbn [Payload.toString].
    eexists. reflexivity. }
  destruct Hdisp as [out Hdisp].
  assert (Hko : Handshake.method_toString (SocketService.toUserId req)
                = Some (Issue.postedBy issue))
    by (unfold req; cbn [SocketService.toUserId]; now rewrite Ho).
  assert (Hki : SocketService.issueId req = Payload.VStr key) by exact Hk.
  exists out, req, (Handshake.save_changes issue
                      (Issue.set_status Issue.assigned
                         (Issue.set_assignedTo (Some (SocketService.responder req)) issue))
                      issue).
  split; [exact Hdisp|].
  split.
  { unfold Handshake.accept, Handshake.task_step.
    rewrite Hki, findById_value_string, Hfind, (checked_passes req issue Hko Hs).
    unfold Handshake.Issue_save_changes.
    unfold IssueController.Issue_findById in Hfind. now rewrite Hfind. }
  pose proof (save_changes_same issue
                (Issue.set_status Issue.assigned
                   (Issue.set_assignedTo (Some (SocketService.responder req)) issue)))
    as [H1 H2].
  split; [exact H2|]. split; [exact H1|].
  unfold Handshake.save_changes.
  destruct (Issue.Status_eqb _ _); destruct (bool_decide _); auto.
Qed.

Lemma accepted_response_assigns_sender_witness :
  exists out req issue',
    SocketService.dispatch (fun _ => 0%Z) SocketService.help_respond
      Fixtures.vic_socket Fixtures.unasked_response
    = SocketService.Done out (Some req)
    /\ Handshake.accept Handshake.strings_only 0 req
         (Sample.db Issue.in_progress (Some "u1"))
       = (IssueController.Issue_save (Sample.db Issue.in_progress (Some "u1")) "i1" issue',
          true, Handshake.assigned_notifications 0 0 req)
    /\ Issue.assignedTo issue' = Some "u2".
Proof.
  destruct (accepted_response_assigns_sender Handshake.strings_only
              (fun _ => 0%Z) 0 Fixtures.vic_socket
              Fixtures.unasked_response (Sample.db Issue.in_progress (Some "u1")) "i1"
              (Sample.vpn_issue Issue.in_progress (Some "u1"))
              eq_refl eq_refl eq_refl eq_refl eq_refl)
    as (out & req & issue' & H1 & H2 & H3 & _).
  exists out, req, issue'. split; [exact H1|]. split; [exact H2 | exact H3].
Defined.

(** X19. The detached assignment block succeeds exactly when
    [Issue.findById] gives an issue for its identifier, the named requester
    is that issue's owner and the issue is not resolved or closed; for an
    identifier that is a string, the issue given is the one stored under
    that string. In every other case it leaves the collection as it was and
    notifies nobody. *)
Theorem accept_succeeds_or_leaves_no_trace
    (find_other : IssueController.DB -> Payload.value -> option string)
    (now : Z) (req : SocketService.accept_request) (db : IssueController.DB) :
  ((Handshake.accept find_other now req db).1.2 = true <->
   exists key issue,
     Handshake.findById_value find_other db (SocketService.issueId req)
     = Some (key, issue)
     /\ Handshake.method_toString (SocketService.toUserId req)
        = Some (Issue.postedBy issue)
     /\ Handshake.resolved_or_closed (Issue.status issue) = false)
  /\ (forall key : string,
        SocketService.issueId req = Payload.VStr key ->
        ((Handshake.accept find_other now req db).1.2 = true <->
         exists issue,
           IssueController.Issue_findById db key = Some issue
           /\ Handshake.method_toString (SocketService.toUserId req)
              = Some (Issue.postedBy issue)
           /\ Handshake.resolved_or_closed (Issue.status issue) = false))
  /\ ((Handshake.accept find_other now req db).1.2 = false ->
      Handshake.accept find_other now req db = (db, false, [])).
Proof.
  assert (Hgen :
    (Handshake.accept find_other now req db).1.2 = true <->
    exists key issue,
      Handshake.findById_value find_other db (SocketService.issueId req)
      = Some (key, issue)
      /\ Handshake.method_toString (SocketService.toUserId req)
         = Some (Issue.postedBy issue)
      /\ Handshake.resolved_or_closed (Issue.status issue) = false).
  { destruct (accept_cases find_other now req db)
      as [Hrej | (key & issue & edited & Hf & Hi & Hc & Hacc)].
    - rewrite Hrej. simpl. split; [discriminate|].
      intros (key & issue & Hf & Ho & Hs). exfalso.
      unfold Handshake.accept, Handshake.task_step in Hrej.
      rewrite Hf, (checked_passes req issue Ho Hs) in Hrej.
      destruct (findById_value_found find_other db _ key issue Hf) as [Hi _].
      unfold Handshake.Issue_save_changes in Hrej.
      unfold IssueController.Issue_findById in Hi. rewrite Hi in Hrej.
      discriminate Hrej.
    - rewrite Hacc. simpl. split; [|reflexivity]. intros _.
      exists key, issue. split; [exact Hf|].
      unfold Handshake.checked in Hc.
      destruct (Handshake.method_toString (SocketService.toUserId req)) as [o|];
        [|discriminate].
      destruct (String.eqb (Issue.postedBy issue) o) eqn:Eo; [|discriminate].
      apply String.eqb_eq in Eo. subst o. simpl in Hc.
      destruct (Handshake.resolved_or_closed (Issue.status issue)); [discriminate|].
      now split. }
  split; [exact Hgen|]. split.
  - intros key Hk. rewrite Hgen, Hk, findById_value_string. split.
    + intros (k & issue & Hf & Ho & Hs).
      destruct (IssueController.Issue_findById db key) as [i|]; [|discriminate].
      injection Hf as <- <-. now exists i.
    + intros (issue & Hf & Ho & Hs). exists key, issue. now rewrite Hf.
  - destruct (accept_cases find_other now req db)
      as [Hrej | (key & issue & edited & _ & _ & _ & Hacc)].
    + intros _. exact Hrej.
    + rewrite Hacc. discriminate.
Qed.

Section SuggestionFacts.
Import JS IssueController.

Lemma matches_query_true (regexes : list (string -> bool)) (u : User.t) :
  matches_query regexes u = true <->
  User.isActive u = true
  /\ exists sk re, In sk (User.skills u) /\ In re regexes /\ re (User.name sk) = true.
Proof.
  unfold matches_query. rewrite andb_true_iff, existsb_exists. split.
  - intros [Ha (sk & Hsk & Hre)]. apply existsb_exists in Hre as (re & Hre & Ht).
    split; [exact Ha|]. now exists sk, re.
  - intros [Ha (sk & re & Hsk & Hre & Ht)]. split; [exact Ha|].
    exists sk. split; [exact Hsk|]. apply existsb_exists. now exists re.
Qed.

Lemma In_take {A} (n : nat) (l : list A) (x : A) : In x (take n l) -> In x l.
Proof.
  revert l. induction n as [|n IH]; intros [|y l]; simpl; try tauto.
  intros [H|H]; [now left | right; now apply IH].
Qed.

End SuggestionFacts.

(** X20. The suggestion operation compiles every required skill as a
    regular expression before it looks for candidates: when one of them is
    rejected as a pattern, the operation ends with the exception and
    suggests nobody, whatever the other skills are. *)
Theorem suggestions_fail_on_rejected_pattern
    (RegExp_i : string -> option (string -> bool)) (clock : nat -> Z)
    (db : IssueController.DB) (id : string) (issue : Issue.t) (skill : string) :
  IssueController.Issue_findById db id = Some issue ->
  In skill (Issue.requiredSkills issue) ->
  RegExp_i skill = None ->
  IssueController.getHelperSuggestions RegExp_i clock db id = IssueController.Thrown.
Proof.
  intros Hfind Hin Hnone. unfold IssueController.getHelperSuggestions.
  rewrite Hfind.
  destruct (mapM RegExp_i (Issue.requiredSkills issue)) as [regexes|] eqn:Hm;
    [|reflexivity].
  assert (Hs : is_Some (mapM RegExp_i (Issue.requiredSkills issue))) by eauto.
  apply mapM_is_Some in Hs. rewrite Forall_forall in Hs.
  apply list_elem_of_In in Hin. specialize (Hs skill Hin).
  unfold compose in Hs. rewrite Hnone in Hs. now destruct Hs.
Qed.

Lemma suggestions_fail_on_rejected_pattern_witness :
  IssueController.getHelperSuggestions Sample.RegExp_plain (fun _ => 0%Z)
    Fixtures.cpp_db "i2"
  = IssueController.Thrown.
Proof.
  apply (suggestions_fail_on_rejected_pattern Sample.RegExp_plain (fun _ => 0%Z)
           Fixtures.cpp_db "i2" Fixtures.cpp_issue "C++").
  - reflexivity.
  - simpl. tauto.
  - reflexivity.
Defined.

(** X21. When every required skill compiles, the suggestion operation
    answers with [min 10 n] helpers, where [n] is the number of active users
    with a skill name matched by one of the patterns. Every suggested helper
    is such a user of the collection, and when there are at most ten of them
    the answer holds each exactly as often as the collection does, the
    poster of the issue included. *)
Theorem suggestions_are_active_matching_users
    (RegExp_i : string -> option (string -> bool)) (clock : nat -> Z)
    (db : IssueController.DB) (id : string) (issue : Issue.t)
    (regexes : list (string -> bool)) :
  IssueController.Issue_findById db id = Some issue ->
  mapM RegExp_i (Issue.requiredSkills issue) = Some regexes ->
  exists helpers,
    IssueController.getHelperSuggestions RegExp_i clock db id
    = IssueController.Success helpers
    /\ (forall h, In h helpers ->
          In (fst h) (IssueController.users db)
          /\ User.isActive (fst h) = true
          /\ exists sk re,
               In sk (User.skills (fst h)) /\ In re regexes
               /\ re (User.name sk) = true)
    /\ length helpers
       = Nat.min 10 (length (IssueController.potentialHelpers regexes db))
    /\ ((length (IssueController.potentialHelpers regexes db) <= 10)%nat ->
        Permutation (map fst helpers) (IssueController.potentialHelpers regexes db)).
Proof.
  intros Hfind Hm.
  destruct (suggestions_success RegExp_i clock db id issue regexes Hfind Hm)
    as (scored & Hsc & ->).
  eexists. split; [reflexivity|].
  set (cands := IssueController.potentialHelpers regexes db) in *.
  assert (Hperm : Permutation (map fst (IssueController.Array_sort
                                          IssueController.compareFn scored)) cands).
  { rewrite <- (helpersWithScores_fst clock (Issue.requiredSkills issue) cands scored Hsc).
    apply Permutation_map, Array_sort_Permutation. }
  assert (Hlen : length (IssueController.Array_sort IssueController.compareFn scored)
                 = length cands).
  { rewrite <- (Permutation_length Hperm). now rewrite length_map. }
  split; [|split].
  - intros [u s] Hin. apply In_take in Hin.
    apply (Permutation_in _ (Array_sort_Permutation _ _)) in Hin.
    apply (helpersWithScores_elem clock _ cands scored u s Hsc) in Hin as [Hin _].
    unfold cands, IssueController.potentialHelpers in Hin.
    apply filter_In in Hin as [Hu Hq]. apply matches_query_true in Hq as [Ha Hsk].
    simpl. auto.
  - rewrite length_take, Hlen. reflexivity.
  - intros Hle. rewrite take_ge by (rewrite Hlen; exact Hle). exact Hperm.
Qed.

Lemma suggestions_are_active_matching_users_witness :
  exists helpers,
    IssueController.getHelperSuggestions Sample.RegExp_plain (fun _ => 0%Z)
      (Sample.db Issue.open None) "i1"
    = IssueController.Success helpers
    /\ length helpers = 2%nat.
Proof.
  destruct (suggestions_are_active_matching_users Sample.RegExp_plain (fun _ => 0%Z)
              (Sample.db Issue.open None) "i1" (Sample.vpn_issue Issue.open None)
              _ eq_refl eq_refl)
    as (helpers & H1 & _ & H3 & _).
  exists helpers. split; [exact H1 | exact H3].
Defined.

Section UserFacts.
Import JS IssueController UserController.
Local Open Scope Q_scope.
Local Open Scope list_scope.

Lemma verify_first (skillName : string) (skills : list User.Skill) (s : User.Skill) :
  In s skills ->
  toLowerCase (User.name s) = toLowerCase skillName ->
  exists l1 s0 l2,
    skills = l1 ++ s0 :: l2
    /\ Forall (fun x => toLowerCase (User.name x) <> toLowerCase skillName) l1
    /\ toLowerCase (User.name s0) = toLowerCase skillName
    /\ verify skillName skills
       = Some (User.mkSkill (User.name s0) (User.level s0) true,
               l1 ++ User.mkSkill (User.name s0) (User.level s0) true :: l2).
Proof.
  induction skills as [|x l IH]; intros Hin Hs; [destruct Hin|].
  simpl. destruct (String.eqb (toLowerCase (User.name x)) (toLowerCase skillName)) eqn:E.
  - apply String.eqb_eq in E. exists [], x, l. repeat split; auto.
  - apply String.eqb_neq in E. destruct Hin as [->|Hin]; [congruence|].
    destruct (IH Hin Hs) as (l1 & s0 & l2 & -> & Hl1 & Hs0 & ->).
    exists (x :: l1), s0, l2. repeat split; auto.
Qed.

Lemma verify_none (skillName : string) (skills : list User.Skill) :
  (forall s, In s skills -> toLowerCase (User.name s) <> toLowerCase skillName) ->
  verify skillName skills = None.
Proof.
  induction skills as [|x l IH]; intros H; [reflexivity|]. simpl.
  destruct (String.eqb (toLowerCase (User.name x)) (toLowerCase skillName)) eqn:E.
  - apply String.eqb_eq in E. destruct (H x); [now left | exact E].
  - rewrite IH; [reflexivity|]. intros s Hs. apply H. now right.
Qed.

(** The score reads the skills of a profile through the lower-case names
    only. *)
Lemma score_same_names (now : Z) (u u' : User.t) (req : list string)
    (category priority : string) :
  User.userSkillNames u' = User.userSkillNames u ->
  User.department u' = User.department u ->
  User.rating u' = User.rating u ->
  User.contributions u' = User.contributions u ->
  User.availability u' = User.availability u ->
  User.lastActive u' = User.lastActive u ->
  User.calculateHelperScore now u' req category priority
  = User.calculateHelperScore now u req category priority.
Proof.
  intros Hn Hd Hr Hc Ha Hl.
  unfold User.calculateHelperScore, User.skillScore, User.matchingSkills,
    User.historyScore, User.pointsScore, User.resolvedScore, User.ratingScore,
    User.domainScore, User.dept, User.engagementScore, User.recencyScore,
    User.daysSinceLastActive, User.availabilityScore.
  now rewrite Hn, Hd, Hr, Hc, Ha, Hl.
Qed.

Lemma filter_all {A} (p : A -> bool) (l : list A) :
  (forall x, In x l -> p x = true) -> List.filter p l = l.
Proof.
  induction l as [|x l IH]; intros H; [reflexivity|]. simpl.
  rewrite (H x) by now left. f_equal. apply IH. intros y Hy. apply H. now right.
Qed.

Lemma skillScore_full (u : User.t) (req : list string) :
  req <> [] ->
  (forall r, In r req -> In (toLowerCase r) (User.userSkillNames u)) ->
  jsnum_eq (User.skillScore u req) (Num 1).
Proof.
  intros Hne H. unfold User.skillScore, User.matchingSkills.
  rewrite filter_all.
  - destruct req as [|r req]; [congruence|]. unfold jsnum_eq.
    apply Qmult_inv_r. intros H0. unfold Qeq in H0. simpl in H0. lia.
  - intros r Hr. unfold arr_includes. apply existsb_exists.
    exists (toLowerCase r). split; [now apply H | apply String.eqb_refl].
Qed.

Lemma unique_by_key {A B} (f : A -> B) (l : list A) (x y : A) :
  List.NoDup (map f l) -> In x l -> In y l -> f x = f y -> x = y.
Proof.
  induction l as [|z l IH]; intros Hnd Hx Hy Hf; [destruct Hx|].
  simpl in Hnd. apply List.NoDup_cons_iff in Hnd as [Hz Hnd].
  destruct Hx as [->|Hx], Hy as [->|Hy]; auto.
  - destruct Hz. rewrite Hf. now apply in_map.
  - destruct Hz. rewrite <- Hf. now apply in_map.
Qed.

Lemma User_findById_In (db : DB) (id : string) (u : User.t) :
  User_findById db id = Some u -> In u (users db).
Proof. unfold User_findById. intros H. now apply find_some in H as [H _]. Qed.

(** Saving a document that has the standing of the stored one changes the
    standing of no user, when identifiers are unique. *)
Lemma User_save_standing (db : DB) (id : string) (u u' : User.t) :
  List.NoDup (map User._id (users db)) ->
  User_findById db id = Some u ->
  Backend.standing u' = Backend.standing u ->
  map Backend.standing (users (User_save db u')) = map Backend.standing (users db).
Proof.
  intros Hnd Hf Hst. unfold User_save. simpl. rewrite map_map.
  apply map_ext_in. intros x Hx.
  destruct (String.eqb (User._id x) (User._id u')) eqn:E; [|reflexivity].
  apply String.eqb_eq in E.
  assert (Hid : User._id u' = User._id u) by (unfold Backend.standing in Hst; congruence).
  assert (x = u).
  { apply (unique_by_key User._id (users db)); auto.
    - now apply User_findById_In in Hf.
    - congruence. }
  now subst x.
Qed.

Lemma NoDup_standing (l l' : list User.t) :
  map Backend.standing l' = map Backend.standing l ->
  List.NoDup (map User._id l) -> List.NoDup (map User._id l').
Proof.
  intros H Hnd.
  assert (Hid : forall l0, map User._id l0
                           = map (fun s : string * string * string * string
                                        * option string * User.Rating * Q * Q * bool =>
                                    s.1.1.1.1.1.1.1.1) (map Backend.standing l0)).
  { intros l0. rewrite map_map. reflexivity. }
  rewrite Hid, H, <- Hid. exact Hnd.
Qed.

Lemma User_findByIdAndUpdate_standing (db : DB) (id : string)
    (update : User.t -> User.t) :
  List.NoDup (map User._id (users db)) ->
  (forall u, Backend.standing (update u) = Backend.standing u) ->
  map Backend.standing (users (User_findByIdAndUpdate db id update).1)
  = map Backend.standing (users db).
Proof.
  intros Hnd Hu. unfold User_findByIdAndUpdate.
  destruct (User_findById db id) as [u|] eqn:Hf; [|reflexivity].
  exact (User_save_standing db id u (update u) Hnd Hf (Hu u)).
Qed.

Lemma accept_users (find_other : DB -> Payload.value -> option string)
    (now : Z) (req : SocketService.accept_request) (db : DB) :
  users (Handshake.accept find_other now req db).1.1 = users db.
Proof.
  destruct (accept_cases find_other now req db)
    as [-> | (key & issue & edited & _ & _ & _ & ->)]; reflexivity.
Qed.

Lemma Api_handle_standing (cast : string -> string)
    (find_other : DB -> Payload.value -> option string) (db : DB) (r : Api.request) :
  List.NoDup (map User._id (users db)) ->
  map Backend.standing (users (Api.handle cast find_other db r))
  = map Backend.standing (users db).
Proof.
  intros Hnd. destruct r as [id me vt|id me a|now id me sol spent|now req|id me b|id me];
    simpl.
  - unfold voteIssue. destruct (negb _); [reflexivity|].
    destruct (Issue_findById db id) as [issue|]; [|reflexivity].
    destruct (if String.eqb vt "upvote" then _ else _) as [issue1 [|]]; reflexivity.
  - unfold assignIssue. destruct a as [h|]; [|reflexivity].
    destruct (String.eqb h ""); [reflexivity|].
    destruct (Issue_findById db id); [|reflexivity].
    destruct (negb _); [reflexivity|].
    destruct (User_findById db h); reflexivity.
  - unfold resolveIssue. destruct sol as [sol|]; [|reflexivity].
    destruct (String.eqb sol ""); [reflexivity|].
    destruct (Issue_findById db id) as [issue|]; [|reflexivity].
    destruct (Issue.assignedTo issue); [|reflexivity].
    destruct (negb _); [reflexivity|].
    destruct (User_findById _ me) as [helper|] eqn:Hf; [|reflexivity].
    exact (User_save_standing _ me helper (add_resolved _ helper) Hnd Hf eq_refl).
  - now rewrite accept_users.
  - unfold IssueCrud.updateIssue. destruct (Issue_findById db id); [|reflexivity].
    destruct (negb _); [reflexivity|]. destruct (_ || _); reflexivity.
  - unfold IssueCrud.deleteIssue. destruct (Issue_findById db id); [|reflexivity].
    destruct (negb _); reflexivity.
Qed.

Lemma Backend_handle_standing (cast : string -> string)
    (find_other : DB -> Payload.value -> option string) (db : DB)
    (r : Backend.request) :
  List.NoDup (map User._id (users db)) ->
  map Backend.standing (users (Backend.handle cast find_other db r))
  = map Backend.standing (users db).
Proof.
  intros Hnd. destruct r as [r|id me inputs|id skillName|now me v|now uid|now uid];
    simpl.
  - now apply Api_handle_standing.
  - unfold updateUserSkills. destruct (negb _); [reflexivity|].
    destruct (User_findById db id) as [u|] eqn:Hf; [|reflexivity].
    destruct (negb _); [reflexivity|]. destruct (negb _); [reflexivity|].
    exact (User_save_standing db id u (set_skills _ u) Hnd Hf eq_refl).
  - unfold verifyUserSkill. destruct (User_findById db id) as [u|] eqn:Hf; [|reflexivity].
    destruct (verify skillName (User.skills u)) as [[sk l]|]; [|reflexivity].
    exact (User_save_standing db id u (set_skills _ u) Hnd Hf eq_refl).
  - unfold updateAvailability. destruct v; try reflexivity.
    destruct (negb _); [reflexivity|].
    pose proof (User_findByIdAndUpdate_standing db me (set_activity s now) Hnd
                  (fun u => eq_refl)) as H.
    destruct (User_findByIdAndUpdate db me (set_activity s now)) as [db1 user].
    exact H.
  - unfold updateUserActivity. now apply User_findByIdAndUpdate_standing.
  - unfold updateUserActivity. now apply User_findByIdAndUpdate_standing.
Qed.

End UserFacts.

Section UserLookup.
Import JS IssueController UserController.

Lemma User_save_other (db : DB) (u' : User.t) (other : string) :
  other <> User._id u' ->
  User_findById (User_save db u') other = User_findById db other.
Proof.
  intros Hne. unfold User_findById, User_save. simpl.
  induction (users db) as [|x l IH]; [reflexivity|]. simpl.
  destruct (String.eqb (User._id x) (User._id u')) eqn:E.
  - apply String.eqb_eq in E.
    assert (E1 : String.eqb (User._id u') other = false)
      by (apply String.eqb_neq; congruence).
    assert (E2 : String.eqb (User._id x) other = false)
      by (apply String.eqb_neq; congruence).
    now rewrite E1, E2.
  - destruct (String.eqb (User._id x) other); [reflexivity | exact IH].
Qed.

Lemma recencyScore_now (now : Z) (u : User.t) :
  User.lastActive u = now -> (User.recencyScore now u == 1)%Q.
Proof.
  intros H. unfold User.recencyScore, User.daysSinceLastActive, Math_max.
  rewrite H, Z.sub_diag.
  set (x := (1 - inject_Z 0 / inject_Z (1000 * 60 * 60 * 24) / 30)%Q).
  assert (E : (x == 1)%Q) by reflexivity.
  destruct (Qle_bool 0 x) eqn:B; [exact E|].
  assert (Hx : (0 <= x)%Q) by (rewrite E; discriminate).
  apply Qle_bool_iff in Hx. congruence.
Qed.

End UserLookup.

(** X22. Verifying a skill marks the first skill of the user whose name
    equals the given name up to letter case, and nothing else: the skills
    before and after it, its name and its level stay. The verified flag is
    not read by the scoring method, so the user's helper score for every
    issue is as before. *)
Theorem verifyUserSkill_marks_first_match
    (db : IssueController.DB) (id skillName : string) (user : User.t)
    (s : User.Skill) :
  IssueController.User_findById db id = Some user ->
  In s (User.skills user) ->
  JS.toLowerCase (User.name s) = JS.toLowerCase skillName ->
  exists l1 s0 l2 skill user',
    User.skills user = (l1 ++ s0 :: l2)%list
    /\ Forall (fun x => JS.toLowerCase (User.name x) <> JS.toLowerCase skillName) l1
    /\ JS.toLowerCase (User.name s0) = JS.toLowerCase skillName
    /\ skill = User.mkSkill (User.name s0) (User.level s0) true
    /\ UserController.verifyUserSkill db id skillName
       = (IssueController.User_save db user', IssueController.Success skill)
    /\ IssueController.User_findById (IssueController.User_save db user') id
       = Some user'
    /\ User.skills user' = (l1 ++ skill :: l2)%list
    /\ forall now req category priority,
         User.calculateHelperScore now user' req category priority
         = User.calculateHelperScore now user req category priority.
Proof.
  intros Hf Hin Hs.
  destruct (verify_first skillName (User.skills user) s Hin Hs)
    as (l1 & s0 & l2 & Hsk & Hl1 & Hs0 & Hv).
  exists l1, s0, l2, (User.mkSkill (User.name s0) (User.level s0) true),
    (UserController.set_skills
       (l1 ++ User.mkSkill (User.name s0) (User.level s0) true :: l2)%list user).
  split; [exact Hsk|]. split; [exact Hl1|]. split; [exact Hs0|].
  split; [reflexivity|]. split.
  { unfold UserController.verifyUserSkill. rewrite Hf, Hv. reflexivity. }
  split.
  { apply User_save_found with (h := user); [exact Hf|].
    simpl. now apply User_findById_id in Hf. }
  split; [reflexivity|].
  intros now req category priority. apply score_same_names; try reflexivity.
  unfold User.userSkillNames. simpl. rewrite Hsk, !map_app. reflexivity.
Qed.

Lemma verifyUserSkill_marks_first_match_witness :
  exists skill db',
    UserController.verifyUserSkill (Sample.db Issue.open None) "u2" "NETWORK"
    = (db', IssueController.Success skill)
    /\ skill = User.mkSkill "network" "beginner" true.
Proof.
  destruct (verifyUserSkill_marks_first_match (Sample.db Issue.open None) "u2"
              "NETWORK" Sample.vic (User.mkSkill "network" "beginner" false)
              eq_refl (or_intror (or_introl eq_refl)) eq_refl)
    as (l1 & s0 & l2 & skill & user' & Hsk & Hl1 & Hs0 & Hskill & Hv & _).
  exists skill, (IssueController.User_save (Sample.db Issue.open None) user').
  split; [exact Hv|].
  assert (H : snd (UserController.verifyUserSkill (Sample.db Issue.open None)
                     "u2" "NETWORK")
              = IssueController.Success (User.mkSkill "network" "beginner" true))
    by reflexivity.
  rewrite Hv in H. simpl in H. now injection H.
Defined.

(** X23. A user who sends a valid list of skills with names that are not
    blank replaces the own skills by that list, with each name trimmed and
    each verified flag as sent, an omitted flag counting as not verified:
    the sender can mark own skills as verified, and a skill verified before
    stays verified only if the list says so. Afterwards an issue that
    requires only names of the list, in any letter case, gets the skill
    score 1. *)
Theorem updateUserSkills_stores_list_as_sent
    (db : IssueController.DB) (me : string) (user : User.t)
    (inputs : list UserController.skill_input) :
  IssueController.User_findById db me = Some user ->
  UserController.updateSkillsSchema inputs = true ->
  (forall s, In s inputs -> JS.trim (UserController.input_name s) <> "") ->
  exists user',
    UserController.updateUserSkills db me me inputs
    = (IssueController.User_save db user',
       IssueController.Success (map UserController.cast_skill inputs))
    /\ IssueController.User_findById (IssueController.User_save db user') me
       = Some user'
    /\ map User.name (User.skills user')
       = map (fun s => JS.trim (UserController.input_name s)) inputs
    /\ map User.verified (User.skills user')
       = map (fun s => match UserController.input_verified s with
                       | Some b => b
                       | None => false
                       end) inputs
    /\ forall req,
         req <> [] ->
         (forall r, In r req ->
            exists s, In s inputs
                      /\ JS.toLowerCase r
                         = JS.toLowerCase
                             (JS.trim (UserController.input_name s))) ->
         JS.jsnum_eq (User.skillScore user' req) (JS.Num 1).
Proof.
  intros Hf Hv Hb.
  exists (UserController.set_skills (map UserController.cast_skill inputs) user).
  assert (Hid : User._id user = me) by now apply User_findById_id in Hf.
  split.
  { unfold UserController.updateUserSkills. rewrite Hv, Hf, Hid, String.eqb_refl.
    cbn [negb].
    assert (Hval : UserController.skills_valid (map UserController.cast_skill inputs)
                   = true).
    { unfold UserController.skills_valid. apply forallb_forall. intros sk Hsk.
      apply in_map_iff in Hsk as (s & <- & Hs). simpl.
      apply negb_true_iff, String.eqb_neq. now apply Hb. }
    rewrite Hval. reflexivity. }
  split.
  { apply User_save_found with (h := user); [exact Hf | exact Hid]. }
  split; [simpl; now rewrite map_map|]. split; [simpl; now rewrite map_map|].
  intros req Hne Hreq. apply skillScore_full; [exact Hne|].
  intros r Hr. destruct (Hreq r Hr) as (s & Hs & ->).
  unfold User.userSkillNames. simpl. rewrite map_map.
  apply in_map_iff. exists s. split; [reflexivity | exact Hs].
Qed.

Lemma updateUserSkills_stores_list_as_sent_witness :
  exists user',
    UserController.updateUserSkills (Sample.db Issue.open None) "u1" "u1"
      UserFixtures.own_skills
    = (IssueController.User_save (Sample.db Issue.open None) user',
       IssueController.Success
         [ User.mkSkill "Firewalls" "expert" true;
           User.mkSkill "Network" "advanced" false ])
    /\ map User.verified (User.skills user') = [true; false].
Proof.
  assert (Hb : forall s, In s UserFixtures.own_skills ->
                 JS.trim (UserController.input_name s) <> "").
  { intros s [<-|[<-|[]]]; discriminate. }
  destruct (updateUserSkills_stores_list_as_sent (Sample.db Issue.open None) "u1"
              Sample.netta UserFixtures.own_skills eq_refl eq_refl Hb)
    as (user' & H1 & _ & _ & H4 & _).
  exists user'. split; [exact H1 | exact H4].
Defined.

(** X24. Every write of the last activity gives full recency at that
    moment. A valid availability update of a stored user stores the new
    availability with the time of the request, so the engagement score taken
    at that time is the mean of 1 and the availability score; the connection
    and the disconnect of a socket store the time too and leave the
    availability. Skills, rating and contributions are not touched. *)
Theorem activity_writes_give_full_recency
    (now : Z) (db : IssueController.DB) (me a : string) (user : User.t) :
  IssueController.User_findById db me = Some user ->
  In a ["available"; "busy"; "unavailable"] ->
  (exists user',
     UserController.updateAvailability now db me (Payload.VStr a)
     = (IssueController.User_save db user', IssueController.Success (Some user'))
     /\ IssueController.User_findById (IssueController.User_save db user') me
        = Some user'
     /\ User.availability user' = a
     /\ (User.recencyScore now user' == 1)%Q
     /\ (User.engagementScore now user' == (1 + User.availabilityScore user') / 2)%Q
     /\ User.skills user' = User.skills user
     /\ User.rating user' = User.rating user
     /\ User.contributions user' = User.contributions user)
  /\ (exists user',
        IssueController.User_findById (UserController.updateUserActivity now db me) me
        = Some user'
        /\ User.availability user' = User.availability user
        /\ (User.recencyScore now user' == 1)%Q
        /\ User.skills user' = User.skills user
        /\ User.rating user' = User.rating user
        /\ User.contributions user' = User.contributions user).
Proof.
  intros Hf Ha.
  assert (Hid : User._id user = me) by now apply User_findById_id in Hf.
  split.
  - exists (UserController.set_activity a now user).
    assert (Hr : (User.recencyScore now (UserController.set_activity a now user) == 1)%Q)
      by (apply recencyScore_now; reflexivity).
    split.
    { unfold UserController.updateAvailability, UserController.User_findByIdAndUpdate.
      assert (Hi : JS.arr_includes ["available"; "busy"; "unavailable"] a = true).
      { unfold JS.arr_includes. apply existsb_exists. exists a.
        split; [exact Ha | apply String.eqb_refl]. }
      rewrite Hi, Hf. reflexivity. }
    split; [apply User_save_found with (h := user); [exact Hf | exact Hid]|].
    split; [reflexivity|]. split; [exact Hr|].
    split; [unfold User.engagementScore; now rewrite Hr|].
    repeat split.
  - exists (UserController.set_activity (User.availability user) now user).
    split.
    { unfold UserController.updateUserActivity, UserController.User_findByIdAndUpdate.
      rewrite Hf. simpl.
      apply User_save_found with (h := user); [exact Hf | exact Hid]. }
    split; [reflexivity|].
    split; [apply recencyScore_now; reflexivity|]. repeat split.
Qed.

Lemma activity_writes_give_full_recency_witness :
  exists user',
    UserController.updateAvailability (40 * Sample.day) (Sample.db Issue.open None) "u2"
      (Payload.VStr "available")
    = (IssueController.User_save (Sample.db Issue.open None) user',
       IssueController.Success (Some user'))
    /\ (User.engagementScore (40 * Sample.day) user'
        == (1 + User.availabilityScore user') / 2)%Q.
Proof.
  destruct (activity_writes_give_full_recency (40 * Sample.day)
              (Sample.db Issue.open None) "u2" "available" Sample.vic
              eq_refl (or_introl eq_refl))
    as [(user' & H1 & _ & _ & _ & H5 & _) _].
  exists user'. split; [exact H1 | exact H5].
Defined.

(** X25. Votes, direct assignments, resolutions, accepted help responses,
    issue updates and deletions, skill updates and verifications,
    availability updates, and the activity stamps of sockets that connect or
    disconnect leave a user's identifiers, name, department, rating, points,
    count of posted issues and active flag alone, and add or remove no user:
    when user identifiers are unique, the users after any sequence of these
    requests are the users before, in the same order, each with these fields
    as they were. ([register], [login] and [updateProfile] are not among
    the requests.) *)
Theorem requests_keep_user_standing
    (cast_skill : string -> string)
    (find_other : IssueController.DB -> Payload.value -> option string)
    (db : IssueController.DB) (rs : list Backend.request) :
  List.NoDup (map User._id (IssueController.users db)) ->
  map Backend.standing
    (IssueController.users (Backend.handle_all cast_skill find_other db rs))
  = map Backend.standing (IssueController.users db)
  /\ List.NoDup
       (map User._id
          (IssueController.users (Backend.handle_all cast_skill find_other db rs))).
Proof.
  unfold Backend.handle_all. revert db.
  induction rs as [|r rs IH]; intros db Hnd; simpl; [split; [reflexivity | exact Hnd]|].
  pose proof (Backend_handle_standing cast_skill find_other db r Hnd) as Hr.
  pose proof (NoDup_standing _ _ Hr Hnd) as Hnd'.
  destruct (IH _ Hnd') as [H1 H2]. split; [|exact H2]. now rewrite H1.
Qed.

Lemma requests_keep_user_standing_witness :
  map Backend.standing
    (IssueController.users
       (Backend.handle_all (fun s => s) Handshake.strings_only
          (Sample.db Issue.assigned (Some "u1")) UserFixtures.busy_day))
  = map Backend.standing [Sample.owner; Sample.netta; Sample.vic].
Proof.
  apply (requests_keep_user_standing (fun s => s) Handshake.strings_only
           (Sample.db Issue.assigned (Some "u1")) UserFixtures.busy_day).
  change (List.NoDup ["u0"; "u1"; "u2"]).
  repeat (apply List.NoDup_cons; [simpl; intuition discriminate|]).
  apply List.NoDup_nil.
Defined.

(** X26. A skill update writes the requester's own document only: sent for
    another user it is refused and changes nothing, and sent for the
    requester it leaves every other user as found before. *)
Theorem updateUserSkills_writes_own_document_only
    (db : IssueController.DB) (id me : string)
    (inputs : list UserController.skill_input) :
  (id <> me ->
   fst (UserController.updateUserSkills db id me inputs) = db
   /\ forall skills,
        snd (UserController.updateUserSkills db id me inputs)
        <> IssueController.Success skills)
  /\ forall other,
       other <> me ->
       IssueController.User_findById
         (fst (UserController.updateUserSkills db id me inputs)) other
       = IssueController.User_findById db other.
Proof.
  unfold UserController.updateUserSkills.
  destruct (negb (UserController.updateSkillsSchema inputs));
    [split; [split; [reflexivity | discriminate] | reflexivity]|].
  destruct (IssueController.User_findById db id) as [user|] eqn:Hf;
    [|split; [split; [reflexivity | discriminate] | reflexivity]].
  pose proof (User_findById_id db id user Hf) as Hid.
  destruct (String.eqb (User._id user) me) eqn:E; cbn [negb];
    [|split; [split; [reflexivity | discriminate] | reflexivity]].
  apply String.eqb_eq in E.
  destruct (negb (UserController.skills_valid _));
    [split; [split; [reflexivity | discriminate] | reflexivity]|].
  split; [intros Hne; congruence|].
  intros other Ho. simpl. apply User_save_other. simpl. congruence.
Qed.

Section SelectionFacts.
Import JS IssueController.
Local Open Scope Q_scope.

Lemma filter_none {A} (p : A -> bool) (l : list A) :
  (forall x, In x l -> p x = false) -> List.filter p l = [].
Proof.
  induction l as [|x l IH]; intros H; [reflexivity|]. simpl.
  rewrite (H x) by now left. apply IH. intros y Hy. apply H. now right.
Qed.

Lemma skillScore_none (u : User.t) (req : list string) :
  req <> [] ->
  (forall r sk, In r req -> In sk (User.skills u) ->
     toLowerCase (User.name sk) <> toLowerCase r) ->
  User.skillScore u req = Num (0 / inject_Z (Z.of_nat (length req))).
Proof.
  intros Hne H. unfold User.skillScore, User.matchingSkills.
  rewrite filter_none.
  - destruct req; [congruence | reflexivity].
  - intros r Hr. unfold arr_includes.
    destruct (existsb _ _) eqn:E; [|reflexivity].
    apply existsb_exists in E as (n & Hn & He). apply String.eqb_eq in He.
    unfold User.userSkillNames in Hn. apply in_map_iff in Hn as (sk & <- & Hsk).
    destruct (H r sk Hr Hsk). now symmetry.
Qed.

End SelectionFacts.

(** X27. Candidates are selected by searching the skill names for the
    required skills as patterns, but scored by comparing whole names: an
    active user with a skill name that one of the patterns matches, none of
    whose skill names equals a required skill up to letter case, is among
    the suggestions when at most ten users are selected, and its score has no
    skill part: it is 0.3 of the history score plus 0.04 plus 0.15 of the
    engagement score. *)
Theorem pattern_match_is_suggested_without_skill_credit
    (RegExp_i : string -> option (string -> bool)) (clock : nat -> Z)
    (db : IssueController.DB) (id : string) (issue : Issue.t)
    (regexes : list (string -> bool)) (u : User.t) :
  IssueController.Issue_findById db id = Some issue ->
  mapM RegExp_i (Issue.requiredSkills issue) = Some regexes ->
  Issue.requiredSkills issue <> [] ->
  In u (IssueController.users db) ->
  User.isActive u = true ->
  (exists sk re, In sk (User.skills u) /\ In re regexes /\ re (User.name sk) = true) ->
  (forall r sk, In r (Issue.requiredSkills issue) -> In sk (User.skills u) ->
     JS.toLowerCase (User.name sk) <> JS.toLowerCase r) ->
  (length (IssueController.potentialHelpers regexes db) <= 10)%nat ->
  exists helpers s now,
    IssueController.getHelperSuggestions RegExp_i clock db id
    = IssueController.Success helpers
    /\ In (u, s) helpers
    /\ JS.jsnum_eq s
         (JS.Num (User.historyScore u * (3 # 10) + (4 # 100)
                  + User.engagementScore now u * (15 # 100)))%Q.
Proof.
  intros Hfind Hm Hne Hu Ha Hmatch Hnone Hle.
  assert (Hc : In u (IssueController.potentialHelpers regexes db)).
  { unfold IssueController.potentialHelpers. apply filter_In. split; [exact Hu|].
    apply matches_query_true. now split. }
  destruct (suggestions_success RegExp_i clock db id issue regexes Hfind Hm)
    as (scored & Hsc & ->).
  destruct (helpersWithScores_In clock (Issue.requiredSkills issue) _ scored u Hsc Hc)
    as (i & s & Hi & Hs).
  exists (take 10 (IssueController.Array_sort IssueController.compareFn scored)),
         s, (clock i).
  split; [reflexivity|]. split.
  - rewrite take_ge.
    + apply (Permutation_in _ (Permutation_sym (Array_sort_Permutation _ _))).
      exact Hi.
    + pose proof (Permutation_length
                    (Array_sort_Permutation IssueController.compareFn scored)) as Hl.
      pose proof (length_map fst scored) as Hl'.
      rewrite (helpersWithScores_fst clock _ _ scored Hsc) in Hl'.
      unfold IssueController.Scored in *. lia.
  - rewrite calculateHelperScore_defaults in Hs. injection Hs as <-.
    rewrite (skillScore_none u _ Hne Hnone). unfold JS.jsnum_eq.
    unfold User.skillWeight, User.historyWeight, User.domainWeight,
      User.engagementWeight.
    set (n := inject_Z (Z.of_nat (length (Issue.requiredSkills issue)))).
    assert (H0 : (0 / n == 0)%Q) by (unfold Qdiv; apply Qmult_0_l).
    rewrite H0. ring.
Qed.

Lemma pattern_match_is_suggested_without_skill_credit_witness :
  exists helpers s now,
    IssueController.getHelperSuggestions Sample.RegExp_plain (fun _ => 0%Z)
      PatternFixtures.net_db "i3"
    = IssueController.Success helpers
    /\ In (Sample.netta, s) helpers
    /\ JS.jsnum_eq s
         (JS.Num (User.historyScore Sample.netta * (3 # 10) + (4 # 100)
                  + User.engagementScore now Sample.netta * (15 # 100)))%Q.
Proof.
  apply (pattern_match_is_suggested_without_skill_credit Sample.RegExp_plain
           (fun _ => 0%Z) PatternFixtures.net_db "i3" PatternFixtures.net_issue
           [fun subject => JS.str_includes (JS.toLowerCase subject) (JS.toLowerCase "net")]
           Sample.netta).
  - reflexivity.
  - reflexivity.
  - discriminate.
  - simpl. tauto.
  - reflexivity.
  - exists (User.mkSkill "Network" "advanced" true), 
      (fun subject => JS.str_includes (JS.toLowerCase subject) (JS.toLowerCase "net")).
    split; [simpl; tauto|]. split; [simpl; tauto | reflexivity].
  - intros r sk [<-|[]] [<-|[]]. discriminate.
  - vm_compute. lia.
Defined.

Section StatsFacts.
Import JS IssueController UserStats.

Lemma filter_length_Permutation {A} (p : A -> bool) (l l' : list A) :
  Permutation l l' -> length (List.filter p l) = length (List.filter p l').
Proof.
  induction 1 as [|x l l' _ IH|x y l|l l' l'' _ IH1 _ IH2]; simpl.
  - reflexivity.
  - destruct (p x); simpl; now rewrite IH.
  - destruct (p x), (p y); reflexivity.
  - now rewrite IH1.
Qed.

Lemma count_insert_fresh (m : gmap string Issue.t) (k : string) (x : Issue.t)
    (p : Issue.t -> bool) :
  m !! k = None ->
  length (List.filter p (map snd (map_to_list (<[k := x]> m))))
  = (b2n (p x) + length (List.filter p (map snd (map_to_list m))))%nat.
Proof.
  intros Hk.
  rewrite (filter_length_Permutation p _ (x :: map snd (map_to_list m))).
  - simpl. destruct (p x); reflexivity.
  - change (x :: map snd (map_to_list m)) with (map snd ((k, x) :: map_to_list m)).
    apply Permutation_map. now apply map_to_list_insert.
Qed.

(** Storing a new version of a stored issue moves a count by what the two
    versions contribute. *)
Lemma count_save (db : DB) (k : string) (old new : Issue.t) (p : Issue.t -> bool) :
  Issue_findById db k = Some old ->
  (Issue_countDocuments (Issue_save db k new) p + b2n (p old)
   = Issue_countDocuments db p + b2n (p new))%nat.
Proof.
  unfold Issue_findById, Issue_countDocuments, Issue_find, Issue_save. simpl.
  intros Hk.
  rewrite <- (insert_delete_eq (issues db) k new).
  rewrite <- (insert_delete_id (issues db) k old Hk) at 2.
  rewrite !count_insert_fresh by apply lookup_delete_eq. lia.
Qed.

Lemma count_users (db : DB) (u : User.t) (p : Issue.t -> bool) :
  Issue_countDocuments (User_save db u) p = Issue_countDocuments db p.
Proof. reflexivity. Qed.

End StatsFacts.

(** X28. The statistics count issues where the profile counts requests.
    When the assigned helper resolves an issue, the helper's profile counter
    of resolved issues grows by one in every case, while the number of
    resolved issues in the helper's statistics grows by one only if the
    issue was not yet resolved by the helper, and stays otherwise. The
    numbers of posted and assigned issues stay, and the issue leaves the
    open issues if it was among them. *)
Theorem statistics_count_issues_not_requests
    (now : Z) (db : IssueController.DB) (id me sol : string) (spent : option Q)
    (issue : Issue.t) (helper : User.t) :
  IssueController.Issue_findById db id = Some issue ->
  Issue.assignedTo issue = Some me ->
  sol <> "" ->
  IssueController.User_findById db me = Some helper ->
  let db' := fst (IssueController.resolveIssue now db id me (Some sol) spent) in
  exists st st' helper',
    UserStats.getUserStats db me = IssueController.Success st
    /\ UserStats.getUserStats db' me = IssueController.Success st'
    /\ IssueController.User_findById db' me = Some helper'
    /\ User.issuesResolved (User.contributions helper')
       = (User.issuesResolved (User.contributions helper) + 1)%Q
    /\ UserStats.resolvedIssues st'
       = (UserStats.resolvedIssues st
          + if UserStats.resolved_by me issue then 0 else 1)%nat
    /\ UserStats.postedIssues st' = UserStats.postedIssues st
    /\ UserStats.assignedIssues st' = UserStats.assignedIssues st
    /\ (UserStats.openIssues st'
        + (if UserStats.open_of me issue then 1 else 0))%nat
       = UserStats.openIssues st
    /\ UserStats.totalTimeHelped st'
       = (UserStats.totalTimeHelped st
          + match spent with Some q => q | None => 0 end)%Q.
Proof.
  intros Hf Ha Hne Hu db'. subst db'.
  rewrite (resolveIssue_success now db id me sol spent issue helper Hf Ha Hne Hu).
  cbn [fst].
  set (issue1 := Issue.resolve now issue me sol spent).
  set (helper1 := IssueController.add_resolved _ helper).
  assert (Hid : User._id helper1 = me) by (simpl; now apply (User_findById_id db)).
  assert (Hu1 : IssueController.User_findById
                  (IssueController.User_save (IssueController.Issue_save db id issue1)
                                             helper1) me = Some helper1)
    by (apply (User_save_found _ me helper); assumption).
  unfold UserStats.getUserStats. rewrite Hu, Hu1.
  eexists _, _, helper1.
  split; [reflexivity|]. split; [reflexivity|]. split; [reflexivity|].
  split; [reflexivity|]. cbn [UserStats.resolvedIssues UserStats.postedIssues
    UserStats.assignedIssues UserStats.openIssues UserStats.totalTimeHelped].
  rewrite !count_users.
  pose proof (count_save db id issue issue1 (UserStats.resolved_by me) Hf) as Hr.
  pose proof (count_save db id issue issue1 (UserStats.posted_by me) Hf) as Hp.
  pose proof (count_save db id issue issue1 (UserStats.assigned_to me) Hf) as Has.
  pose proof (count_save db id issue issue1 (UserStats.open_of me) Hf) as Ho.
  assert (R1 : UserStats.resolved_by me issue1 = true)
    by (unfold UserStats.resolved_by; simpl; apply String.eqb_refl).
  assert (P1 : UserStats.posted_by me issue1 = UserStats.posted_by me issue)
    by reflexivity.
  assert (A1 : UserStats.assigned_to me issue1 = UserStats.assigned_to me issue)
    by reflexivity.
  assert (O1 : UserStats.open_of me issue1 = false)
    by (unfold UserStats.open_of; simpl; apply andb_false_r).
  rewrite R1 in Hr. rewrite P1 in Hp. rewrite A1 in Has. rewrite O1 in Ho.
  unfold UserStats.b2n in *.
  split; [destruct (UserStats.resolved_by me issue); lia|].
  split; [lia|]. split; [lia|].
  split; [destruct (UserStats.open_of me issue); lia|]. reflexivity.
Qed.

Lemma statistics_count_issues_not_requests_witness :
  exists st st',
    UserStats.getUserStats (Sample.db Issue.assigned (Some "u1")) "u1"
    = IssueController.Success st
    /\ UserStats.getUserStats
         (fst (IssueController.resolveIssue 5 (Sample.db Issue.assigned (Some "u1"))
                 "i1" "u1" (Some "replaced the cable") (Some (30 # 1)))) "u1"
       = IssueController.Success st'
    /\ UserStats.resolvedIssues st' = (UserStats.resolvedIssues st + 1)%nat.
Proof.
  assert (Hne : "replaced the cable" <> "") by discriminate.
  destruct (statistics_count_issues_not_requests 5 (Sample.db Issue.assigned (Some "u1"))
              "i1" "u1" "replaced the cable" (Some (30 # 1))
              (Sample.vpn_issue Issue.assigned (Some "u1")) Sample.netta
              eq_refl eq_refl Hne eq_refl)
    as (st & st' & helper' & H1 & H2 & _ & _ & H5 & _).
  exists st, st'. split; [exact H1|]. split; [exact H2 | exact H5].
Defined.

Section AuthFacts.
Import JS Payload IssueController Auth.

Lemma blank_free_cons (c : ascii) (s : string) :
  blank_free (String c s) = negb (Ascii.eqb c " ") && blank_free s.
Proof. reflexivity. Qed.

Lemma split_blank_free (s : string) : blank_free s = true -> split_blank s = [s].
Proof.
  induction s as [|c r IH]; intros H; [reflexivity|].
  rewrite blank_free_cons in H. apply andb_true_iff in H as [Hc Hr].
  simpl. apply negb_true_iff in Hc. rewrite Hc, (IH Hr). reflexivity.
Qed.

Lemma bearer_eq (token : string) :
  bearer token
  = String "B" (String "e" (String "a" (String "r" (String "e" (String "r"
      (String " " token)))))).
Proof. reflexivity. Qed.

Lemma split_bearer (token : string) :
  blank_free token = true -> nth_error (split_blank (bearer token)) 1 = Some token.
Proof.
  intros H. rewrite bearer_eq.
  cbn [split_blank Ascii.eqb Bool.eqb]. rewrite (split_blank_free token H).
  reflexivity.
Qed.

Lemma prefix_nil (s : string) : String.prefix "" s = true.
Proof. destruct s; reflexivity. Qed.

Lemma prefix_cons (a b : ascii) (p s : string) :
  String.prefix (String a p) (String b s)
  = if ascii_dec a b then String.prefix p s else false.
Proof. reflexivity. Qed.

Lemma startsWith_bearer (token : string) : String.prefix "Bearer" (bearer token) = true.
Proof.
  rewrite bearer_eq. repeat (rewrite prefix_cons; destruct (ascii_dec _ _) as [_|Hc];
    [|now destruct Hc]). apply prefix_nil.
Qed.

Lemma prefix_bearer_blank (token : string) :
  String.prefix "Bearer " (bearer token) = true.
Proof.
  rewrite bearer_eq. repeat (rewrite prefix_cons; destruct (ascii_dec _ _) as [_|Hc];
    [|now destruct Hc]). apply prefix_nil.
Qed.

Lemma remove_first_eq (pattern s : string) :
  remove_first pattern s
  = if String.prefix pattern s then drop_chars (String.length pattern) s
    else match s with
         | EmptyString => EmptyString
         | String c r => String c (remove_first pattern r)
         end.
Proof. destruct s; reflexivity. Qed.

Lemma remove_first_bearer (token : string) :
  remove_first "Bearer " (bearer token) = token.
Proof. rewrite remove_first_eq, prefix_bearer_blank, bearer_eq. reflexivity. Qed.

Lemma prefix_blank_free (p s : string) :
  String.prefix p s = true -> blank_free s = true -> blank_free p = true.
Proof.
  revert s. induction p as [|a p IH]; intros s Hp Hs; [reflexivity|].
  destruct s as [|b s]; [discriminate|].
  rewrite prefix_cons in Hp. destruct (ascii_dec a b) as [->|]; [|discriminate].
  rewrite blank_free_cons in *. apply andb_true_iff in Hs as [Hb Hs].
  rewrite Hb. simpl. now apply (IH s).
Qed.

Lemma remove_first_blank_free (token : string) :
  blank_free token = true -> remove_first "Bearer " token = token.
Proof.
  induction token as [|c r IH]; intros H; [reflexivity|].
  rewrite remove_first_eq.
  destruct (String.prefix "Bearer " (String c r)) eqn:E.
  - apply prefix_blank_free in E; [discriminate E | exact H].
  - rewrite blank_free_cons in H. apply andb_true_iff in H as [_ Hr].
    now rewrite (IH Hr).
Qed.

Lemma truthy_VStr (s : string) : s <> "" -> truthy (VStr s) = true.
Proof. intros H. simpl. apply negb_true_iff, String.eqb_neq, H. Qed.

Section Gates.
Variable verify : string -> option string.
Variable db : DB.

(** What both gates do once they hold the token. *)
Lemma protect_bearer (token : string) :
  token <> "" -> blank_free token = true ->
  protect verify db (Some (bearer token))
  = match verify token with
    | None => [Status401 "Not authorized, token failed"]
    | Some id =>
        match User_findById db id with
        | None => [Status401 "User not found"]
        | Some user =>
            if User.isActive user then [Next user]
            else [Status401 "User account is deactivated"]
        end
    end.
Proof.
  intros Hne Hb. unfold protect.
  rewrite startsWith_bearer, (split_bearer token Hb).
  assert (E : String.eqb (bearer token) "" = false) by (rewrite bearer_eq; reflexivity).
  rewrite E. cbn [negb andb].
  apply String.eqb_neq in Hne. rewrite Hne.
  destruct (verify token); [|reflexivity].
  destruct (User_findById db s) as [user|]; [|reflexivity].
  destruct (User.isActive user); reflexivity.
Qed.

Lemma socket_auth_string (s : string) :
  s <> "" ->
  socket_auth verify db (VStr s) None
  = match verify (remove_first "Bearer " s) with
    | None => Reject "Authentication error"
    | Some id =>
        match User_findById db id with
        | None => Reject "User not found or inactive"
        | Some user =>
            if User.isActive user then Admit (User._id user) user
            else Reject "User not found or inactive"
        end
    end.
Proof.
  intros Hne. unfold socket_auth.
  repeat (rewrite (truthy_VStr s Hne); cbn [negb]).
  destruct (verify _); [|reflexivity].
  destruct (User_findById db s0) as [user|]; [|reflexivity].
  destruct (User.isActive user); reflexivity.
Qed.

Lemma socket_auth_header (h : string) :
  socket_auth verify db VUndefined (Some h) = socket_auth verify db (VStr h) None.
Proof.
  unfold socket_auth, truthy.
  destruct (String.eqb h "") eqn:E; cbn [negb]; rewrite ?E; reflexivity.
Qed.

End Gates.

End AuthFacts.

(** X29. The HTTP gate and the socket gate admit the same user. For a
    token that is not empty and holds no blank, the HTTP gate with the
    header [Bearer <token>], the socket gate with that header, and the
    socket gate with the bare token in the handshake each admit a user
    exactly when the token is verified and names an active user of the
    collection, and then they admit that user. The HTTP gate refuses the
    bare token as a header. *)
Theorem gates_admit_the_verified_active_user
    (verify : string -> option string) (db : IssueController.DB)
    (token : string) (user : User.t) :
  token <> "" ->
  Auth.blank_free token = true ->
  (Auth.protect verify db (Some (Auth.bearer token)) = [Auth.Next user]
   <-> Auth.identifies verify db token user)
  /\ (Auth.socket_auth verify db Payload.VUndefined (Some (Auth.bearer token))
      = Auth.Admit (User._id user) user
      <-> Auth.identifies verify db token user)
  /\ (Auth.socket_auth verify db (Payload.VStr token) None
      = Auth.Admit (User._id user) user
      <-> Auth.identifies verify db token user)
  /\ (String.prefix "Bearer" token = false ->
      Auth.protect verify db (Some token)
      = [Auth.Status401 "Not authorized, no token"]).
Proof.
  intros Hne Hb.
  assert (Hbne : Auth.bearer token <> "") by (rewrite bearer_eq; discriminate).
  rewrite (protect_bearer verify db token Hne Hb).
  rewrite socket_auth_header, (socket_auth_string verify db _ Hbne),
    remove_first_bearer.
  rewrite (socket_auth_string verify db token Hne), (remove_first_blank_free token Hb).
  unfold Auth.identifies.
  split; [|split; [|split]].
  - destruct (verify token) as [id|];
      [|split; [discriminate | intros (i & [=] & _)]].
    destruct (IssueController.User_findById db id) as [u|] eqn:Hf;
      [|split; [discriminate | intros (i & [= <-] & Hi & _); congruence]].
    destruct (User.isActive u) eqn:Ha.
    + split.
      * intros [= <-]. now exists id.
      * intros (i & [= <-] & Hi & _). congruence.
    + split; [discriminate|]. intros (i & [= <-] & Hi & Hact). congruence.
  - destruct (verify token) as [id|];
      [|split; [discriminate | intros (i & [=] & _)]].
    destruct (IssueController.User_findById db id) as [u|] eqn:Hf;
      [|split; [discriminate | intros (i & [= <-] & Hi & _); congruence]].
    destruct (User.isActive u) eqn:Ha.
    + split.
      * intros [= _ <-]. now exists id.
      * intros (i & [= <-] & Hi & _). congruence.
    + split; [discriminate|]. intros (i & [= <-] & Hi & Hact). congruence.
  - destruct (verify token) as [id|];
      [|split; [discriminate | intros (i & [=] & _)]].
    destruct (IssueController.User_findById db id) as [u|] eqn:Hf;
      [|split; [discriminate | intros (i & [= <-] & Hi & _); congruence]].
    destruct (User.isActive u) eqn:Ha.
    + split.
      * intros [= _ <-]. now exists id.
      * intros (i & [= <-] & Hi & _). congruence.
    + split; [discriminate|]. intros (i & [= <-] & Hi & Hact). congruence.
  - intros Hp. unfold Auth.protect. rewrite Hp, andb_false_r. reflexivity.
Qed.

Lemma gates_admit_the_verified_active_user_witness :
  Auth.protect Auth.sample_verify (Sample.db Issue.open None) (Some "Bearer t-u1")
  = [Auth.Next Sample.netta]
  /\ Auth.socket_auth Auth.sample_verify (Sample.db Issue.open None)
       (Payload.VStr "t-u1") None
     = Auth.Admit "u1" Sample.netta.
Proof.
  assert (Hne : "t-u1" <> "") by discriminate.
  destruct (gates_admit_the_verified_active_user Auth.sample_verify
              (Sample.db Issue.open None) "t-u1" Sample.netta Hne eq_refl)
    as (H1 & _ & H3 & _).
  assert (Hid : Auth.identifies Auth.sample_verify (Sample.db Issue.open None)
                  "t-u1" Sample.netta)
    by (exists "u1"; repeat split).
  split; [exact (proj2 H1 Hid) | exact (proj2 H3 Hid)].
Defined.
